(** * Obi-Tuke: the PDF band replacement core ([backend/app/pdf_processor.py])
    and its HTTP layer ([backend/app/models.py], [backend/app/main.py])

    A shallow embedding of [PDFProcessor] and of the parts of PyMuPDF ([fitz])
    and Pillow ([PIL]) it calls, of the settings model and of the endpoint
    [POST /process], followed by the properties of the unit converter, the
    band image generator, the uploaded image normalisation, the per-page
    compositor, the validator, the top-level dispatch, the constraints of
    the settings and the checks and answers of the endpoint.

    Python [float] is IEEE 754 binary64 and is modelled by Rocq's primitive
    floats, so every arithmetic expression of the source is evaluated with
    the rounding the interpreter performs.  Python [int] is [Z].  Code that
    can raise returns a [result]; code that touches a document handle runs
    in the state-and-exception monad [M] over the table of handles.

    The libraries are modelled as far as the program uses them.  Three
    simplifications are to be kept in mind when reading the properties:
    [Image.open] decodes at once, where Pillow reads the header and
    decodes on first use, and its message leaves out the name of the
    stream; [ImageColor.getrgb] knows the hexadecimal colours only; and a
    page records the operations applied to it with their arguments, not
    what a viewer renders of them. *)

From Stdlib Require Import ZArith List String Ascii Bool Lia Floats.
From Stdlib Require Import DecimalString Reals Lra.
Import ListNotations.

#[local] Set Warnings "-inexact-float".

Local Open Scope string_scope.
Local Open Scope list_scope.
Local Open Scope Z_scope.

(** ** Exceptions and results *)

(** The exception classes the modelled code can meet.  All of them derive
    from [Exception]; [IOError] is an alias of [OSError] in Python 3. *)
Inductive exn : Type :=
| OSError (msg : string)
| ValueError (msg : string)
| OverflowError (msg : string)
| FileDataError (msg : string)
| UnidentifiedImageError (msg : string).

(** [str(e)] *)
Definition str (e : exn) : string :=
  match e with
  | OSError m | ValueError m | OverflowError m
  | FileDataError m | UnidentifiedImageError m => m
  end.

Definition is_OSError (e : exn) : bool :=
  match e with
  | OSError _ | UnidentifiedImageError _ => true
  | _ => false
  end.

Inductive result (A : Type) : Type :=
| Ok (a : A)
| Raise (e : exn).
Arguments Ok {A} a.
Arguments Raise {A} e.

Definition rbind {A B} (r : result A) (k : A -> result B) : result B :=
  match r with
  | Ok a => k a
  | Raise e => Raise e
  end.

(** [str(n)] for an integer. *)
Definition decimal (n : Z) : string := NilZero.string_of_int (Z.to_int n).

(** ** Floating point: [int(x)] and [round(x)] *)

Module PyFloat.

(** The integer part of [m * 2^e], rounded toward zero. *)
Definition trunc_mag (m : positive) (e : Z) : Z :=
  if 0 <=? e then Z.pos m * 2 ^ e else Z.pos m / 2 ^ (- e).

(** [m * 2^e] rounded to the nearest integer, ties to the even one. *)
Definition round_mag (m : positive) (e : Z) : Z :=
  if 0 <=? e then Z.pos m * 2 ^ e
  else
    let d := 2 ^ (- e) in
    let q := Z.pos m / d in
    let r := Z.pos m mod d in
    match 2 * r ?= d with
    | Lt => q
    | Gt => q + 1
    | Eq => if Z.even q then q else q + 1
    end.

Definition signed (s : bool) (z : Z) : Z := if s then - z else z.

(** [int(x)]: truncation toward zero; raises on infinities and NaN. *)
Definition int (x : float) : result Z :=
  match Prim2SF x with
  | S754_zero _ => Ok 0
  | S754_finite s m e => Ok (signed s (trunc_mag m e))
  | S754_infinity _ =>
      Raise (OverflowError "cannot convert float infinity to integer")
  | S754_nan => Raise (ValueError "cannot convert float NaN to integer")
  end.

(** [round(x)] with one argument: nearest integer, ties to even. *)
Definition round (x : float) : result Z :=
  match Prim2SF x with
  | S754_zero _ => Ok 0
  | S754_finite s m e => Ok (signed s (round_mag m e))
  | S754_infinity _ =>
      Raise (OverflowError "cannot convert float infinity to integer")
  | S754_nan => Raise (ValueError "cannot convert float NaN to integer")
  end.

End PyFloat.


(** ** Floating point: the real number a float denotes *)

Module Real64.

Local Open Scope R_scope.

(** [2^e] for an integer exponent. *)
Definition bpow (e : Z) : R := powerRZ 2 e.

(** The value of a finite binary64 number; infinities and NaN have none
    and are given 0. *)
Definition SF2R (f : spec_float) : R :=
  match f with
  | S754_finite s m e => (if s then -1 else 1) * IZR (Zpos m) * bpow e
  | _ => 0
  end.

Definition SF_finite (f : spec_float) : bool :=
  match f with
  | S754_zero _ | S754_finite _ _ _ => true
  | _ => false
  end.

Definition F2R (x : float) : R := SF2R (Prim2SF x).

(** [math.isfinite(x)] *)
Definition is_finite (x : float) : bool := SF_finite (Prim2SF x).

(** The real [u] lies where the round and sticky bits of the shifted
    mantissa say: on it, below, at or above the middle of the next unit. *)
Definition inbetween (u : R) (mrs : shr_record) : Prop :=
  let m := IZR (shr_m mrs) in
  match shr_r mrs, shr_s mrs with
  | false, false => u = m
  | false, true => m < u < m + / 2
  | true, false => u = m + / 2
  | true, true => m + / 2 < u < m + 1
  end.

(** The bound on the error of one correctly rounded operation whose exact
    result is [v]: half an ulp of a normal number, or half the spacing of
    the subnormal numbers. *)
Definition round_err (v : R) : R := bpow (-53) * v + bpow (-1075).

End Real64.

(** ** The state-and-exception monad *)

Section Monad.
Variable world : Type.

Definition M (A : Type) : Type := world -> result A * world.

Definition ret {A} (a : A) : M A := fun w => (Ok a, w).

Definition raise {A} (e : exn) : M A := fun w => (Raise e, w).

Definition lift {A} (r : result A) : M A := fun w => (r, w).

Definition bind {A B} (m : M A) (k : A -> M B) : M B :=
  fun w =>
    match m w with
    | (Ok a, w') => k a w'
    | (Raise e, w') => (Raise e, w')
    end.

(** [try: body  except Exception as e: handler e] *)
Definition try_except {A} (body : M A) (handler : exn -> M A) : M A :=
  fun w =>
    match body w with
    | (Ok a, w') => (Ok a, w')
    | (Raise e, w') => handler e w'
    end.

(** [try: body  finally: final]: [final] runs on every exit of [body];
    an exception of [final] replaces the outcome of [body]. *)
Definition try_finally {A} (body : M A) (final : M unit) : M A :=
  fun w =>
    match body w with
    | (r, w') =>
        match final w' with
        | (Ok _, w'') => (r, w'')
        | (Raise e, w'') => (Raise e, w'')
        end
    end.

(** [for x in xs: body x] *)
Fixpoint for_each {X} (xs : list X) (body : X -> M unit) : M unit :=
  match xs with
  | [] => ret tt
  | x :: xs' => bind (body x) (fun _ => for_each xs' body)
  end.
End Monad.

Arguments ret {world A} a.
Arguments raise {world A} e.
Arguments lift {world A} r.
Arguments bind {world A B} m k.
Arguments try_except {world A} body handler.
Arguments try_finally {world A} body final.
Arguments for_each {world X} xs body.

Declare Scope monad_scope.
Delimit Scope monad_scope with monad.
Notation "x <- m ;; k" := (bind m (fun x => k))
  (at level 61, m at next level, right associativity) : monad_scope.
Notation "m ;; k" := (bind m (fun _ => k))
  (at level 61, right associativity) : monad_scope.
Notation "x <~ r ;; k" := (rbind r (fun x => k))
  (at level 61, r at next level, right associativity) : monad_scope.
Local Open Scope monad_scope.

(** ** Data: rasters, pages, byte strings *)

(** Pillow image modes covered by the model: ["1"], ["L"], ["LA"], ["RGB"]
    and ["RGBA"].  [LA] and [RGBA] carry an alpha band. *)
Inductive Mode : Type := Mode1 | L | LA | RGB | RGBA.

Definition Mode_eqb (a b : Mode) : bool :=
  match a, b with
  | Mode1, Mode1 | L, L | LA, LA | RGB, RGB | RGBA, RGBA => true
  | _, _ => false
  end.

(** A pixel is the list of its band values, each in [0, 255]. *)
Definition Pixel : Type := list Z.

(** A raster: [pixels] is row-major and holds [width * height] pixels. *)
Record image : Type := mkImage {
  mode : Mode;
  size : Z * Z;
  pixels : list Pixel
}.

(** [fitz.Rect(x0, y0, x1, y1)] *)
Record rect : Type := Rect { x0 : float; y0 : float; x1 : float; y1 : float }.

(** What the compositor appends to a page's content.  The stream given to
    [insert_image] is a PNG, a lossless encoding: it is represented by the
    raster it encodes. *)
Inductive page_op : Type :=
| DrawRect (r : rect) (color fill : Z * Z * Z)
| InsertImage (r : rect) (stream : image).

(** A page: [page.rect.width], [page.rect.height] and its content. *)
Record page : Type := mkPage {
  width : float;
  height : float;
  contents : list page_op
}.

(** A Python [bytes] object.  The parsers of PyMuPDF and Pillow are not
    modelled byte by byte: a byte string that is the serialisation of a PDF
    document, or an encoded raster image, is represented by what it encodes;
    every other byte string is [Raw]. *)
Inductive bytes : Type :=
| Raw (b : list Byte.byte)
| PdfFile (pages : list page)
| ImageFile (img : image).

(** Truth value of [bytes] and [str] objects and of [None]. *)
Definition bytes_truthy (b : option bytes) : bool :=
  match b with
  | None | Some (Raw []) => false
  | Some _ => true
  end.

Definition str_truthy (s : option string) : bool :=
  match s with
  | None | Some EmptyString => false
  | Some _ => true
  end.

(** ** Pillow *)

(** A font: for a text laid out at the origin, its bounding box
    [(left, top, right, bottom)] and its glyph mask, an [L] bitmap that
    gives the coverage, from 0 to 255, of the pixel at each offset;
    anti-aliased glyphs have intermediate coverages at their edges. *)
Record font : Type := mkFont {
  font_bbox : string -> Z * Z * Z * Z;
  font_coverage : string -> Z -> Z -> Z
}.

(** What the host provides: the font files that can be opened ([None]
    for a path FreeType cannot open), Pillow's built-in font and the
    Lanczos resampling kernel. *)
Record platform : Type := mkPlatform {
  truetype_file : string -> Z -> option font;
  default_font : font;
  lanczos : image -> Z * Z -> list Pixel
}.

Module ImageColor.

Definition hex_digit (c : ascii) : option Z :=
  let n := Z.of_nat (nat_of_ascii c) in
  if (48 <=? n) && (n <=? 57) then Some (n - 48)
  else if (97 <=? n) && (n <=? 102) then Some (n - 87)
  else if (65 <=? n) && (n <=? 70) then Some (n - 55)
  else None.

Definition unknown (color : string) : result Pixel :=
  Raise (ValueError ("unknown color specifier: " ++ color)).

(** [ImageColor.getrgb] on hexadecimal colours [#rgb] and [#rrggbb];
    colour names and functional notations are outside the model. *)
Definition getrgb (color : string) : result Pixel :=
  match color with
  | String "#" (String a (String b (String c EmptyString))) =>
      match hex_digit a, hex_digit b, hex_digit c with
      | Some r, Some g, Some b' => Ok [17 * r; 17 * g; 17 * b']
      | _, _, _ => unknown color
      end
  | String "#" (String a (String b (String c (String d (String e
      (String f EmptyString)))))) =>
      match hex_digit a, hex_digit b, hex_digit c,
            hex_digit d, hex_digit e, hex_digit f with
      | Some r1, Some r0, Some g1, Some g0, Some b1, Some b0 =>
          Ok [16 * r1 + r0; 16 * g1 + g0; 16 * b1 + b0]
      | _, _, _, _, _, _ => unknown color
      end
  | _ => unknown color
  end.

End ImageColor.

(** A colour argument: a string to parse or a tuple of band values. *)
Inductive color : Type :=
| ColorStr (s : string)
| ColorTuple (p : Pixel).

Module Image.

(** [Image.new(mode, size, color)] for the [RGB] rasters the program
    creates: the size is checked first, then the colour is resolved. *)
Definition new (m : Mode) (sz : Z * Z) (c : color) : result image :=
  let '(w, h) := sz in
  if (w <? 0) || (h <? 0)
  then Raise (ValueError "Width and height must be >= 0")
  else
    p <~ match c with
         | ColorStr s => ImageColor.getrgb s
         | ColorTuple p => Ok p
         end ;;
    Ok (mkImage m sz (repeat p (Z.to_nat (w * h)))).

(** [Image.open(io.BytesIO(b))]: the bytes are an image file or are not
    identified.  Pillow reads the header only and decodes the pixels on
    first use, so that a file cut short after its header fails later; such
    files are outside the model.  The message of Pillow also names the
    stream object. *)
Definition open (b : bytes) : result image :=
  match b with
  | ImageFile img => Ok img
  | _ => Raise (UnidentifiedImageError "cannot identify image file")
  end.

(** [img.save(buf, format='PNG'); buf.getvalue()]: an image without
    pixels cannot be written. *)
Definition save_png (img : image) : result bytes :=
  if (fst (size img) =? 0) || (snd (size img) =? 0)
  then Raise (ValueError "cannot write empty image as PNG")
  else Ok (ImageFile img).

(** [img.resize(size, Image.LANCZOS)]: a request for the image's own
    size is a copy; otherwise both dimensions must be positive. *)
Definition resize (pf : platform) (img : image) (sz : Z * Z)
  : result image :=
  let '(w, h) := sz in
  let '(w0, h0) := size img in
  if (w =? w0) && (h =? h0) then Ok img
  else if (w <=? 0) || (h <=? 0)
  then Raise (ValueError "height and width must be > 0")
  else Ok (mkImage (mode img) sz (lanczos pf img sz)).

(** One pixel of [img.convert('RGB')]: grey levels are replicated and
    an alpha band is dropped. *)
Definition to_rgb (m : Mode) (p : Pixel) : Pixel :=
  match m, p with
  | (Mode1 | L), [l] => [l; l; l]
  | LA, [l; _] => [l; l; l]
  | RGBA, [r; g; b; _] => [r; g; b]
  | _, _ => p
  end.

(** [img.convert('RGB')] *)
Definition convert_RGB (img : image) : image :=
  mkImage RGB (size img) (map (to_rgb (mode img)) (pixels img)).

Definition bands (m : Mode) : nat :=
  match m with
  | Mode1 | L => 1
  | LA => 2
  | RGB => 3
  | RGBA => 4
  end.

(** [img.split()]: one [L] image per band. *)
Definition split (img : image) : list image :=
  map (fun k => mkImage L (size img)
                  (map (fun p => [nth k p 0]) (pixels img)))
      (seq 0 (bands (mode img))).

(** The blend of Pillow's [paste] under an [L] mask (Paste.c, [BLEND8]):
    [DIV255(out * (255 - mask) + in * mask)]. *)
Definition div255 (a : Z) : Z :=
  let tmp := a + 128 in
  Z.shiftr (Z.shiftr tmp 8 + tmp) 8.

Definition blend8 (mask out inp : Z) : Z :=
  div255 (out * (255 - mask) + inp * mask).

Definition blend_pixel (out inp : Pixel) (mask : Pixel) : Pixel :=
  let a := nth 0 mask 0 in
  map (fun oi => blend8 a (fst oi) (snd oi)) (combine out inp).

(** [dest.paste(src, mask=mask)] with no box, for a source and a mask
    that cover the destination. *)
Definition paste (dest src mask : image) : result image :=
  let same (a b : Z * Z) := (fst a =? fst b) && (snd a =? snd b) in
  if same (size src) (size dest) && same (size mask) (size dest)
  then
    Ok (mkImage (mode dest) (size dest)
          (map (fun om => blend_pixel (fst (fst om)) (snd (fst om)) (snd om))
               (combine (combine (pixels dest) (pixels src))
                        (pixels mask))))
  else Raise (ValueError "images do not match").

End Image.

Module ImageFont.

(** [ImageFont.truetype(path, size)]: the size is checked before the
    file is opened; a file that cannot be opened is an [OSError]. *)
Definition truetype (pf : platform) (path : string) (sz : Z)
  : result font :=
  if sz <=? 0
  then Raise (ValueError ("font size must be greater than 0, not "
                          ++ decimal sz))
  else
    match truetype_file pf path sz with
    | Some f => Ok f
    | None => Raise (OSError "cannot open resource")
    end.

(** [ImageFont.load_default()] *)
Definition load_default (pf : platform) : font := default_font pf.

End ImageFont.

Module ImageDraw.

(** [draw.textbbox(xy, text, font=font)] *)
Definition textbbox (xy : Z * Z) (text : string) (f : font)
  : Z * Z * Z * Z :=
  let '(l, t, r, b) := font_bbox f text in
  (fst xy + l, snd xy + t, fst xy + r, snd xy + b).

(** [draw.text(xy, text, fill=fill, font=font)] on the image the draw
    object was made for: the glyph mask of the text, placed at [xy], is
    filled with the ink; every band of every pixel is blended with the
    ink by the coverage of the mask there ([BLEND8], as in [paste]), so
    that a pixel the mask does not cover keeps its value. *)
Definition text (img : image) (xy : Z * Z) (txt : string)
           (fill : string) (f : font) : result image :=
  c <~ ImageColor.getrgb fill ;;
  let w := fst (size img) in
  Ok (mkImage (mode img) (size img)
        (map (fun ip =>
                let i := Z.of_nat (fst ip) in
                let a := font_coverage f txt (i mod w - fst xy)
                                       (i / w - snd xy) in
                map (fun oi => Image.blend8 a (fst oi) (snd oi))
                    (combine (snd ip) c))
             (combine (seq 0 (List.length (pixels img))) (pixels img)))).

End ImageDraw.

(** ** PyMuPDF *)

(** An open or closed document object. *)
Record document : Type := mkDoc {
  doc_pages : list page;
  is_closed : bool
}.

(** The process state the core touches: the document objects created so
    far, indexed by handle, and the lines sent to the logger. *)
Record world : Type := mkWorld {
  docs : list document;
  log : list string
}.

Definition world0 : world := mkWorld [] [].

Fixpoint list_update {A} (l : list A) (i : nat) (a : A) : list A :=
  match l, i with
  | [], _ => []
  | _ :: l', O => a :: l'
  | x :: l', S i' => x :: list_update l' i' a
  end.

Module logger.
(** [logger.error(msg)] *)
Definition error (msg : string) : M world unit :=
  fun w => (Ok tt, mkWorld (docs w) (log w ++ [msg])).
End logger.

Module fitz.

(** A document object: its slot in the table of documents and whether
    the document is a PDF ([doc.is_pdf]), which is fixed when it is
    opened. *)
Record handle : Type := mkHandle {
  slot : nat;
  is_pdf : bool
}.

(** [float(n)] for an integer, correctly rounded. *)
Definition of_int (n : Z) : float :=
  SF2Prim (binary_normalize prec emax n 0 false).

(** The single page MuPDF makes of an image: its size in pixels, taken
    at 72 pixels per inch.  Nothing the program does depends on it. *)
Definition image_page (img : image) : page :=
  mkPage (of_int (fst (size img))) (of_int (snd (size img))) [].

(** The message of the [FileDataError] for bytes MuPDF cannot open (the
    wording is PyMuPDF's and has changed between its versions). *)
Definition open_error (b : list Byte.byte) : string :=
  match b with
  | [] => "Cannot open empty stream."
  | _ => "Failed to open stream"
  end.

(** [fitz.open(stream=b, filetype="pdf")].  The file type is a hint:
    MuPDF recognises the content, so that the bytes of an image open as a
    document of one page that is not a PDF. *)
Definition open (stream : bytes) : M world handle :=
  fun w =>
    match stream with
    | PdfFile pages =>
        (Ok (mkHandle (List.length (docs w)) true),
         mkWorld (docs w ++ [mkDoc pages false]) (log w))
    | ImageFile img =>
        (Ok (mkHandle (List.length (docs w)) false),
         mkWorld (docs w ++ [mkDoc [image_page img] false]) (log w))
    | Raw b => (Raise (FileDataError (open_error b)), w)
    end.

(** Every method of a closed document raises. *)
Definition get (doc : handle) : M world document :=
  fun w =>
    match nth_error (docs w) (slot doc) with
    | Some d =>
        if is_closed d then (Raise (ValueError "document closed"), w)
        else (Ok d, w)
    | None => (Raise (ValueError "document closed"), w)
    end.

Definition put (doc : handle) (d : document) : M world unit :=
  fun w => (Ok tt, mkWorld (list_update (docs w) (slot doc) d) (log w)).

(** The methods that write to a document are for PDFs only. *)
Definition check_pdf (doc : handle) : M world unit :=
  if is_pdf doc then ret tt else raise (ValueError "is no PDF").

(** [len(doc)] *)
Definition len (doc : handle) : M world Z :=
  d <- get doc ;; ret (Z.of_nat (List.length (doc_pages d))).

(** [doc.load_page(n)]: the page object, a reference into the document. *)
Definition load_page (doc : handle) (n : nat) : M world (handle * nat) :=
  d <- get doc ;;
  match nth_error (doc_pages d) n with
  | Some _ => ret (doc, n)
  | None => raise (ValueError "page not in document")
  end.

Definition get_page (pg : handle * nat) : M world page :=
  d <- get (fst pg) ;;
  match nth_error (doc_pages d) (snd pg) with
  | Some p => ret p
  | None => raise (ValueError "page not in document")
  end.

Definition add_op (pg : handle * nat) (op : page_op) : M world unit :=
  d <- get (fst pg) ;;
  p <- get_page pg ;;
  put (fst pg)
      (mkDoc (list_update (doc_pages d) (snd pg)
                (mkPage (width p) (height p) (contents p ++ [op])))
             (is_closed d)).

(** [page.rect]: its [width] and [height]. *)
Definition page_rect (pg : handle * nat) : M world (float * float) :=
  p <- get_page pg ;; ret (width p, height p).

(** [page.draw_rect(r, color=color, fill=fill)] *)
Definition draw_rect (pg : handle * nat) (r : rect) (color fill : Z * Z * Z)
  : M world unit :=
  get (fst pg) ;;
  check_pdf (fst pg) ;;
  add_op pg (DrawRect r color fill).

(** [Rect.is_empty]: [x0 >= x1 or y0 >= y1]. *)
Definition is_empty (r : rect) : bool :=
  ((x1 r <=? x0 r) || (y1 r <=? y0 r))%float.

(** [Rect.is_infinite]: the rectangle is MuPDF's infinite rectangle. *)
Definition is_infinite (r : rect) : bool :=
  ((x0 r =? -2147483648) && (y0 r =? -2147483648)
   && (x1 r =? 2147483520) && (y1 r =? 2147483520))%float.

(** [page.insert_image(r, stream=b)]: the rectangle is checked before
    the stream is read.  The operation is recorded with the rectangle it
    was given; PyMuPDF fits the image into it, keeping its proportions. *)
Definition insert_image (pg : handle * nat) (r : rect) (stream : bytes)
  : M world unit :=
  get (fst pg) ;;
  check_pdf (fst pg) ;;
  if is_empty r || is_infinite r
  then raise (ValueError "rect must be finite and not empty")
  else
    match stream with
    | ImageFile img => add_op pg (InsertImage r img)
    | _ => raise (ValueError "not an image")
    end.

(** [doc.tobytes()]: a document without pages cannot be saved. *)
Definition tobytes (doc : handle) : M world bytes :=
  d <- get doc ;;
  check_pdf doc ;;
  match doc_pages d with
  | [] => raise (ValueError "cannot save with zero pages")
  | _ => ret (PdfFile (doc_pages d))
  end.

(** [doc.close()] *)
Definition close (doc : handle) : M world unit :=
  d <- get doc ;; put doc (mkDoc (doc_pages d) true).

End fitz.

(** ** The processor *)

Module PDFProcessor.

Local Open Scope float_scope.

(** [self.dpi = 72]; the integer is converted exactly when it meets a
    float operand. *)
Definition dpi : float := 72.

Definition mm_to_points (mm : float) : float := mm * dpi / 25.4.

Definition points_to_mm (points : float) : float := points * 25.4 / dpi.

Local Close Scope float_scope.

Section WithPlatform.
Variable pf : platform.

Definition font_path : string := "/System/Library/Fonts/Arial.ttf".

(** The font of the [try]/[except (OSError, IOError)] block. *)
Definition load_font (font_size : Z) : result font :=
  match ImageFont.truetype pf font_path font_size with
  | Ok f => Ok f
  | Raise e =>
      if is_OSError e then Ok (ImageFont.load_default pf) else Raise e
  end.

Definition create_band_image (width height : Z)
           (background_color : string) (text_content : option string)
           (text_color : string) : result image :=
  img <~ Image.new RGB (width, height) (ColorStr background_color) ;;
  match text_content with
  | Some (String _ _ as txt) =>
      let font_size := Z.min (height / 3) 48 in
      fnt <~ load_font font_size ;;
      let '(b0, b1, b2, b3) := ImageDraw.textbbox (0, 0) txt fnt in
      let text_width := b2 - b0 in
      let text_height := b3 - b1 in
      let x := (width - text_width) / 2 in
      let y := (height - text_height) / 2 in
      ImageDraw.text img (x, y) txt text_color fnt
  | Some EmptyString | None => Ok img
  end.

Definition white : Z * Z * Z := (1, 1, 1).

(** The body of the page loop. *)
Definition replace_band_on_page (doc : fitz.handle) (band_image : image)
           (height_mm y_offset_mm : float) (page_num : nat)
  : M world unit :=
  pg <- fitz.load_page doc page_num ;;
  page_rect <- fitz.page_rect pg ;;
  let page_width := fst page_rect in
  let page_height := snd page_rect in
  let band_height_pt := mm_to_points height_mm in
  let y_offset_pt := mm_to_points y_offset_mm in
  let band_rect :=
    Rect 0 y_offset_pt page_width (y_offset_pt + band_height_pt)%float in
  fitz.draw_rect pg band_rect white white ;;
  w <- lift (PyFloat.int page_width) ;;
  h <- lift (PyFloat.int band_height_pt) ;;
  band_image_resized <- lift (Image.resize pf band_image (w, h)) ;;
  img_bytes <- lift (Image.save_png band_image_resized) ;;
  fitz.insert_image pg band_rect img_bytes.

Definition replace_band_with_image (pdf_bytes : bytes)
           (band_image : image) (height_mm y_offset_mm : float)
  : M world bytes :=
  doc <- fitz.open pdf_bytes ;;
  try_finally
    (try_except
       (n <- fitz.len doc ;;
        for_each (seq 0 (Z.to_nat n))
          (replace_band_on_page doc band_image height_mm y_offset_mm) ;;
        output_bytes <- fitz.tobytes doc ;;
        ret output_bytes)
       (fun e =>
          logger.error ("PDF processing error: " ++ str e) ;;
          raise e))
    (fitz.close doc).

(** Lines 157-166: the uploaded image, decoded and made [RGB]. *)
Definition uploaded_band_image (image_bytes : bytes) : result image :=
  band_image <~ Image.open image_bytes ;;
  if Mode_eqb (mode band_image) RGBA then
    background <~ Image.new RGB (size band_image)
                    (ColorTuple [255; 255; 255]) ;;
    Image.paste background band_image
      (last (Image.split band_image) band_image)
  else if negb (Mode_eqb (mode band_image) RGB) then
    Ok (Image.convert_RGB band_image)
  else Ok band_image.

Definition replace_band_with_uploaded_image (pdf_bytes image_bytes : bytes)
           (height_mm y_offset_mm : float) : M world bytes :=
  band_image <- lift (uploaded_band_image image_bytes) ;;
  replace_band_with_image pdf_bytes band_image height_mm y_offset_mm.

Definition process_pdf (pdf_bytes : bytes) (height_mm y_offset_mm : float)
           (background_color : string) (text_content : option string)
           (text_color : string) (replace_image_bytes : option bytes)
  : M world bytes :=
  let generated :=
    temp_width <- lift (PyFloat.int (mm_to_points 210)) ;;
    temp_height <- lift (PyFloat.int (mm_to_points height_mm)) ;;
    band_image <- lift (create_band_image temp_width temp_height
                          background_color text_content text_color) ;;
    replace_band_with_image pdf_bytes band_image height_mm y_offset_mm in
  match replace_image_bytes with
  | Some image_bytes =>
      if bytes_truthy replace_image_bytes then
        replace_band_with_uploaded_image
          pdf_bytes image_bytes height_mm y_offset_mm
      else generated
  | None => generated
  end.

End WithPlatform.

Definition msg_no_pages : string :=
  "PDFにページが含まれていません".
Definition msg_too_many : string :=
  "PDFのページ数が多すぎます（最大50ページ）".
Definition msg_corrupt : string :=
  "PDFファイルが破損しているか、形式が正しくありません: ".

Definition validate_pdf (pdf_bytes : bytes) : M world (bool * string) :=
  try_except
    (doc <- fitz.open pdf_bytes ;;
     n <- fitz.len doc ;;
     if n =? 0 then ret (false, msg_no_pages)
     else
       n' <- fitz.len doc ;;
       if n' >? 50 then ret (false, msg_too_many)
       else
         fitz.close doc ;;
         ret (true, EmptyString))
    (fun e => ret (false, (msg_corrupt ++ str e)%string)).

End PDFProcessor.

(** ** A host for running the model

    Arial is not installed (the path of the source is a macOS one), the
    built-in font draws each character as a 6 by 11 cell with one fully
    inked pixel and a half-covered one beside it, and resampling picks the
    nearest source pixel. *)
Module Host.

Definition bitmap_font : font :=
  mkFont
    (fun s => (0, 0, 6 * Z.of_nat (String.length s), 11))
    (fun s dx dy =>
       if (dy =? 5) && (0 <=? dx) && (dx <? 6 * Z.of_nat (String.length s))
       then
         if dx mod 6 =? 2 then 255
         else if dx mod 6 =? 3 then 128
         else 0
       else 0).

Definition nearest (img : image) (sz : Z * Z) : list Pixel :=
  let '(w, h) := sz in
  let '(w0, h0) := size img in
  map (fun i =>
         let x := Z.of_nat i mod w in
         let y := Z.of_nat i / w in
         nth (Z.to_nat ((y * h0 / h) * w0 + x * w0 / w)) (pixels img) [])
      (seq 0 (Z.to_nat (w * h))).

Definition no_arial : platform :=
  mkPlatform (fun _ _ => None) bitmap_font nearest.

(** A4 in points, as the tests create it. *)
Definition a4 : page := mkPage 595 842 [].

End Host.

Import PDFProcessor.

(** * The HTTP layer ([backend/app/models.py], [backend/app/main.py]) *)

(** ** The settings model *)

Module models.

(** A validated [BandSettings] object. *)
Record BandSettings : Type := mkBandSettings {
  height : float;
  yOffset : float;
  backgroundColor : option string;
  textContent : option string;
  textColor : option string
}.

(** The keyword arguments the constructor of [BandSettings] is called
    with, each value already of the type of its field.  [None] is an
    absent key; for the optional strings whose default is [None] it is
    also an explicit [null], and for [textColor], whose default is a
    string, [Some None] is the explicit [null]. *)
Record kwargs : Type := mkKwargs {
  kw_height : option float;
  kw_yOffset : option float;
  kw_backgroundColor : option string;
  kw_textContent : option string;
  kw_textColor : option (option string)
}.

Section Constraints.
(** How a bound treats NaN is the library's matter and is left open: a
    test written [not v >= bound] refuses NaN, a test written [v < bound]
    would let it through.  For every other number the two agree. *)
Variable nan_passes : bool.

(** The bounds [ge] and [le] of a [Field]. *)
Definition ge (v bound : float) : bool :=
  if is_nan v then nan_passes else (bound <=? v)%float.

Definition le (v bound : float) : bool :=
  if is_nan v then nan_passes else (v <=? bound)%float.

(** [Field(..., ge=5.0, le=300.0)]: a required field.  A field that
    fails is reported once. *)
Definition height_errors (v : option float) : list string :=
  match v with
  | None => ["height"]
  | Some h => if ge h 5 && le h 300 then [] else ["height"]
  end.

(** [Field(default=0.0, ge=0.0)]: the default is not validated. *)
Definition yOffset_errors (v : option float) : list string :=
  match v with
  | None => []
  | Some y => if ge y 0 then [] else ["yOffset"]
  end.

(** The constructor of [BandSettings]: the object, or the fields the
    [ValidationError] reports (the wording of the report is pydantic's
    and is left out). *)
Definition validate (kw : kwargs) : list string + BandSettings :=
  match height_errors (kw_height kw) ++ yOffset_errors (kw_yOffset kw) with
  | [] =>
      inr (mkBandSettings
             (match kw_height kw with Some h => h | None => 0%float end)
             (match kw_yOffset kw with Some y => y | None => 0%float end)
             (kw_backgroundColor kw)
             (kw_textContent kw)
             (match kw_textColor kw with
              | Some c => c
              | None => Some "#000000"
              end))
  | errors => inl errors
  end.

End Constraints.

End models.

(** ** Exceptions and state of the endpoint *)

(** What the endpoint can raise: an [HTTPException], or any other
    exception, of which only [str(e)] is ever used. *)
Inductive exception : Type :=
| HTTPException (status_code : Z) (detail : string)
| Exception (msg : string).

Inductive outcome (A : Type) : Type :=
| Return (a : A)
| Throw (e : exception).
Arguments Return {A} a.
Arguments Throw {A} e.

(** The endpoint runs over the same process state as the core. *)
Definition Handler (A : Type) : Type := world -> outcome A * world.

Definition eret {A} (a : A) : Handler A := fun w => (Return a, w).

Definition throw {A} (e : exception) : Handler A := fun w => (Throw e, w).

Definition ebind {A B} (m : Handler A) (k : A -> Handler B) : Handler B :=
  fun w =>
    match m w with
    | (Return a, w') => k a w'
    | (Throw e, w') => (Throw e, w')
    end.

Notation "x <-- m ;; k" := (ebind m (fun x => k))
  (at level 61, m at next level, right associativity) : monad_scope.
Notation "m ;;; k" := (ebind m (fun _ => k))
  (at level 61, right associativity) : monad_scope.

(** A call into the core: its exceptions are ordinary exceptions. *)
Definition call_core {A} (m : M world A) : Handler A :=
  fun w =>
    match m w with
    | (Ok a, w') => (Return a, w')
    | (Raise e, w') => (Throw (Exception (str e)), w')
    end.

(** ** The endpoint *)

Module main.

(** [fastapi.UploadFile]: [file] is what [await f.read()] returns. *)
Record UploadFile : Type := mkUploadFile {
  filename : option string;
  size : option Z;
  content_type : option string;
  file : bytes
}.

(** A [StreamingResponse] object. *)
Record StreamingResponse : Type := mkStreamingResponse {
  content : bytes;
  media_type : string;
  headers : list (string * string)
}.

(** A Python [str] is represented by its UTF-8 bytes.  Its characters
    are all below U+0100, so that it can be encoded as latin-1, exactly
    when none of these bytes is 0xC4 or more. *)
Fixpoint latin1 (s : string) : bool :=
  match s with
  | EmptyString => true
  | String c s' => (nat_of_ascii c <? 196)%nat && latin1 s'
  end.

(** [StreamingResponse(io.BytesIO(content), media_type=..., headers=...)]:
    the constructor encodes the headers as latin-1 and raises
    [UnicodeEncodeError] for a header that has another character (the
    position report of its message is left out). *)
Definition StreamingResponse_init (content : bytes) (media_type : string)
           (headers : list (string * string)) : Handler StreamingResponse :=
  if forallb (fun kv => latin1 (fst kv) && latin1 (snd kv)) headers
  then eret (mkStreamingResponse content media_type headers)
  else throw (Exception
                "'latin-1' codec can't encode characters: ordinal not in range(256)").

(** [if c: raise e] *)
Definition raise_if (c : bool) (e : exception) : Handler unit :=
  if c then throw e else eret tt.

(** [f.size and f.size > limit] *)
Definition larger_than (sz : option Z) (limit : Z) : bool :=
  match sz with
  | Some n => negb (n =? 0) && (n >? limit)
  | None => false
  end.

(** [not ct or not ct.startswith('image/')] *)
Definition not_an_image (ct : option string) : bool :=
  match ct with
  | Some (String _ _ as t) => negb (String.prefix "image/" t)
  | Some EmptyString | None => true
  end.

(** [s or default] *)
Definition or_default (s : option string) (default : string) : string :=
  match s with
  | Some (String _ _ as v) => v
  | Some EmptyString | None => default
  end.

(** [s.replace(old, new)] for a non-empty [old]: the occurrences of [old]
    are replaced from left to right, without overlap.  [skip] counts the
    characters of an occurrence still to be dropped. *)
Fixpoint replace_from (old new : string) (skip : nat) (s : string)
  : string :=
  match s with
  | EmptyString => EmptyString
  | String c s' =>
      match skip with
      | S k => replace_from old new k s'
      | O =>
          if String.prefix old s
          then new ++ replace_from old new (String.length old - 1) s'
          else String c (replace_from old new 0 s')
      end
  end.

Definition replace (s old new : string) : string := replace_from old new 0 s.

(** What [json.loads] and the coercion of the fields make of the settings
    string: [json.loads] raises [JSONDecodeError]; or the value is not an
    object and [**] raises [TypeError]; or a value cannot be coerced to
    the type of its field, a [ValidationError]; or the keyword arguments
    are ready for the constraints of the model. *)
Inductive settings_data : Type :=
| Malformed (msg : string)
| NotAMapping (msg : string)
| IllTyped (msg : string)
| Kwargs (kw : models.kwargs).

Definition MB : Z := 1024 * 1024.

Definition msg_pdf_too_large : string :=
  "ファイルサイズが大きすぎます（最大10MB）".
Definition msg_bad_settings : string :=
  "設定データの形式が正しくありません: ".
Definition msg_image_too_large : string :=
  "画像ファイルサイズが大きすぎます（最大5MB）".
Definition msg_not_an_image : string :=
  "サポートされていないファイル形式です（画像ファイルのみ）".
Definition msg_processing : string :=
  "PDF処理中にエラーが発生しました: ".
Definition msg_internal : string :=
  "内部サーバーエラーが発生しました".

Definition lines (l : list string) : string :=
  String.concat (String "010" EmptyString) l.

Section Endpoint.
Variable pf : platform.
(** [json.loads] and pydantic's coercion, provided by the host, and how
    the installed pydantic treats NaN. *)
Variable decode : string -> settings_data.
Variable nan_passes : bool.

(** Lines 84-91: the settings, or [HTTPException(400)] for a
    [JSONDecodeError] or a [ValueError] ([ValidationError] is one); a
    [TypeError] is not caught here. *)
Definition parse_settings (settings : string) : Handler models.BandSettings :=
  match decode settings with
  | Malformed msg => throw (HTTPException 400 (msg_bad_settings ++ msg))
  | IllTyped msg => throw (HTTPException 400 (msg_bad_settings ++ msg))
  | NotAMapping msg => throw (Exception msg)
  | Kwargs kw =>
      match models.validate nan_passes kw with
      | inr band_settings => eret band_settings
      | inl errors =>
          throw (HTTPException 400 (msg_bad_settings ++ lines errors))
      end
  end.

(** Lines 94-109. *)
Definition read_replace_image (replaceImage : option UploadFile)
  : Handler (option bytes) :=
  match replaceImage with
  | Some image =>
      raise_if (larger_than (size image) (5 * MB))
        (HTTPException 413 msg_image_too_large) ;;;
      raise_if (not_an_image (content_type image))
        (HTTPException 400 msg_not_an_image) ;;;
      eret (Some (file image))
  | None => eret None
  end.

(** Lines 112-127: every exception of the core is logged and becomes
    [HTTPException(500)]. *)
Definition run_processor (pdf_bytes : bytes)
           (band_settings : models.BandSettings)
           (replace_image_bytes : option bytes) : Handler bytes :=
  fun w =>
    match PDFProcessor.process_pdf pf pdf_bytes
            (models.height band_settings)
            (models.yOffset band_settings)
            (or_default (models.backgroundColor band_settings) "#ffffff")
            (models.textContent band_settings)
            (or_default (models.textColor band_settings) "#000000")
            replace_image_bytes w with
    | (Ok processed_pdf_bytes, w') => (Return processed_pdf_bytes, w')
    | (Raise e, w') =>
        (call_core (logger.error ("PDF processing failed: " ++ str e)) ;;;
         throw (HTTPException 500 (msg_processing ++ str e))) w'
    end.

(** Line 130. *)
Definition output_filename (pdf : UploadFile) : string :=
  match filename pdf with
  | Some (String _ _ as name) => replace name ".pdf" "_modified.pdf"
  | Some EmptyString | None => "modified.pdf"
  end.

(** The body of the outer [try]. *)
Definition process_pdf_body (pdf : UploadFile) (settings : string)
           (replaceImage : option UploadFile) : Handler StreamingResponse :=
  raise_if (larger_than (size pdf) (10 * MB))
    (HTTPException 413 msg_pdf_too_large) ;;;
  let pdf_bytes := file pdf in
  v <-- call_core (validate_pdf pdf_bytes) ;;
  let '(is_valid, error_msg) := v in
  raise_if (negb is_valid) (HTTPException 400 error_msg) ;;;
  band_settings <-- parse_settings settings ;;
  replace_image_bytes <-- read_replace_image replaceImage ;;
  processed_pdf_bytes <--
    run_processor pdf_bytes band_settings replace_image_bytes ;;
  StreamingResponse_init processed_pdf_bytes "application/pdf"
    [("Content-Disposition",
      ("attachment; filename=" ++ output_filename pdf)%string)].

(** [POST /process]: an [HTTPException] passes through; any other
    exception is logged and replaced by [HTTPException(500)]. *)
Definition process_pdf (pdf : UploadFile) (settings : string)
           (replaceImage : option UploadFile) : Handler StreamingResponse :=
  fun w =>
    match process_pdf_body pdf settings replaceImage w with
    | (Throw (Exception msg), w') =>
        (call_core
           (logger.error ("Unexpected error in process_pdf: " ++ msg)) ;;;
         throw (HTTPException 500 msg_internal)) w'
    | r => r
    end.

End Endpoint.

End main.

(** * Specification-level definitions *)

(** ** The handle table *)

(** The world in which the document at the next slot of [ds] is open
    with pages [ps]. *)
Definition opened (ds : list document) (lg : list string) (ps : list page)
  : world := mkWorld (ds ++ [mkDoc ps false]) lg.

(** The document object [fitz.open] returns in the table [ds]. *)
Definition next_doc (ds : list document) (pdf : bool) : fitz.handle :=
  fitz.mkHandle (List.length ds) pdf.

(** ** Validation *)

(** The verdict of the validator on a document of [n] pages. *)
Definition page_count_verdict (n : Z) : bool * string :=
  if n =? 0 then (false, msg_no_pages)
  else if 50 <? n then (false, msg_too_many)
  else (true, EmptyString).

(** The pages of the document [fitz.open] makes of a byte string, when it
    makes one. *)
Definition pages_of (b : bytes) : option (list page) :=
  match b with
  | PdfFile pages => Some pages
  | ImageFile img => Some [fitz.image_page img]
  | Raw _ => None
  end.

(** ** The compositor *)

Section CompositorModel.
Variable pf : platform.
Variable band_image : image.
Variables height_mm y_offset_mm : float.

(** The rectangle of the band on a page. *)
Definition band_rect (p : page) : rect :=
  Rect 0 (mm_to_points y_offset_mm) (width p)
       (mm_to_points y_offset_mm + mm_to_points height_mm)%float.

(** The page once the band area has been painted white. *)
Definition erased (p : page) : page :=
  mkPage (width p) (height p)
         (contents p ++ [DrawRect (band_rect p) white white]).

(** The band image as it is embedded in page [p]. *)
Definition resized_for (p : page) : result image :=
  w <~ PyFloat.int (width p) ;;
  h <~ PyFloat.int (mm_to_points height_mm) ;;
  Image.resize pf band_image (w, h).

(** The page after one turn of the loop. *)
Definition banded (p : page) (stream : image) : page :=
  mkPage (width p) (height p)
         (contents p ++ [DrawRect (band_rect p) white white;
                         InsertImage (band_rect p) stream]).

(** Whether [insert_image] accepts the band rectangle of page [p]. *)
Definition rect_accepted (p : page) : bool :=
  negb (fitz.is_empty (band_rect p) || fitz.is_infinite (band_rect p)).

(** The image the loop embeds in page [p]: the band image resized, if it
    can be written as PNG and the band rectangle is accepted. *)
Definition embedded_in (p : page) : result image :=
  stream <~ resized_for p ;;
  _ <~ Image.save_png stream ;;
  if rect_accepted p then Ok stream
  else Raise (ValueError "rect must be finite and not empty").

(** The pages after the loop has run over [todo], [done] being the pages
    already processed: the loop stops at the first page in which the band
    image cannot be embedded, which it leaves erased. *)
Fixpoint run_pages (done todo : list page) : result unit * list page :=
  match todo with
  | [] => (Ok tt, done)
  | p :: todo' =>
      match embedded_in p with
      | Ok stream => run_pages (done ++ [banded p stream]) todo'
      | Raise e => (Raise e, done ++ erased p :: todo')
      end
  end.

(** The whole call on a PDF: the pages the loop leaves, the serialised
    document when every page could be processed and the document is not
    empty, one log line otherwise, and the document closed. *)
Definition run_document (pages : list page) : result bytes * list string :=
  match run_pages [] pages with
  | (Ok _, []) =>
      (Raise (ValueError "cannot save with zero pages"),
       ["PDF processing error: cannot save with zero pages"%string])
  | (Ok _, pages') => (Ok (PdfFile pages'), [])
  | (Raise e, _) =>
      (Raise e, [("PDF processing error: " ++ str e)%string])
  end.

End CompositorModel.

(** ** Dispatch *)

(** The generated-band branch of [process_pdf], as the source writes it. *)
Definition generated_band pf (pdf_bytes : bytes) (height_mm y_offset_mm : float)
           (background_color : string) (text_content : option string)
           (text_color : string) : M world bytes :=
  temp_width <- lift (PyFloat.int (mm_to_points 210)) ;;
  temp_height <- lift (PyFloat.int (mm_to_points height_mm)) ;;
  band_image <- lift (create_band_image pf temp_width temp_height
                        background_color text_content text_color) ;;
  replace_band_with_image pf pdf_bytes band_image height_mm y_offset_mm.

(** No step of the generated-band branch raises a decoding error. *)
Definition not_decode_error {A} (r : result A) : Prop :=
  forall msg, r <> Raise (UnidentifiedImageError msg).

(** ** Uploaded images *)

(** A decoded raster is well formed: non-negative dimensions, one pixel per
    position, and in every pixel one value in [0, 255] per band. *)
Definition wf_pixel (m : Mode) (p : Pixel) : Prop :=
  List.length p = Image.bands m /\ Forall (fun v => 0 <= v <= 255) p.

Definition wf_image (img : image) : Prop :=
  0 <= fst (size img) /\ 0 <= snd (size img)
  /\ List.length (pixels img) = Z.to_nat (fst (size img) * snd (size img))
  /\ Forall (wf_pixel (mode img)) (pixels img).

Definition has_alpha (m : Mode) : bool :=
  match m with
  | LA | RGBA => true
  | _ => false
  end.

(** A pixel composited over opaque white, its alpha as blend weight. *)
Definition over_white (m : Mode) (p : Pixel) : Pixel :=
  match m, p with
  | RGBA, [r; g; b; a] =>
      [Image.blend8 a 255 r; Image.blend8 a 255 g; Image.blend8 a 255 b]
  | LA, [l; a] =>
      [Image.blend8 a 255 l; Image.blend8 a 255 l; Image.blend8 a 255 l]
  | _, _ => Image.to_rgb m p
  end.

(** How a translucent pixel and its flattened pixel relate. *)
Definition toward_white (p q : Pixel) : Prop :=
  exists r g b a r' g' b',
    p = [r; g; b; a] /\ q = [r'; g'; b']
    /\ r <= r' <= 255 /\ g <= g' <= 255 /\ b <= b' <= 255
    /\ (a = 255 -> q = [r; g; b])
    /\ (a = 0 -> q = [255; 255; 255]).

(** ** Requests the core serves *)


(** A band height the settings model accepts: a finite number between 5
    and 300. *)
Definition height_ok (h : float) : Prop :=
  Real64.is_finite h = true /\ (5 <= Real64.F2R h <= 300)%R.



(** A vertical offset the settings model accepts: zero, a positive
    number or positive infinity. *)
Definition offset_ok (y : float) : Prop :=
  match Prim2SF y with
  | S754_zero _ => True
  | S754_finite s _ _ | S754_infinity s => s = false
  | S754_nan => False
  end.

(** ** Generated bands *)

(** The glyph masks of a font are 8-bit: every coverage is between 0 and
    255. *)
Definition font_ok (f : font) : Prop :=
  forall txt dx dy, 0 <= font_coverage f txt dx dy <= 255.

(** Every font of the platform has 8-bit glyph masks. *)
Definition fonts_8bit (pf : platform) : Prop :=
  font_ok (default_font pf)
  /\ forall path sz f, truetype_file pf path sz = Some f -> font_ok f.

(** Pixel [p] is a shade between the colours [c] and [cf]: band by band,
    its value lies between theirs. *)
Definition shade (c cf p : Pixel) : Prop :=
  Forall2 (fun v ab => Z.min (fst ab) (snd ab) <= v <= Z.max (fst ab) (snd ab))
          p (combine c cf).

(** ** Requests the endpoint serves *)

(** A PDF the validator accepts: between 1 and 50 pages. *)
Definition pages_ok (pages : list page) : Prop :=
  (1 <= List.length pages <= 50)%nat.

(** The state after the validator has accepted [pages]: one more document,
    closed. *)
Definition validated (ds : list document) (lg : list string)
           (pages : list page) : world :=
  mkWorld (ds ++ [mkDoc pages true]) lg.

(** The response that carries [body] for the upload [pdf]. *)
Definition pdf_response (pdf : main.UploadFile) (body : bytes)
  : main.StreamingResponse :=
  main.mkStreamingResponse body "application/pdf"
    [("Content-Disposition",
      ("attachment; filename=" ++ main.output_filename pdf)%string)].

(** The call of the core the endpoint makes for the settings [bs]. *)
Definition core_call (pf : platform) (pdf_bytes : bytes)
           (bs : models.BandSettings) (upload : option bytes)
  : M world bytes :=
  process_pdf pf pdf_bytes (models.height bs) (models.yOffset bs)
    (main.or_default (models.backgroundColor bs) "#ffffff")
    (models.textContent bs)
    (main.or_default (models.textColor bs) "#000000")
    upload.

(** An upload that passes the checks on the replacement image. *)
Definition image_upload_ok (image : main.UploadFile) : Prop :=
  main.larger_than (main.size image) (5 * main.MB) = false
  /\ main.not_an_image (main.content_type image) = false.


(** [old] occurs in [s]. *)
Definition occurs (old s : string) : Prop :=
  exists pre post, s = (pre ++ old ++ post)%string.

(** The statuses the endpoint raises on purpose. *)
Definition expected (A : Type) (P : A -> Prop) (o : outcome A) : Prop :=
  match o with
  | Return a => P a
  | Throw (HTTPException status_code _) =>
      status_code = 400 \/ status_code = 413 \/ status_code = 500
  | Throw (Exception _) => True
  end.

(** What the endpoint passes to the core as replacement image. *)
Definition upload_of (replaceImage : option main.UploadFile) : option bytes :=
  match replaceImage with
  | Some image => Some (main.file image)
  | None => None
  end.

(** ** A client for running the endpoint *)

Module Client.

Definition quote : string := String (ascii_of_nat 34) EmptyString.

(** The settings [{"height": 60}] and [{"height": 2}], and a JSON array. *)
Definition settings_60 : string :=
  "{" ++ quote ++ "height" ++ quote ++ ": 60}".
Definition settings_2 : string :=
  "{" ++ quote ++ "height" ++ quote ++ ": 2}".
Definition settings_array : string := "[60]".

(** A decoder that knows these three strings and takes every other one
    for malformed JSON. *)
Definition decode (s : string) : main.settings_data :=
  if String.eqb s settings_60 then
    main.Kwargs (models.mkKwargs (Some 60%float) None None None None)
  else if String.eqb s settings_2 then
    main.Kwargs (models.mkKwargs (Some 2%float) None None None None)
  else if String.eqb s settings_array then
    main.NotAMapping "argument after ** must be a mapping, not list"
  else main.Malformed "Expecting value: line 1 column 1 (char 0)".

(** One A4 page, uploaded as [scan.pdf]. *)
Definition scan : main.UploadFile :=
  main.mkUploadFile (Some "scan.pdf") (Some 1024) (Some "application/pdf")
    (PdfFile [Host.a4]).

End Client.


(** * Properties *)

(** ** Lists and the handle table *)

Lemma nth_error_app_last {A} (l : list A) (d : A) :
  nth_error (l ++ [d]) (List.length l) = Some d.
Proof. induction l; simpl; auto. Qed.

Lemma list_update_app_last {A} (l : list A) (d d' : A) :
  list_update (l ++ [d]) (List.length l) d' = l ++ [d'].
Proof. induction l; simpl; [reflexivity | now rewrite IHl]. Qed.

Lemma nth_error_middle {A} (l1 l2 : list A) (a : A) :
  nth_error (l1 ++ a :: l2) (List.length l1) = Some a.
Proof. induction l1; simpl; auto. Qed.

Lemma list_update_middle {A} (l1 l2 : list A) (a b : A) :
  list_update (l1 ++ a :: l2) (List.length l1) b = l1 ++ b :: l2.
Proof. induction l1; simpl; [reflexivity | now rewrite IHl1]. Qed.

Lemma open_pdf ds lg ps :
  fitz.open (PdfFile ps) (mkWorld ds lg)
  = (Ok (next_doc ds true), opened ds lg ps).
Proof. reflexivity. Qed.

Lemma open_image ds lg img :
  fitz.open (ImageFile img) (mkWorld ds lg)
  = (Ok (next_doc ds false), opened ds lg [fitz.image_page img]).
Proof. reflexivity. Qed.

(** What [fitz.open] does, by the pages it finds. *)
Lemma open_pages b ds lg :
  fitz.open b (mkWorld ds lg)
  = match pages_of b with
    | Some ps =>
        (Ok (next_doc ds (match b with PdfFile _ => true | _ => false end)),
         opened ds lg ps)
    | None =>
        (Raise (FileDataError
                  (fitz.open_error (match b with Raw l => l | _ => [] end))),
         mkWorld ds lg)
    end.
Proof. destruct b; reflexivity. Qed.

Lemma get_opened ds lg ps k :
  fitz.get (next_doc ds k) (opened ds lg ps)
  = (Ok (mkDoc ps false), opened ds lg ps).
Proof.
  unfold fitz.get, opened; simpl. now rewrite nth_error_app_last.
Qed.

Lemma put_opened ds lg ps ps' c k :
  fitz.put (next_doc ds k) (mkDoc ps' c) (opened ds lg ps)
  = (Ok tt, mkWorld (ds ++ [mkDoc ps' c]) lg).
Proof.
  unfold fitz.put, opened; simpl. now rewrite list_update_app_last.
Qed.

Lemma len_opened ds lg ps k :
  fitz.len (next_doc ds k) (opened ds lg ps)
  = (Ok (Z.of_nat (List.length ps)), opened ds lg ps).
Proof. unfold fitz.len, bind. now rewrite get_opened. Qed.

Lemma close_opened ds lg ps k :
  fitz.close (next_doc ds k) (opened ds lg ps)
  = (Ok tt, mkWorld (ds ++ [mkDoc ps true]) lg).
Proof. unfold fitz.close, bind. rewrite get_opened. apply put_opened. Qed.

Lemma close_after_log ds lg ps k :
  fitz.close (next_doc ds k) (mkWorld (ds ++ [mkDoc ps false]) lg)
  = (Ok tt, mkWorld (ds ++ [mkDoc ps true]) lg).
Proof. exact (close_opened ds lg ps k). Qed.

Lemma get_page_opened ds lg done p todo k :
  fitz.get_page (next_doc ds k, List.length done)
    (opened ds lg (done ++ p :: todo))
  = (Ok p, opened ds lg (done ++ p :: todo)).
Proof.
  unfold fitz.get_page, bind; cbn [fst snd]. rewrite get_opened; simpl.
  now rewrite nth_error_middle.
Qed.

Lemma load_page_opened ds lg done p todo k :
  fitz.load_page (next_doc ds k) (List.length done)
    (opened ds lg (done ++ p :: todo))
  = (Ok (next_doc ds k, List.length done),
     opened ds lg (done ++ p :: todo)).
Proof.
  unfold fitz.load_page, bind. rewrite get_opened; simpl.
  now rewrite nth_error_middle.
Qed.

Lemma page_rect_opened ds lg done p todo k :
  fitz.page_rect (next_doc ds k, List.length done)
    (opened ds lg (done ++ p :: todo))
  = (Ok (width p, height p), opened ds lg (done ++ p :: todo)).
Proof. unfold fitz.page_rect, bind. now rewrite get_page_opened. Qed.

Lemma add_op_opened ds lg done p todo op k :
  fitz.add_op (next_doc ds k, List.length done) op
    (opened ds lg (done ++ p :: todo))
  = (Ok tt,
     opened ds lg
       (done ++ mkPage (width p) (height p) (contents p ++ [op]) :: todo)).
Proof.
  unfold fitz.add_op, bind; cbn [fst snd].
  rewrite get_opened, get_page_opened.
  cbn [doc_pages is_closed]. rewrite put_opened.
  unfold opened. now rewrite list_update_middle.
Qed.

Lemma draw_rect_opened ds lg done p todo r c f :
  fitz.draw_rect (next_doc ds true, List.length done) r c f
    (opened ds lg (done ++ p :: todo))
  = (Ok tt,
     opened ds lg
       (done ++ mkPage (width p) (height p)
                  (contents p ++ [DrawRect r c f]) :: todo)).
Proof.
  unfold fitz.draw_rect, bind; cbn [fst snd]. rewrite get_opened.
  unfold fitz.check_pdf; cbn [next_doc fitz.is_pdf ret].
  apply (add_op_opened ds lg done p todo (DrawRect r c f) true).
Qed.

(** Writing to a document that is no PDF raises and changes nothing. *)
Lemma draw_rect_no_pdf ds lg ps n r c f :
  fitz.draw_rect (next_doc ds false, n) r c f (opened ds lg ps)
  = (Raise (ValueError "is no PDF"), opened ds lg ps).
Proof.
  unfold fitz.draw_rect, bind; cbn [fst snd]. now rewrite get_opened.
Qed.

Lemma insert_image_opened ds lg done p todo r img :
  fitz.insert_image (next_doc ds true, List.length done) r (ImageFile img)
    (opened ds lg (done ++ p :: todo))
  = if fitz.is_empty r || fitz.is_infinite r
    then (Raise (ValueError "rect must be finite and not empty"),
          opened ds lg (done ++ p :: todo))
    else (Ok tt,
          opened ds lg
            (done ++ mkPage (width p) (height p)
                       (contents p ++ [InsertImage r img]) :: todo)).
Proof.
  unfold fitz.insert_image, bind; cbn [fst snd]. rewrite get_opened.
  unfold fitz.check_pdf; cbn [next_doc fitz.is_pdf ret].
  destruct (fitz.is_empty r || fitz.is_infinite r); [reflexivity |].
  apply (add_op_opened ds lg done p todo (InsertImage r img) true).
Qed.

(** ** Validation (C1) *)

(** The validator on bytes [fitz.open] makes a document of: the verdict
    goes by the number of pages, and the document is closed only when it
    is accepted. *)
Lemma validate_pdf_opened b ps ds lg :
  pages_of b = Some ps ->
  validate_pdf b (mkWorld ds lg)
  = (Ok (page_count_verdict (Z.of_nat (List.length ps))),
     mkWorld
       (ds ++ [mkDoc ps
                 (fst (page_count_verdict (Z.of_nat (List.length ps))))])
       lg).
Proof.
  intros Hp. unfold validate_pdf, try_except, bind at 1.
  rewrite open_pages, Hp. unfold bind at 1. rewrite len_opened.
  unfold page_count_verdict.
  destruct (Z.of_nat (List.length ps) =? 0) eqn:E0; [reflexivity |].
  unfold bind at 1. rewrite len_opened, Z.gtb_ltb.
  destruct (50 <? Z.of_nat (List.length ps)) eqn:E50; [reflexivity |].
  unfold bind. now rewrite close_opened.
Qed.

Lemma validate_pdf_run pages ds lg :
  validate_pdf (PdfFile pages) (mkWorld ds lg)
  = (Ok (page_count_verdict (Z.of_nat (List.length pages))),
     mkWorld
       (ds ++ [mkDoc pages
                 (fst (page_count_verdict (Z.of_nat (List.length pages))))])
       lg).
Proof. now apply validate_pdf_opened. Qed.

(** The validator on bytes [fitz.open] refuses. *)
Lemma validate_pdf_unopened b w :
  pages_of b = None ->
  exists e, fitz.open b w = (Raise e, w)
    /\ validate_pdf b w = (Ok (false, (msg_corrupt ++ str e)%string), w).
Proof.
  intros Hp. destruct w as [ds lg]. destruct b as [l | ps | img];
    try discriminate.
  exists (FileDataError (fitz.open_error l)). split; reflexivity.
Qed.



(** ** The compositor: what one call does to the document *)

Section Compositor.
Variable pf : platform.
Variable band_image : image.
Variables height_mm y_offset_mm : float.

Local Abbreviation resized := (resized_for pf band_image height_mm).
Local Abbreviation embedded :=
  (embedded_in pf band_image height_mm y_offset_mm).
Local Abbreviation band := (banded height_mm y_offset_mm).
Local Abbreviation erase := (erased height_mm y_offset_mm).
Local Abbreviation loop := (run_pages pf band_image height_mm y_offset_mm).
Local Abbreviation call := (run_document pf band_image height_mm y_offset_mm).

Lemma replace_band_on_page_run ds lg done p todo :
  replace_band_on_page pf (next_doc ds true) band_image
    height_mm y_offset_mm
    (List.length done) (opened ds lg (done ++ p :: todo))
  = match embedded p with
    | Ok stream => (Ok tt, opened ds lg (done ++ band p stream :: todo))
    | Raise e => (Raise e, opened ds lg (done ++ erase p :: todo))
    end.
Proof.
  unfold replace_band_on_page, bind.
  rewrite load_page_opened, page_rect_opened; cbn [fst snd].
  rewrite draw_rect_opened.
  unfold embedded_in, resized_for, rbind, lift.
  destruct (PyFloat.int (width p)) as [w | e]; [| reflexivity].
  destruct (PyFloat.int (mm_to_points height_mm)) as [h | e]; [| reflexivity].
  destruct (Image.resize pf band_image (w, h)) as [im | e]; [| reflexivity].
  unfold Image.save_png.
  destruct ((fst (size im) =? 0) || (snd (size im) =? 0)); [reflexivity |].
  rewrite insert_image_opened; cbn [width height contents].
  unfold rect_accepted, band_rect; cbn [width].
  destruct (fitz.is_empty _ || fitz.is_infinite _); cbn [negb];
    [reflexivity |].
  unfold banded, band_rect; cbn [width]. now rewrite <- app_assoc.
Qed.

Lemma page_loop_run ds lg todo : forall done,
  for_each (seq (List.length done) (List.length todo))
    (replace_band_on_page pf (next_doc ds true) band_image
       height_mm y_offset_mm)
    (opened ds lg (done ++ todo))
  = (fst (loop done todo), opened ds lg (snd (loop done todo))).
Proof.
  induction todo as [| p todo IH]; intros done; simpl.
  - now rewrite app_nil_r.
  - unfold bind. rewrite replace_band_on_page_run.
    destruct (embedded p) as [stream | e]; [| reflexivity].
    specialize (IH (done ++ [band p stream])).
    rewrite length_app, Nat.add_1_r, <- app_assoc in IH. exact IH.
Qed.

Lemma replace_band_with_image_pdf pages ds lg :
  replace_band_with_image pf (PdfFile pages) band_image
    height_mm y_offset_mm (mkWorld ds lg)
  = (fst (call pages),
     mkWorld (ds ++ [mkDoc (snd (loop [] pages)) true])
             (lg ++ snd (call pages))).
Proof.
  unfold replace_band_with_image, bind at 1.
  rewrite open_pdf.
  unfold try_finally, try_except, bind, ret.
  rewrite len_opened, Nat2Z.id.
  pose proof (page_loop_run ds lg pages []) as Hloop; simpl in Hloop.
  rewrite Hloop. unfold run_document.
  destruct (loop [] pages) as [[[] | e] pages']; cbn [fst snd].
  - unfold fitz.tobytes, bind. rewrite get_opened; cbn [doc_pages].
    unfold fitz.check_pdf; cbn [next_doc fitz.is_pdf ret].
    destruct pages' as [| p' pages''].
    + unfold logger.error, raise; cbn [fst snd docs log opened].
      now rewrite close_after_log.
    + unfold ret. rewrite close_opened. now rewrite app_nil_r.
  - unfold logger.error, raise; cbn [fst snd docs log opened].
    now rewrite close_after_log.
Qed.

(** On the bytes of an image the call opens a document, fails at
    [draw_rect] on its page, logs the failure and closes the document. *)
Lemma replace_band_with_image_image img ds lg :
  replace_band_with_image pf (ImageFile img) band_image
    height_mm y_offset_mm (mkWorld ds lg)
  = (Raise (ValueError "is no PDF"),
     mkWorld (ds ++ [mkDoc [fitz.image_page img] true])
             (lg ++ ["PDF processing error: is no PDF"])).
Proof.
  pose proof (load_page_opened ds lg [] (fitz.image_page img) [] false)
    as HL.
  pose proof (page_rect_opened ds lg [] (fitz.image_page img) [] false)
    as HR.
  cbn [List.length app] in HL, HR.
  unfold replace_band_with_image, bind at 1.
  rewrite open_image.
  unfold try_finally, try_except, bind at 1.
  rewrite len_opened.
  change (Z.to_nat (Z.of_nat (List.length [fitz.image_page img])))
    with 1%nat.
  cbn [seq for_each]. unfold bind at 1. unfold bind at 1.
  unfold replace_band_on_page, bind at 1. rewrite HL.
  unfold bind at 1. rewrite HR.
  cbn [fst snd]. unfold bind at 1. rewrite draw_rect_no_pdf.
  unfold logger.error, raise, bind; cbn [fst snd docs log opened str].
  now rewrite close_after_log.
Qed.

(** Pages that went through the loop, pairwise with the originals. *)
Lemma run_pages_ok todo : forall done pages',
  loop done todo = (Ok tt, pages') ->
  exists out, pages' = done ++ out
    /\ Forall2 (fun p p' => exists stream,
                  embedded p = Ok stream /\ p' = band p stream)
               todo out.
Proof.
  induction todo as [| p todo IH]; intros done pages' H; simpl in H.
  - injection H as <-. exists []. now rewrite app_nil_r.
  - destruct (embedded p) as [stream | e] eqn:E; [| discriminate].
    destruct (IH _ _ H) as (out & -> & HF).
    exists (band p stream :: out). rewrite <- app_assoc.
    split; [easy |]. constructor; eauto.
Qed.

Lemma embedded_resized p stream :
  embedded p = Ok stream ->
  resized p = Ok stream /\ rect_accepted height_mm y_offset_mm p = true.
Proof.
  unfold embedded_in, rbind.
  destruct (resized p) as [im |]; [| discriminate].
  destruct (Image.save_png im); [| discriminate].
  destruct (rect_accepted height_mm y_offset_mm p); [| discriminate].
  now intros [= ->].
Qed.

End Compositor.

(** ** Band rectangle and band image per page (C3, C4) *)

Lemma resize_size pf img sz out :
  Image.resize pf img sz = Ok out -> size out = sz.
Proof.
  unfold Image.resize. destruct sz as [w h], (size img) as [w0 h0] eqn:Es.
  destruct ((w =? w0) && (h =? h0)) eqn:E.
  - intros [= <-]. apply andb_true_iff in E as [Ew Eh].
    apply Z.eqb_eq in Ew, Eh. now subst.
  - destruct ((w <=? 0) || (h <=? 0)); [discriminate |]. now intros [= <-].
Qed.

(** What a successful call returns: the input was a PDF, and the output is
    the PDF whose pages are the input pages, each with the white rectangle
    and the band image appended. *)
Lemma replace_band_with_image_embedded pf img h y pdf_bytes w out w' :
  replace_band_with_image pf pdf_bytes img h y w = (Ok out, w') ->
  exists pages pages',
    pdf_bytes = PdfFile pages /\ out = PdfFile pages'
    /\ Forall2 (fun p p' => exists stream,
                  embedded_in pf img h y p = Ok stream
                  /\ p' = banded h y p stream)
               pages pages'.
Proof.
  intros H. destruct w as [ds lg].
  destruct pdf_bytes as [b | pages | im]; try discriminate.
  - rewrite replace_band_with_image_pdf in H.
    injection H as Hr _. unfold run_document in Hr.
    destruct (run_pages pf img h y [] pages) as [[[] | e] pages'] eqn:E;
      [| discriminate].
    destruct pages' as [| p' pages'']; [discriminate |].
    injection Hr as <-.
    destruct (run_pages_ok _ _ _ _ _ _ _ E) as (o & -> & HF).
    exists pages, o. auto.
  - rewrite replace_band_with_image_image in H. discriminate.
Qed.

Lemma replace_band_with_image_ok pf img h y pdf_bytes w out w' :
  replace_band_with_image pf pdf_bytes img h y w = (Ok out, w') ->
  exists pages pages',
    pdf_bytes = PdfFile pages /\ out = PdfFile pages'
    /\ Forall2 (fun p p' => exists stream,
                  resized_for pf img h p = Ok stream
                  /\ p' = banded h y p stream)
               pages pages'.
Proof.
  intros H.
  destruct (replace_band_with_image_embedded _ _ _ _ _ _ _ _ H)
    as (pages & pages' & -> & -> & HF).
  exists pages, pages'. split; [reflexivity |]. split; [reflexivity |].
  eapply Forall2_impl; [| exact HF].
  intros p p' (stream & Hs & ->). exists stream.
  split; [| reflexivity]. now apply embedded_resized in Hs.
Qed.

(** C3. When the compositor returns, every page of the output is the page
    of the input with the same width and height and with two operations
    appended, both at the rectangle
    [(0, mm_to_points y, page width, mm_to_points y + mm_to_points h)]:
    the rectangle is built from the page's own width and never from its
    height (no clamping), while the offset, the band height and the band
    image that is resized are the same for all pages. *)
Theorem band_rect_per_page pf img h y pdf_bytes w out w' :
  replace_band_with_image pf pdf_bytes img h y w = (Ok out, w') ->
  exists pages pages',
    pdf_bytes = PdfFile pages /\ out = PdfFile pages'
    /\ Forall2
         (fun p p' =>
            let r := Rect 0 (mm_to_points y) (width p)
                       (mm_to_points y + mm_to_points h)%float in
            exists stream,
              width p' = width p /\ height p' = height p
              /\ contents p' = contents p
                   ++ [DrawRect r white white; InsertImage r stream]
              /\ resized_for pf img h p = Ok stream)
         pages pages'.
Proof.
  intros H.
  destruct (replace_band_with_image_ok _ _ _ _ _ _ _ _ H)
    as (pages & pages' & -> & -> & HF).
  exists pages, pages'. repeat split.
  eapply Forall2_impl; [| exact HF].
  intros p p' (stream & Hs & ->). exists stream. now repeat split.
Qed.

(** Two pages of different widths, both shorter than the band: the band
    rectangle keeps its full height on each. *)
Lemma band_rect_per_page_witness :
  exists pages pages',
    PdfFile [mkPage 4 3 []; mkPage 3 3 []] = PdfFile pages
    /\ PdfFile
         [banded 2 1 (mkPage 4 3 [])
            (mkImage RGB (4, 5) (repeat [0; 0; 255] 20));
          banded 2 1 (mkPage 3 3 [])
            (mkImage RGB (3, 5) (repeat [0; 0; 255] 15))] = PdfFile pages'
    /\ Forall2
         (fun p p' =>
            let r := Rect 0 (mm_to_points 1) (width p)
                       (mm_to_points 1 + mm_to_points 2)%float in
            exists stream,
              width p' = width p /\ height p' = height p
              /\ contents p' = contents p
                   ++ [DrawRect r white white; InsertImage r stream]
              /\ resized_for Host.no_arial
                   (mkImage RGB (1, 1) [[0; 0; 255]]) 2 p = Ok stream)
         pages pages'.
Proof.
  eapply (band_rect_per_page Host.no_arial
            (mkImage RGB (1, 1) [[0; 0; 255]]) 2 1
            (PdfFile [mkPage 4 3 []; mkPage 3 3 []]) world0).
  vm_compute. reflexivity.
Defined.

(** C4, as the code has it. When the compositor returns, the image embedded
    in each page at the band rectangle is the band image resized to exactly
    [(int(page width), int(mm_to_points h))] pixels, both values truncated
    toward zero. *)
Theorem band_image_resized_by_truncation pf img h y pdf_bytes w out w' :
  replace_band_with_image pf pdf_bytes img h y w = (Ok out, w') ->
  exists pages pages',
    pdf_bytes = PdfFile pages /\ out = PdfFile pages'
    /\ Forall2
         (fun p p' =>
            exists stream wi hi,
              contents p' = contents p
                ++ [DrawRect (band_rect h y p) white white;
                    InsertImage (band_rect h y p) stream]
              /\ PyFloat.int (width p) = Ok wi
              /\ PyFloat.int (mm_to_points h) = Ok hi
              /\ Image.resize pf img (wi, hi) = Ok stream
              /\ size stream = (wi, hi))
         pages pages'.
Proof.
  intros H.
  destruct (replace_band_with_image_ok _ _ _ _ _ _ _ _ H)
    as (pages & pages' & -> & -> & HF).
  exists pages, pages'. repeat split.
  eapply Forall2_impl; [| exact HF].
  intros p p' (stream & Hs & ->).
  unfold resized_for, rbind in Hs.
  destruct (PyFloat.int (width p)) as [wi |]; [| discriminate].
  destruct (PyFloat.int (mm_to_points h)) as [hi |]; [| discriminate].
  exists stream, wi, hi. repeat split; auto.
  eapply resize_size; eauto.
Qed.

Lemma band_image_resized_by_truncation_witness :
  exists pages pages',
    PdfFile [mkPage 4 3 []] = PdfFile pages
    /\ PdfFile
         [banded 2 1 (mkPage 4 3 [])
            (mkImage RGB (4, 5) (repeat [0; 0; 255] 20))] = PdfFile pages'
    /\ Forall2
         (fun p p' =>
            exists stream wi hi,
              contents p' = contents p
                ++ [DrawRect (band_rect 2 1 p) white white;
                    InsertImage (band_rect 2 1 p) stream]
              /\ PyFloat.int (width p) = Ok wi
              /\ PyFloat.int (mm_to_points 2) = Ok hi
              /\ Image.resize Host.no_arial
                   (mkImage RGB (1, 1) [[0; 0; 255]]) (wi, hi) = Ok stream
              /\ size stream = (wi, hi))
         pages pages'.
Proof.
  eapply (band_image_resized_by_truncation Host.no_arial
            (mkImage RGB (1, 1) [[0; 0; 255]]) 2 1
            (PdfFile [mkPage 4 3 []]) world0).
  vm_compute. reflexivity.
Defined.

(** C4, as stated, fails: on an A4 page (595 pt wide) with a band of 50 mm,
    [mm_to_points 50] is 141.73..., which rounds to 142, and the embedded
    image is 141 pixels high. *)
Lemma band_image_not_rounded :
  let one_pixel := mkImage RGB (1, 1) [[255; 165; 0]] in
  exists r stream,
    fst (replace_band_with_image Host.no_arial (PdfFile [Host.a4])
           one_pixel 50 0 world0)
    = Ok (PdfFile [mkPage 595 842
                     [DrawRect r white white; InsertImage r stream]])
    /\ size stream = (595, 141)
    /\ PyFloat.round 595 = Ok 595
    /\ PyFloat.round (mm_to_points 50) = Ok 142
    /\ size stream <> (595, 142).
Proof.
  intros one_pixel. unfold world0.
  rewrite replace_band_with_image_pdf.
  unfold run_document; cbn [run_pages].
  assert (Ew : PyFloat.int (width Host.a4) = Ok 595)
    by (vm_compute; reflexivity).
  assert (Eh : PyFloat.int (mm_to_points 50) = Ok 141)
    by (vm_compute; reflexivity).
  assert (Er : resized_for Host.no_arial one_pixel 50 Host.a4
               = Ok (mkImage RGB (595, 141)
                       (Host.nearest one_pixel (595, 141)))).
  { unfold resized_for. rewrite Ew, Eh. reflexivity. }
  assert (Ea : rect_accepted 50 0 Host.a4 = true)
    by (vm_compute; reflexivity).
  assert (Ee : embedded_in Host.no_arial one_pixel 50 0 Host.a4
               = Ok (mkImage RGB (595, 141)
                       (Host.nearest one_pixel (595, 141)))).
  { unfold embedded_in. rewrite Er, Ea. reflexivity. }
  rewrite Ee. cbn [run_pages app fst].
  exists (band_rect 50 0 Host.a4),
         (mkImage RGB (595, 141) (Host.nearest one_pixel (595, 141))).
  split; [reflexivity |].
  split; [reflexivity |].
  split; [vm_compute; reflexivity |].
  split; [vm_compute; reflexivity |].
  cbn [size]. intros [=].
Qed.

(** ** Release of the document handle (C6) *)

(** X1. The compositor closes the document it opened on every exit: after the
    call, in whatever way it ends, the table holds the documents it held
    before and at most one more, which is closed. *)
Lemma replace_band_with_image_closes pf img h y pdf_bytes w :
  let w' := snd (replace_band_with_image pf pdf_bytes img h y w) in
  docs w' = docs w
  \/ exists pages', docs w' = docs w ++ [mkDoc pages' true].
Proof.
  destruct w as [ds lg].
  destruct pdf_bytes as [b | pages | im]; [left; reflexivity | |]; right.
  - rewrite replace_band_with_image_pdf. simpl. eauto.
  - rewrite replace_band_with_image_image. simpl. eauto.
Qed.

(** C6 fails in [validate_pdf]: on a PDF of 51 pages, and on a PDF
    without pages, the validator returns through an early [return] and the
    document it opened is still open in the final state. *)
Theorem validate_pdf_leaves_document_open :
  validate_pdf (PdfFile (repeat Host.a4 51)) world0
  = (Ok (false, msg_too_many), mkWorld [mkDoc (repeat Host.a4 51) false] [])
  /\ validate_pdf (PdfFile []) world0
     = (Ok (false, msg_no_pages), mkWorld [mkDoc [] false] []).
Proof. split; [vm_compute |]; reflexivity. Qed.

(** On the success branch the document is closed. *)
Lemma validate_pdf_closes_valid_document :
  validate_pdf (PdfFile [Host.a4]) world0
  = (Ok (true, EmptyString), mkWorld [mkDoc [Host.a4] true] []).
Proof. reflexivity. Qed.

(** ** The band image generator (C8, C9) *)

Lemma new_rgb_ok w h s c :
  0 <= w -> 0 <= h -> ImageColor.getrgb s = Ok c ->
  Image.new RGB (w, h) (ColorStr s)
  = Ok (mkImage RGB (w, h) (repeat c (Z.to_nat (w * h)))).
Proof.
  intros Hw Hh Hc. unfold Image.new.
  destruct (w <? 0) eqn:Ew; [apply Z.ltb_lt in Ew; lia |].
  destruct (h <? 0) eqn:Eh; [apply Z.ltb_lt in Eh; lia |].
  simpl. now rewrite Hc.
Qed.

Lemma text_keeps_shape img xy txt fill f out :
  ImageDraw.text img xy txt fill f = Ok out ->
  mode out = mode img /\ size out = size img
  /\ List.length (pixels out) = List.length (pixels img).
Proof.
  unfold ImageDraw.text, rbind.
  destruct (ImageColor.getrgb fill); [| discriminate].
  intros [= <-]; simpl. repeat split.
  now rewrite length_map, length_combine, length_seq, Nat.min_id.
Qed.

(** The font the generator ends up with, when it gets one. *)
Lemma load_font_fallback pf sz :
  (forall e, ImageFont.truetype pf font_path sz = Raise e ->
             is_OSError e = true) ->
  exists f, load_font pf sz = Ok f.
Proof.
  intros H. unfold load_font.
  destruct (ImageFont.truetype pf font_path sz) as [f | e] eqn:E; eauto.
  rewrite (H e eq_refl). eauto.
Qed.

(** C8. For non-negative pixel dimensions and a background colour that
    parses to [c]: without text the generator returns the [RGB] raster of
    [w * h] pixels all equal to [c]; whatever the text, an image it returns
    is [RGB] with size exactly [(w, h)] and [w * h] pixels; and it does
    return one whenever the text colour parses and opening the font file
    fails, if it fails, with an [OSError]. *)
Theorem create_band_image_shape pf w h bg txt fg c :
  0 <= w -> 0 <= h -> ImageColor.getrgb bg = Ok c ->
  (str_truthy txt = false ->
     exists img, create_band_image pf w h bg txt fg = Ok img
       /\ mode img = RGB /\ size img = (w, h)
       /\ List.length (pixels img) = Z.to_nat (w * h)
       /\ Forall (fun p => p = c) (pixels img))
  /\ (forall img, create_band_image pf w h bg txt fg = Ok img ->
        mode img = RGB /\ size img = (w, h)
        /\ List.length (pixels img) = Z.to_nat (w * h))
  /\ (forall cf,
        ImageColor.getrgb fg = Ok cf ->
        (forall e, ImageFont.truetype pf font_path (Z.min (h / 3) 48)
                   = Raise e -> is_OSError e = true) ->
        exists img, create_band_image pf w h bg txt fg = Ok img).
Proof.
  intros Hw Hh Hc. unfold create_band_image.
  rewrite (new_rgb_ok _ _ _ _ Hw Hh Hc). cbn [rbind].
  split; [| split].
  - intros Ht. exists (mkImage RGB (w, h) (repeat c (Z.to_nat (w * h)))).
    destruct txt as [[| a s] |]; try discriminate;
      (split; [reflexivity |]); simpl; repeat split;
      try apply repeat_length;
      apply Forall_forall; intros p Hp; now apply repeat_spec in Hp.
  - intros img. destruct txt as [[| a s] |].
    + intros [= <-]; simpl. repeat split. apply repeat_length.
    + unfold rbind. destruct (load_font pf _) as [f |]; [| discriminate].
      destruct (ImageDraw.textbbox (0, 0) (String a s) f) as [[[b0 b1] b2] b3].
      intros H. apply text_keeps_shape in H as (Hm & Hs & Hl).
      simpl in *. rewrite Hl, repeat_length. auto.
    + intros [= <-]; simpl. repeat split. apply repeat_length.
  - intros cf Hcf Hfont. destruct txt as [[| a s] |]; eauto.
    destruct (load_font_fallback pf _ Hfont) as [f Hf]. rewrite Hf.
    cbn [rbind].
    destruct (ImageDraw.textbbox (0, 0) (String a s) f) as [[[b0 b1] b2] b3].
    unfold ImageDraw.text. rewrite Hcf. cbn [rbind]. eauto.
Qed.

Lemma create_band_image_shape_witness :
  0 <= 4 /\ 0 <= 2 /\ ImageColor.getrgb "#ff0000" = Ok [255; 0; 0]
  /\ exists img,
       create_band_image Host.no_arial 4 2 "#ff0000" None "#000000" = Ok img
       /\ mode img = RGB /\ size img = (4, 2)
       /\ List.length (pixels img) = Z.to_nat (4 * 2)
       /\ Forall (fun p => p = [255; 0; 0]) (pixels img).
Proof.
  split; [lia |]. split; [lia |]. split; [reflexivity |].
  apply (create_band_image_shape Host.no_arial 4 2 "#ff0000" None "#000000"
           [255; 0; 0]); [lia | lia | reflexivity | reflexivity].
Defined.

(** From size 1 on, the generator always has a font: the one of the file
    or, when the file cannot be opened, the built-in one. *)
Lemma load_font_ok pf sz :
  0 < sz ->
  load_font pf sz
  = Ok match truetype_file pf font_path sz with
       | Some f => f
       | None => ImageFont.load_default pf
       end.
Proof.
  intros H. unfold load_font, ImageFont.truetype.
  destruct (sz <=? 0) eqn:E; [apply Z.leb_le in E; lia |].
  now destruct (truetype_file pf font_path sz).
Qed.

Lemma font_size_pos h : 3 <= h -> 0 < Z.min (h / 3) 48.
Proof.
  intros H. assert (1 <= h / 3) by (apply Z.div_le_lower_bound; lia). lia.
Qed.

Lemma font_size_zero h : 0 <= h < 3 -> Z.min (h / 3) 48 = 0.
Proof. intros H. rewrite Z.div_small by lia. reflexivity. Qed.

(** C9, as the code has it.  For a non-empty text the generator asks for
    the font at size [min(height // 3, 48)].  Below a height of 3 this
    size is 0: [ImageFont.truetype] refuses it with a [ValueError], which
    [except (OSError, IOError)] does not catch, and the call fails.  From
    a height of 3 on the generator has a font, the one of the file or,
    when opening the file raises an [OSError], the built-in one; it
    measures the text with [textbbox] at the origin and draws it in the
    text colour at
    [((width - text_width) // 2, (height - text_height) // 2)]; with a
    text colour that parses this returns an image. *)
Theorem create_band_image_text pf w h bg a s fg c :
  0 <= w -> 0 <= h -> ImageColor.getrgb bg = Ok c ->
  let txt := String a s in
  let font_size := Z.min (h / 3) 48 in
  (h < 3 ->
   create_band_image pf w h bg (Some txt) fg
   = Raise (ValueError "font size must be greater than 0, not 0"))
  /\ (3 <= h ->
      exists fnt,
        match ImageFont.truetype pf font_path font_size with
        | Ok f => fnt = f
        | Raise e => is_OSError e = true /\ fnt = ImageFont.load_default pf
        end
        /\ load_font pf font_size = Ok fnt
        /\ let '(b0, b1, b2, b3) := ImageDraw.textbbox (0, 0) txt fnt in
           let x := (w - (b2 - b0)) / 2 in
           let y := (h - (b3 - b1)) / 2 in
           create_band_image pf w h bg (Some txt) fg
           = ImageDraw.text
               (mkImage RGB (w, h) (repeat c (Z.to_nat (w * h))))
               (x, y) txt fg fnt
           /\ (forall cf, ImageColor.getrgb fg = Ok cf ->
                 exists img,
                   create_band_image pf w h bg (Some txt) fg = Ok img)).
Proof.
  intros Hw Hh Hc txt font_size. split.
  - intros H3. unfold create_band_image.
    rewrite (new_rgb_ok _ _ _ _ Hw Hh Hc). subst txt. cbn [rbind].
    unfold load_font, ImageFont.truetype.
    rewrite (font_size_zero h) by lia. reflexivity.
  - intros H3. pose proof (font_size_pos h H3) as Hp. fold font_size in Hp.
    pose proof (load_font_ok pf font_size Hp) as Hf.
    set (fnt := match truetype_file pf font_path font_size with
                | Some f => f
                | None => ImageFont.load_default pf
                end) in *.
    exists fnt. split; [| split; [exact Hf |]].
    { unfold ImageFont.truetype.
      destruct (font_size <=? 0) eqn:E; [apply Z.leb_le in E; lia |].
      subst fnt. destruct (truetype_file pf font_path font_size); auto. }
    destruct (ImageDraw.textbbox (0, 0) txt fnt) as [[[b0 b1] b2] b3] eqn:Eb.
    assert (E : create_band_image pf w h bg (Some txt) fg
                = ImageDraw.text
                    (mkImage RGB (w, h) (repeat c (Z.to_nat (w * h))))
                    ((w - (b2 - b0)) / 2, (h - (b3 - b1)) / 2) txt fg fnt).
    { unfold create_band_image. rewrite (new_rgb_ok _ _ _ _ Hw Hh Hc).
      subst txt. cbn [rbind]. fold font_size. rewrite Hf. cbn [rbind].
      now rewrite Eb. }
    split; [exact E |].
    intros cf Hcf. rewrite E. unfold ImageDraw.text. rewrite Hcf.
    cbn [rbind]. eauto.
Qed.

(** Arial cannot be opened on the host: at a height of 12 the text is
    drawn with the built-in font. *)
Lemma create_band_image_text_witness :
  exists fnt,
    fnt = Host.bitmap_font
    /\ load_font Host.no_arial (Z.min (12 / 3) 48) = Ok fnt
    /\ let '(b0, b1, b2, b3) := ImageDraw.textbbox (0, 0) "ab" fnt in
       create_band_image Host.no_arial 20 12 "#ff0000" (Some "ab") "#000000"
       = ImageDraw.text
           (mkImage RGB (20, 12) (repeat [255; 0; 0] (Z.to_nat (20 * 12))))
           ((20 - (b2 - b0)) / 2, (12 - (b3 - b1)) / 2) "ab" "#000000" fnt.
Proof.
  destruct (proj2 (create_band_image_text Host.no_arial 20 12 "#ff0000"
                     "a" "b" "#000000" [255; 0; 0]
                     ltac:(lia) ltac:(lia) eq_refl) ltac:(lia))
    as (fnt & Ht & Hf & Hd).
  exists fnt. split; [exact (proj2 Ht) |]. split; [exact Hf |].
  destruct (ImageDraw.textbbox (0, 0) "ab" fnt) as [[[b0 b1] b2] b3].
  exact (proj1 Hd).
Defined.

(** C9, as stated, fails: at a height of 2 the font size is 0 and, with a
    non-empty text and a font file that cannot be opened, the generator
    raises instead of drawing with the built-in font. *)
Lemma create_band_image_no_fallback :
  str_truthy (Some "a") = true
  /\ Z.min (2 / 3) 48 = 0
  /\ create_band_image Host.no_arial 10 2 "#ffffff" (Some "a") "#000000"
     = Raise (ValueError "font size must be greater than 0, not 0").
Proof. split; [| split]; reflexivity. Qed.

(** ** Top-level dispatch (C2, C10) *)

(** C2, as the code has it. A replacement image that is present and not
    the empty byte string is decoded and normalised, the band is composited
    from it, and the colour and text arguments have no effect; when the
    replacement image is absent or empty the band is generated by
    [create_band_image] at width [int(mm_to_points(210))], which is 595,
    and height [int(mm_to_points(height_mm))], and composited. *)
Theorem process_pdf_dispatch pf pdf_bytes h y bg txt fg image_bytes :
  image_bytes <> Raw [] ->
  (process_pdf pf pdf_bytes h y bg txt fg (Some image_bytes)
   = (band_image <- lift (uploaded_band_image image_bytes) ;;
      replace_band_with_image pf pdf_bytes band_image h y)
   /\ forall bg' txt' fg',
        process_pdf pf pdf_bytes h y bg' txt' fg' (Some image_bytes)
        = process_pdf pf pdf_bytes h y bg txt fg (Some image_bytes))
  /\ process_pdf pf pdf_bytes h y bg txt fg None
     = generated_band pf pdf_bytes h y bg txt fg
  /\ process_pdf pf pdf_bytes h y bg txt fg (Some (Raw []))
     = generated_band pf pdf_bytes h y bg txt fg
  /\ PyFloat.int (mm_to_points 210) = Ok 595.
Proof.
  intros Hne.
  assert (Ht : bytes_truthy (Some image_bytes) = true).
  { destruct image_bytes as [[| b l] | |]; try reflexivity. now elim Hne. }
  unfold process_pdf. rewrite Ht.
  repeat split.
Qed.

Lemma process_pdf_dispatch_witness :
  let orange := ImageFile (mkImage RGB (1, 1) [[255; 165; 0]]) in
  let pdf := PdfFile [mkPage 4 3 []] in
  orange <> Raw []
  /\ forall bg' txt' fg',
       process_pdf Host.no_arial pdf 2 0 bg' txt' fg' (Some orange)
       = process_pdf Host.no_arial pdf 2 0 "#0000ff" None "#ffffff"
           (Some orange).
Proof.
  intros orange pdf. split; [discriminate |].
  apply (process_pdf_dispatch Host.no_arial pdf 2 0 "#0000ff" None "#ffffff"
           orange).
  discriminate.
Defined.

(** C2, as stated, fails when the replacement image is present and empty:
    the call returns a document although the empty byte string cannot be
    decoded, and its output changes with the background colour.  The
    generated band is [int(mm_to_points(height_mm))] pixels high: 2 for a
    band of 1 mm, which is 2.83 points. *)
Lemma process_pdf_empty_upload_uses_colors :
  (exists out,
     fst (process_pdf Host.no_arial (PdfFile [mkPage 4 3 []]) 1 0
            "#ff0000" None "#000000" (Some (Raw [])) world0) = Ok out)
  /\ fst (process_pdf Host.no_arial (PdfFile [mkPage 4 3 []]) 1 0
            "#ff0000" None "#000000" (Some (Raw [])) world0)
     <> fst (process_pdf Host.no_arial (PdfFile [mkPage 4 3 []]) 1 0
               "#0000ff" None "#000000" (Some (Raw [])) world0)
  /\ fst (replace_band_with_uploaded_image Host.no_arial
            (PdfFile [mkPage 4 3 []]) (Raw []) 1 0 world0)
     = Raise (UnidentifiedImageError "cannot identify image file")
  /\ PyFloat.int (mm_to_points 1) = Ok 2
  /\ PyFloat.round (mm_to_points 1) = Ok 3.
Proof.
  split; [| split; [| split; [| split]]].
  - eexists. vm_compute. reflexivity.
  - vm_compute. intros [=].
  - reflexivity.
  - vm_compute. reflexivity.
  - vm_compute. reflexivity.
Qed.

Lemma int_not_decode_error x : not_decode_error (PyFloat.int x).
Proof.
  unfold PyFloat.int. destruct (Prim2SF x); intros msg; discriminate.
Qed.

Lemma getrgb_not_decode_error s : not_decode_error (ImageColor.getrgb s).
Proof.
  intros msg. unfold ImageColor.getrgb, ImageColor.unknown.
  repeat match goal with
         | |- context [match ?x with _ => _ end] => destruct x
         end; discriminate.
Qed.

Lemma create_band_image_not_decode_error pf w h bg txt fg :
  not_decode_error (create_band_image pf w h bg txt fg).
Proof.
  intros msg. unfold create_band_image, Image.new.
  destruct ((w <? 0) || (h <? 0)); [discriminate |].
  pose proof (getrgb_not_decode_error bg msg) as Hbg.
  destruct (ImageColor.getrgb bg) as [c | e]; cbn [rbind];
    [| congruence].
  destruct txt as [[| a s] |]; try discriminate.
  unfold load_font.
  destruct (ImageFont.truetype pf font_path _) as [f | e]; cbn [rbind].
  - destruct (ImageDraw.textbbox _ _ f) as [[[b0 b1] b2] b3].
    unfold ImageDraw.text.
    pose proof (getrgb_not_decode_error fg msg) as Hfg.
    destruct (ImageColor.getrgb fg); cbn [rbind]; [discriminate | congruence].
  - destruct e; cbn [is_OSError rbind]; try discriminate;
      destruct (ImageDraw.textbbox _ _ _) as [[[b0 b1] b2] b3];
      unfold ImageDraw.text;
      pose proof (getrgb_not_decode_error fg msg) as Hfg;
      destruct (ImageColor.getrgb fg); cbn [rbind];
      (discriminate || congruence).
Qed.

Lemma resize_not_decode_error pf img sz :
  not_decode_error (Image.resize pf img sz).
Proof.
  intros msg. unfold Image.resize. destruct sz as [w h], (size img) as [w0 h0].
  destruct ((w =? w0) && (h =? h0)); [discriminate |].
  destruct ((w <=? 0) || (h <=? 0)); discriminate.
Qed.

Lemma embedded_in_not_decode_error pf img h y p :
  not_decode_error (embedded_in pf img h y p).
Proof.
  intros msg. unfold embedded_in, resized_for, rbind.
  pose proof (int_not_decode_error (width p) msg).
  pose proof (int_not_decode_error (mm_to_points h) msg).
  destruct (PyFloat.int (width p)) as [wi |]; [| congruence].
  destruct (PyFloat.int (mm_to_points h)) as [hi |]; [| congruence].
  pose proof (resize_not_decode_error pf img (wi, hi) msg).
  destruct (Image.resize pf img (wi, hi)) as [im |]; [| congruence].
  unfold Image.save_png.
  destruct ((fst (size im) =? 0) || (snd (size im) =? 0)); [discriminate |].
  destruct (rect_accepted h y p); discriminate.
Qed.

Lemma run_pages_not_decode_error pf img h y todo : forall done,
  not_decode_error (fst (run_pages pf img h y done todo)).
Proof.
  induction todo as [| p todo IH]; intros done msg; simpl; [discriminate |].
  pose proof (embedded_in_not_decode_error pf img h y p msg) as He.
  destruct (embedded_in pf img h y p) as [stream | e]; [apply IH |].
  simpl. congruence.
Qed.

Lemma replace_band_with_image_not_decode_error pf pdf_bytes img h y w :
  not_decode_error (fst (replace_band_with_image pf pdf_bytes img h y w)).
Proof.
  intros msg. destruct w as [ds lg].
  destruct pdf_bytes as [b | pages | im]; [discriminate | |].
  - rewrite replace_band_with_image_pdf. cbn [fst]. unfold run_document.
    pose proof (run_pages_not_decode_error pf img h y pages [] msg) as H.
    destruct (run_pages pf img h y [] pages) as [[[] | e] pages'];
      cbn [fst] in *.
    + destruct pages'; discriminate.
    + intros [= ->]. now apply H.
  - rewrite replace_band_with_image_image. discriminate.
Qed.

Lemma generated_band_not_decode_error pf pdf_bytes h y bg txt fg w :
  not_decode_error (fst (generated_band pf pdf_bytes h y bg txt fg w)).
Proof.
  intros msg. unfold generated_band, bind, lift.
  destruct (PyFloat.int (mm_to_points 210)) as [tw | e] eqn:E1.
  2: { cbn [fst]. intros [= ->]. exact (int_not_decode_error _ msg E1). }
  destruct (PyFloat.int (mm_to_points h)) as [th | e] eqn:E2.
  2: { cbn [fst]. intros [= ->]. exact (int_not_decode_error _ msg E2). }
  destruct (create_band_image pf tw th bg txt fg) as [img | e] eqn:E3.
  2: { cbn [fst]. intros [= ->].
       exact (create_band_image_not_decode_error _ _ _ _ _ _ msg E3). }
  apply replace_band_with_image_not_decode_error.
Qed.

(** C10. With the empty byte string as replacement image, [process_pdf] is
    the same computation as without a replacement image: the generated-band
    branch runs, and no decoding error is raised in any state, although
    decoding the empty byte string does raise one. *)
Theorem process_pdf_empty_upload pf pdf_bytes h y bg txt fg :
  process_pdf pf pdf_bytes h y bg txt fg (Some (Raw []))
  = process_pdf pf pdf_bytes h y bg txt fg None
  /\ process_pdf pf pdf_bytes h y bg txt fg (Some (Raw []))
     = generated_band pf pdf_bytes h y bg txt fg
  /\ (forall w msg,
        fst (process_pdf pf pdf_bytes h y bg txt fg (Some (Raw [])) w)
        <> Raise (UnidentifiedImageError msg))
  /\ Image.open (Raw [])
     = Raise (UnidentifiedImageError "cannot identify image file").
Proof.
  repeat split. intros w msg.
  apply (generated_band_not_decode_error pf pdf_bytes h y bg txt fg w msg).
Qed.

(** ** Normalisation of an uploaded image (C5) *)

(** [DIV255] is division by 255 rounded to the nearest integer. *)
Lemma div255_spec a :
  0 <= a <= 65025 ->
  255 * Image.div255 a - 127 <= a <= 255 * Image.div255 a + 127.
Proof.
  intros H. unfold Image.div255. cbv zeta.
  rewrite !Z.shiftr_div_pow2 by lia. change (2 ^ 8) with 256.
  pose proof (Z.div_mod (a + 128) 256 ltac:(lia)) as H1.
  pose proof (Z.mod_pos_bound (a + 128) 256 ltac:(lia)) as B1.
  set (q1 := (a + 128) / 256) in *.
  pose proof (Z.div_mod (q1 + (a + 128)) 256 ltac:(lia)) as H2.
  pose proof (Z.mod_pos_bound (q1 + (a + 128)) 256 ltac:(lia)) as B2.
  set (q2 := (q1 + (a + 128)) / 256) in *.
  lia.
Qed.

(** Blending toward white: the result lies between the source value and
    255, is the source value at full opacity and 255 at full
    transparency. *)
Lemma blend8_toward_white a c :
  0 <= a <= 255 -> 0 <= c <= 255 ->
  c <= Image.blend8 a 255 c <= 255
  /\ (a = 255 -> Image.blend8 a 255 c = c)
  /\ (a = 0 -> Image.blend8 a 255 c = 255).
Proof.
  intros Ha Hc. unfold Image.blend8.
  assert (Hx : 255 * c <= 255 * (255 - a) + c * a <= 65025) by nia.
  pose proof (div255_spec (255 * (255 - a) + c * a)) as Hd.
  split; [| split].
  - lia.
  - intros ->. replace (255 * (255 - 255) + c * 255) with (255 * c) in * by lia.
    lia.
  - intros ->. replace (255 * (255 - 0) + c * 0) with 65025 in * by lia. lia.
Qed.

Lemma wf_pixel_rgba p :
  wf_pixel RGBA p ->
  exists r g b a, p = [r; g; b; a]
    /\ 0 <= r <= 255 /\ 0 <= g <= 255 /\ 0 <= b <= 255 /\ 0 <= a <= 255.
Proof.
  intros [Hl Hf].
  destruct p as [| r [| g [| b [| a [| x p]]]]]; try discriminate.
  exists r, g, b, a. split; [reflexivity |].
  inversion Hf as [| ? ? Hr Hf1]; subst.
  inversion Hf1 as [| ? ? Hg Hf2]; subst.
  inversion Hf2 as [| ? ? Hb Hf3]; subst.
  inversion Hf3 as [| ? ? Ha _]; subst. auto.
Qed.

Lemma over_white_rgba p :
  wf_pixel RGBA p ->
  toward_white p (over_white RGBA p) /\ wf_pixel RGB (over_white RGBA p).
Proof.
  intros H.
  destruct (wf_pixel_rgba p H)
    as (r & g & b & a & -> & Hr & Hg & Hb & Ha).
  destruct (blend8_toward_white a r Ha Hr) as (Br & Br1 & Br0).
  destruct (blend8_toward_white a g Ha Hg) as (Bg & Bg1 & Bg0).
  destruct (blend8_toward_white a b Ha Hb) as (Bb & Bb1 & Bb0).
  split.
  - exists r, g, b, a, (Image.blend8 a 255 r), (Image.blend8 a 255 g),
      (Image.blend8 a 255 b). simpl. repeat split; try lia.
    + intros E. now rewrite Br1, Bg1, Bb1.
    + intros E. now rewrite Br0, Bg0, Bb0.
  - split; [reflexivity |]. simpl. repeat constructor; lia.
Qed.

Lemma to_rgb_wf m p :
  wf_pixel m p -> wf_pixel RGB (Image.to_rgb m p).
Proof.
  intros [Hl Hf].
  destruct m; simpl in Hl;
    repeat (destruct p as [| ? p]; try discriminate Hl);
    simpl; (split; [reflexivity |]);
    repeat match goal with
           | H : Forall _ (_ :: _) |- _ => inversion H; clear H; subst
           end;
    repeat constructor; lia.
Qed.

(** The pixels [paste] computes when a raster is pasted on white under its
    own alpha band. *)
Lemma paste_on_white px : forall n,
  List.length px = n ->
  Forall (wf_pixel RGBA) px ->
  map (fun om => Image.blend_pixel (fst (fst om)) (snd (fst om)) (snd om))
      (combine (combine (repeat [255; 255; 255] n) px)
               (map (fun p => [nth 3 p 0]) px))
  = map (over_white RGBA) px.
Proof.
  induction px as [| p px IH]; intros n Hn Hf; subst n; [reflexivity |].
  inversion Hf as [| ? ? Hp Hf']; subst. simpl.
  rewrite (IH _ eq_refl Hf'). f_equal.
  destruct (wf_pixel_rgba p Hp) as (r & g & b & a & -> & _). reflexivity.
Qed.

(** C5, as the code has it. A decoded image always normalises to an [RGB]
    raster of the same size with three values in [0, 255] per pixel.  When
    the decoded mode is [RGBA] each pixel is composited over opaque white
    with its alpha as weight: every channel moves from its value toward
    255, stays at full opacity and becomes 255 at full transparency.  In
    every other mode, [LA] included, the pixels are those of
    [convert('RGB')], which drops an alpha band without compositing. *)
Theorem uploaded_band_image_flattening img :
  wf_image img ->
  exists out,
    uploaded_band_image (ImageFile img) = Ok out
    /\ mode out = RGB /\ size out = size img /\ wf_image out
    /\ (mode img = RGBA ->
          pixels out = map (over_white RGBA) (pixels img)
          /\ Forall2 toward_white (pixels img) (pixels out))
    /\ (mode img <> RGBA ->
          pixels out = map (Image.to_rgb (mode img)) (pixels img)).
Proof.
  intros (Hw & Hh & Hl & Hf).
  destruct img as [m [w h] px]; simpl in *.
  unfold uploaded_band_image; simpl.
  destruct (Mode_eqb m RGBA) eqn:Em.
  - assert (m = RGBA) by (destruct m; try discriminate; reflexivity). subst m.
    destruct (w <? 0) eqn:Ew; [apply Z.ltb_lt in Ew; lia |].
    destruct (h <? 0) eqn:Eh; [apply Z.ltb_lt in Eh; lia |].
    simpl. unfold Image.paste; simpl. rewrite !Z.eqb_refl; simpl.
    exists (mkImage RGB (w, h) (map (over_white RGBA) px)).
    split; [do 2 f_equal; now apply paste_on_white |]. simpl.
    assert (HT : Forall2 toward_white px (map (over_white RGBA) px)
                 /\ Forall (wf_pixel RGB) (map (over_white RGBA) px)).
    { clear Hl. induction px as [| p px IH]; simpl; [split; constructor |].
      inversion Hf as [| ? ? Hp Hf']; subst.
      destruct (IH Hf') as [I1 I2]. destruct (over_white_rgba p Hp).
      split; constructor; auto. }
    destruct HT as [HT1 HT2].
    split; [reflexivity |]. split; [reflexivity |]. split; [| split].
    + unfold wf_image; simpl. rewrite length_map. auto.
    + intros _. auto.
    + intros E. now elim E.
  - assert (Hm : m <> RGBA) by (intros ->; discriminate).
    assert (HW : Forall (wf_pixel RGB) (map (Image.to_rgb m) px)).
    { clear Hl. induction px as [| p px IH]; simpl; constructor.
      - inversion Hf; subst. now apply to_rgb_wf.
      - inversion Hf; subst. auto. }
    assert (Hid : m = RGB -> map (Image.to_rgb m) px = px).
    { intros ->. clear. induction px as [| p px IH]; simpl; [reflexivity |].
      rewrite IH. f_equal. }
    exists (if Mode_eqb m RGB then mkImage m (w, h) px
            else mkImage RGB (w, h) (map (Image.to_rgb m) px)).
    split; [now destruct (Mode_eqb m RGB) |].
    destruct (Mode_eqb m RGB) eqn:Er; simpl.
    + assert (m = RGB) by (destruct m; try discriminate; reflexivity).
      rewrite Hid in * by assumption. subst m.
      split; [reflexivity |]. split; [reflexivity |]. split; [| split].
      * unfold wf_image; simpl. auto.
      * intros E. discriminate.
      * reflexivity.
    + split; [reflexivity |]. split; [reflexivity |]. split; [| split].
      * unfold wf_image; simpl. rewrite length_map. auto.
      * intros E. now elim Hm.
      * reflexivity.
Qed.

Lemma uploaded_band_image_flattening_witness :
  let img := mkImage RGBA (1, 1) [[255; 0; 0; 128]] in
  wf_image img
  /\ exists out,
       uploaded_band_image (ImageFile img) = Ok out
       /\ mode out = RGB /\ size out = size img /\ wf_image out
       /\ (mode img = RGBA ->
             pixels out = map (over_white RGBA) (pixels img)
             /\ Forall2 toward_white (pixels img) (pixels out))
       /\ (mode img <> RGBA ->
             pixels out = map (Image.to_rgb (mode img)) (pixels img)).
Proof.
  intros img.
  assert (H : wf_image img).
  { unfold wf_image, wf_pixel; simpl. repeat split; try lia.
    repeat constructor; simpl; lia. }
  split; [exact H |]. exact (uploaded_band_image_flattening img H).
Defined.

(** Half-transparent red flattens to (255, 127, 127). *)
Example half_transparent_red :
  uploaded_band_image (ImageFile (mkImage RGBA (1, 1) [[255; 0; 0; 128]]))
  = Ok (mkImage RGB (1, 1) [[255; 127; 127]]).
Proof. reflexivity. Qed.

(** C5, as stated, fails for the alpha-bearing mode [LA]: a fully
    transparent black pixel comes out black, where compositing over white
    gives white. *)
Lemma la_image_not_composited_over_white :
  let img := mkImage LA (1, 1) [[0; 0]] in
  wf_image img
  /\ has_alpha (mode img) = true
  /\ uploaded_band_image (ImageFile img)
     = Ok (mkImage RGB (1, 1) [[0; 0; 0]])
  /\ map (over_white (mode img)) (pixels img) = [[255; 255; 255]].
Proof.
  intros img. repeat split; simpl; try lia.
  repeat constructor; simpl; lia.
Qed.

(** ** Rounding of binary64 multiplication and division *)

Section Rounding.
Import Real64.
Local Open Scope R_scope.

(** Powers of two. *)
Lemma bpow_gt_0 e : 0 < bpow e.
Proof. apply powerRZ_lt. lra. Qed.

Lemma bpow_add a b : bpow (a + b) = bpow a * bpow b.
Proof. apply powerRZ_add. lra. Qed.

Lemma bpow_0 : bpow 0 = 1.
Proof. reflexivity. Qed.

Lemma bpow_1 : bpow 1 = 2.
Proof. unfold bpow. simpl. lra. Qed.

Lemma bpow_m1 : bpow (-1) = / 2.
Proof. unfold bpow. simpl. f_equal. lra. Qed.

Lemma bpow_succ e : bpow (e + 1) = 2 * bpow e.
Proof. rewrite bpow_add, bpow_1. lra. Qed.

Lemma bpow_pred e : bpow (e - 1) = bpow e / 2.
Proof.
  replace (e - 1)%Z with (e + (-1))%Z by lia.
  rewrite bpow_add, bpow_m1. lra.
Qed.

Lemma bpow_le a b : (a <= b)%Z -> bpow a <= bpow b.
Proof.
  intros H. replace b with (a + (b - a))%Z by lia.
  rewrite bpow_add.
  assert (1 <= bpow (b - a)).
  { assert (0 <= b - a)%Z by lia. revert H0. generalize (b - a)%Z.
    intros z Hz. pattern z.
    apply natlike_ind; [rewrite bpow_0; lra | | exact Hz].
    intros x Hx IH. unfold Z.succ. rewrite bpow_succ. lra. }
  pose proof (bpow_gt_0 a). nra.
Qed.

Lemma bpow_lt a b : (a < b)%Z -> bpow a < bpow b.
Proof.
  intros H. assert (bpow (a + 1) <= bpow b) by (apply bpow_le; lia).
  rewrite bpow_succ in H0. pose proof (bpow_gt_0 a). lra.
Qed.

Lemma bpow_IZR n : (0 <= n)%Z -> bpow n = IZR (2 ^ n).
Proof.
  intros H. pattern n. apply natlike_ind; [reflexivity | | exact H].
  intros x Hx IH. unfold Z.succ. rewrite bpow_succ, IH.
  rewrite Z.pow_add_r by lia. rewrite mult_IZR. simpl. lra.
Qed.

(** A mantissa of [d] binary digits lies in [[2^(d-1), 2^d)]. *)
Lemma digits2_pos_bounds p :
  (2 ^ (Zpos (digits2_pos p) - 1) <= Zpos p < 2 ^ Zpos (digits2_pos p))%Z.
Proof.
  induction p as [p IH | p IH |]; simpl digits2_pos.
  - rewrite Pos2Z.inj_succ.
    replace (Z.succ (Zpos (digits2_pos p)) - 1)%Z
      with (Zpos (digits2_pos p) - 1 + 1)%Z by lia.
    unfold Z.succ. rewrite !Z.pow_add_r by lia. change (2 ^ 1)%Z with 2%Z. lia.
  - rewrite Pos2Z.inj_succ.
    replace (Z.succ (Zpos (digits2_pos p)) - 1)%Z
      with (Zpos (digits2_pos p) - 1 + 1)%Z by lia.
    unfold Z.succ. rewrite !Z.pow_add_r by lia. change (2 ^ 1)%Z with 2%Z. lia.
  - simpl. lia.
Qed.

Lemma Zdigits2_bounds m :
  (0 < m)%Z -> (2 ^ (Zdigits2 m - 1) <= m < 2 ^ Zdigits2 m)%Z.
Proof.
  destruct m as [| p | p]; try lia. intros _. apply digits2_pos_bounds.
Qed.

Lemma Zdigits2_nonneg m : (0 <= m)%Z -> (0 <= Zdigits2 m)%Z.
Proof. destruct m; simpl; lia. Qed.

Lemma Zdigits2_le m k :
  (0 <= m)%Z -> (0 <= k)%Z -> (m < 2 ^ k)%Z -> (Zdigits2 m <= k)%Z.
Proof.
  intros Hm Hk H. destruct (Z.eq_dec m 0) as [-> | Hn]; [simpl; lia |].
  destruct (Zdigits2_bounds m ltac:(lia)) as [H1 _].
  destruct (Z_le_gt_dec (Zdigits2 m) k) as [|Hgt]; [assumption |].
  exfalso.
  assert (2 ^ k <= 2 ^ (Zdigits2 m - 1))%Z by (apply Z.pow_le_mono_r; lia).
  lia.
Qed.

(** Shifting the mantissa right by one bit halves the unit; the round and
    sticky bits keep track of where the exact value lies. *)
Lemma IZR_xO p : IZR (Zpos p~0) = 2 * IZR (Zpos p).
Proof. rewrite Pos2Z.inj_xO, mult_IZR. reflexivity. Qed.

Lemma IZR_xI p : IZR (Zpos p~1) = 2 * IZR (Zpos p) + 1.
Proof. rewrite Pos2Z.inj_xI, plus_IZR, mult_IZR. reflexivity. Qed.

Lemma shr_1_inbetween u mrs :
  (0 <= shr_m mrs)%Z -> inbetween u mrs ->
  inbetween (u * bpow (-1)) (shr_1 mrs) /\ (0 <= shr_m (shr_1 mrs))%Z.
Proof.
  rewrite bpow_m1.
  destruct mrs as [m r s]; simpl. intros Hm.
  destruct m as [| p | p]; [| | lia]; unfold inbetween.
  - destruct r, s; simpl; intros H; split; try lia; lra.
  - destruct p as [p | p |]; destruct r, s; simpl; intros H; split; try lia;
      try rewrite IZR_xO in H; try rewrite IZR_xI in H; lra.
Qed.

Lemma iter_pos_shr_inbetween p : forall u mrs,
  (0 <= shr_m mrs)%Z -> inbetween u mrs ->
  inbetween (u * bpow (- Zpos p)) (SpecFloat.iter_pos shr_1 p mrs)
  /\ (0 <= shr_m (SpecFloat.iter_pos shr_1 p mrs))%Z.
Proof.
  induction p as [p IH | p IH |]; intros u mrs Hm Hu; simpl SpecFloat.iter_pos.
  - destruct (shr_1_inbetween u mrs Hm Hu) as [H1 M1].
    destruct (IH _ _ M1 H1) as [H2 M2].
    destruct (IH _ _ M2 H2) as [H3 M3].
    split; [| exact M3].
    replace (u * bpow (- Zpos p~1))
      with (u * bpow (-1) * bpow (- Zpos p) * bpow (- Zpos p));
      [exact H3 |].
    replace (- Zpos p~1)%Z with (-1 + - Zpos p + - Zpos p)%Z by lia.
    rewrite !bpow_add. lra.
  - destruct (IH _ _ Hm Hu) as [H2 M2].
    destruct (IH _ _ M2 H2) as [H3 M3].
    split; [| exact M3].
    replace (u * bpow (- Zpos p~0))
      with (u * bpow (- Zpos p) * bpow (- Zpos p)); [exact H3 |].
    replace (- Zpos p~0)%Z with (- Zpos p + - Zpos p)%Z by lia.
    rewrite !bpow_add. lra.
  - apply shr_1_inbetween; assumption.
Qed.

Lemma shr_inbetween u mrs e n :
  (0 <= shr_m mrs)%Z -> inbetween u mrs ->
  let '(mrs', e') := shr mrs e n in
  e' = Z.max e (e + n)
  /\ inbetween (u * bpow (e - e')) mrs' /\ (0 <= shr_m mrs')%Z.
Proof.
  intros Hm Hu. unfold shr. destruct n as [| p | p].
  - replace (Z.max e (e + 0)) with e by lia.
    replace (e - e)%Z with 0%Z by lia.
    rewrite bpow_0, Rmult_1_r. auto.
  - replace (Z.max e (e + Zpos p)) with (e + Zpos p)%Z by lia.
    replace (e - (e + Zpos p))%Z with (- Zpos p)%Z by lia.
    split; [reflexivity |]. now apply iter_pos_shr_inbetween.
  - replace (Z.max e (e + Zneg p)) with e by lia.
    replace (e - e)%Z with 0%Z by lia.
    rewrite bpow_0, Rmult_1_r. auto.
Qed.

(** Rounding to nearest, ties to even, moves the mantissa by at most half
    a unit, and not at all when no bit was lost. *)
Lemma inbetween_bounds u mrs :
  inbetween u mrs -> IZR (shr_m mrs) <= u < IZR (shr_m mrs) + 1.
Proof.
  unfold inbetween. destruct (shr_r mrs), (shr_s mrs); lra.
Qed.

Lemma round_nearest_even_inbetween u mrs :
  inbetween u mrs ->
  let m1 := round_nearest_even (shr_m mrs) (loc_of_shr_record mrs) in
  Rabs (IZR m1 - u) <= / 2
  /\ (shr_m mrs <= m1 <= shr_m mrs + 1)%Z
  /\ (shr_r mrs = false -> shr_s mrs = false -> IZR m1 = u).
Proof.
  destruct mrs as [m r s]. unfold inbetween; simpl.
  destruct r, s; simpl; intros H.
  - rewrite plus_IZR. split; [| split; [lia | discriminate]].
    apply Rabs_le. lra.
  - destruct (Z.even m); [| rewrite plus_IZR];
      (split; [apply Rabs_le; lra | split; [lia | discriminate]]).
  - split; [apply Rabs_le; lra | split; [lia | discriminate]].
  - split; [apply Rabs_le; lra | split; [lia | auto]].
Qed.

(** The exponent function of binary64: 53 bits of precision above the
    subnormal exponent -1074. *)
Lemma shr_m_of_loc m l : shr_m (shr_record_of_loc m l) = m.
Proof. destruct l as [| []]; reflexivity. Qed.

Lemma shr_nonpos mrs e n : (n <= 0)%Z -> shr mrs e n = (mrs, e).
Proof. destruct n; try reflexivity. lia. Qed.

Lemma fexp_ge_emin e : (-1074 <= fexp prec emax e)%Z.
Proof. unfold fexp, SpecFloat.emin, prec, emax. lia. Qed.

Lemma fexp_eq e : fexp prec emax e = Z.max (e - 53) (-1074).
Proof. reflexivity. Qed.

(** The rounding step shared by the operations. The exact result is
    [u * 2^e] with [u] located by the mantissa [m] and the location [l];
    the rounded result is finite and within half a unit of its exponent
    [ef] of the exact one, and equal to it when the result was exact and
    needed no shift. *)
Lemma binary_round_aux_correct m e l u :
  (0 <= m)%Z -> inbetween u (shr_record_of_loc m l) ->
  let ef := Z.max e (fexp prec emax (Zdigits2 m + e)) in
  (ef <= 970)%Z ->
  let r := binary_round_aux prec emax false m e l in
  SF_finite r = true /\ 0 <= SF2R r
  /\ Rabs (SF2R r - u * bpow e) <= bpow (ef - 1)
  /\ (l = loc_Exact -> (fexp prec emax (Zdigits2 m + e) <= e)%Z ->
      SF2R r = u * bpow e).
Proof.
  intros Hm Hu ef Hef r.
  assert (Eef : ef = Z.max e (Z.max (Zdigits2 m + e - 53) (-1074)))
    by reflexivity.
  assert (Hub : u < bpow (Zdigits2 m)).
  { pose proof (inbetween_bounds _ _ Hu) as B. rewrite shr_m_of_loc in B.
    destruct (Z.eq_dec m 0) as [-> | Hn].
    - change (Zdigits2 0) with 0%Z. rewrite bpow_0. simpl in B. lra.
    - destruct (Zdigits2_bounds m ltac:(lia)) as [_ H2].
      rewrite bpow_IZR by (apply Zdigits2_nonneg; lia).
      assert (m + 1 <= 2 ^ Zdigits2 m)%Z by lia.
      apply IZR_le in H. rewrite plus_IZR in H. lra. }
  subst r. unfold binary_round_aux, shr_fexp.
  pose proof (shr_inbetween u (shr_record_of_loc m l) e
                (fexp prec emax (Zdigits2 m + e) - e)) as Hs.
  rewrite shr_m_of_loc in Hs. specialize (Hs Hm Hu).
  assert (Hme : (fexp prec emax (Zdigits2 m + e) <= e)%Z ->
                fst (shr (shr_record_of_loc m l) e
                       (fexp prec emax (Zdigits2 m + e) - e))
                = shr_record_of_loc m l).
  { intros Hle. now rewrite shr_nonpos by lia. }
  destruct (shr (shr_record_of_loc m l) e (fexp prec emax (Zdigits2 m + e) - e))
    as [mrs' e']. cbn [fst] in Hme.
  destruct Hs as (He' & Hu' & Hm').
  replace (Z.max e (e + (fexp prec emax (Zdigits2 m + e) - e))) with ef in He'
    by (unfold ef; lia).
  subst e'. clearbody ef.
  pose proof (round_nearest_even_inbetween _ _ Hu') as (Hr & Hm1 & Hex).
  set (m1 := round_nearest_even (shr_m mrs') (loc_of_shr_record mrs')) in *.
  pose proof (fexp_ge_emin (Zdigits2 m + e)) as Hemin.
  assert (Hlt : (shr_m mrs' < 2 ^ 53)%Z).
  { apply lt_IZR. rewrite <- bpow_IZR by lia.
    pose proof (inbetween_bounds _ _ Hu') as B.
    assert (u * bpow (e - ef) < bpow 53); [| lra].
    assert (bpow (Zdigits2 m + (e - ef)) <= bpow 53).
    { apply bpow_le. lia. }
    rewrite bpow_add in H. pose proof (bpow_gt_0 (e - ef)).
    assert (u * bpow (e - ef) < bpow (Zdigits2 m) * bpow (e - ef)) by nra.
    lra. }
  assert (Hval : SF_finite
                   (let '(mrs'', e'') := shr (shr_record_of_loc m1 loc_Exact) ef
                        (fexp prec emax (Zdigits2 m1 + ef) - ef) in
                    match shr_m mrs'' with
                    | 0%Z => S754_zero false
                    | Zpos m0 => if (e'' <=? emax - prec)%Z
                                 then S754_finite false m0 e''
                                 else S754_infinity false
                    | Zneg _ => S754_nan
                    end) = true
                 /\ SF2R
                   (let '(mrs'', e'') := shr (shr_record_of_loc m1 loc_Exact) ef
                        (fexp prec emax (Zdigits2 m1 + ef) - ef) in
                    match shr_m mrs'' with
                    | 0%Z => S754_zero false
                    | Zpos m0 => if (e'' <=? emax - prec)%Z
                                 then S754_finite false m0 e''
                                 else S754_infinity false
                    | Zneg _ => S754_nan
                    end) = IZR m1 * bpow ef).
  { destruct (Z.eq_dec m1 (2 ^ 53)) as [E | NE].
    - rewrite E.
      replace (fexp prec emax (Zdigits2 (2 ^ 53) + ef) - ef)%Z with 1%Z
        by (change (Zdigits2 (2 ^ 53)) with 54%Z; rewrite fexp_eq; lia).
      simpl shr. cbn [shr_m].
      replace (ef + 1 <=? emax - prec)%Z with true
        by (symmetry; apply Z.leb_le; unfold emax, prec; lia).
      split; [reflexivity |]. unfold SF2R.
      rewrite bpow_add, bpow_1.
      change (IZR (2 ^ 53)) with 9007199254740992. lra.
    - assert (m1 < 2 ^ 53)%Z by lia.
      assert (Hd : (Zdigits2 m1 <= 53)%Z) by (apply Zdigits2_le; lia).
      rewrite shr_nonpos
        by (rewrite fexp_eq; lia).
      cbn [shr_m shr_record_of_loc].
      destruct m1 as [| p | p]; [| | lia].
      + split; [reflexivity |]. simpl. lra.
      + replace (ef <=? emax - prec)%Z with true
          by (symmetry; apply Z.leb_le; unfold emax, prec; lia).
        split; [reflexivity |]. simpl. lra. }
  destruct Hval as [Hfin Hv].
  split; [exact Hfin |]. rewrite Hv.
  pose proof (bpow_gt_0 ef) as Hpe.
  assert (Hm1' : 0 <= IZR m1) by (apply IZR_le; lia).
  split; [nra |].
  assert (Huv : u * bpow e = u * bpow (e - ef) * bpow ef).
  { rewrite Rmult_assoc, <- bpow_add. f_equal. f_equal. lia. }
  split.
  - rewrite Huv, bpow_pred.
    replace (IZR m1 * bpow ef - u * bpow (e - ef) * bpow ef)
      with ((IZR m1 - u * bpow (e - ef)) * bpow ef) by lra.
    rewrite Rabs_mult, (Rabs_pos_eq (bpow ef)) by lra. nra.
  - intros -> Hle.
    rewrite Huv. f_equal. apply Hex; rewrite Hme by lia; reflexivity.
Qed.

(** One rounding error is at most [round_err] of the exact result. *)
Lemma bpow_opp e : bpow (- e) = / bpow e.
Proof. apply powerRZ_neg'. Qed.

Lemma bpow_lt_inv a b : bpow a < bpow b -> (a < b)%Z.
Proof.
  intros H. destruct (Z_lt_le_dec a b) as [| Hle]; [assumption |].
  apply bpow_le in Hle. lra.
Qed.

Lemma pos_value_lower m :
  bpow (Zpos (digits2_pos m) - 1) <= IZR (Zpos m).
Proof.
  destruct (digits2_pos_bounds m) as [H _].
  rewrite bpow_IZR by lia. now apply IZR_le.
Qed.

Lemma pos_value_upper m :
  IZR (Zpos m) < bpow (Zpos (digits2_pos m)).
Proof.
  destruct (digits2_pos_bounds m) as [_ H].
  rewrite bpow_IZR by lia. now apply IZR_lt.
Qed.

(** Multiplication of two positive finite numbers without overflow. *)
Lemma SFmul_correct mx ex my ey :
  let x := S754_finite false mx ex in
  let y := S754_finite false my ey in
  SF2R x * SF2R y < bpow 970 ->
  let r := SFmul prec emax x y in
  SF_finite r = true /\ 0 <= SF2R r
  /\ Rabs (SF2R r - SF2R x * SF2R y) <= round_err (SF2R x * SF2R y).
Proof.
  intros x y Hb r. subst x y r. cbn [SFmul xorb SF2R] in *.
  set (m := Zpos (mx * my)). set (e := (ex + ey)%Z).
  assert (Hv : 1 * IZR (Zpos mx) * bpow ex * (1 * IZR (Zpos my) * bpow ey)
               = IZR m * bpow e).
  { unfold m, e. rewrite Pos2Z.inj_mul, mult_IZR, bpow_add. lra. }
  rewrite Hv in *.
  assert (Hu : inbetween (IZR m) (shr_record_of_loc m loc_Exact))
    by reflexivity.
  pose proof (pos_value_lower (mx * my)) as Hlo. fold m in Hlo.
  change (Zpos (digits2_pos (mx * my))) with (Zdigits2 m) in Hlo.
  pose proof (bpow_gt_0 e) as Hpe.
  assert (Hlo' : bpow (Zdigits2 m - 1 + e) <= IZR m * bpow e).
  { rewrite bpow_add. nra. }
  assert (Hde : (Zdigits2 m + e <= 970)%Z).
  { assert (bpow (Zdigits2 m - 1 + e) < bpow 970) by lra.
    apply bpow_lt_inv in H. lia. }
  assert (Hd1 : (1 <= Zdigits2 m)%Z) by (unfold m; simpl; lia).
  pose proof (binary_round_aux_correct m e loc_Exact (IZR m)
                ltac:(unfold m; lia) Hu) as H.
  cbv zeta in H. rewrite fexp_eq in H.
  specialize (H ltac:(lia)).
  destruct H as (Hf & H0 & He & Hx).
  split; [exact Hf |]. split; [exact H0 |].
  pose proof (bpow_gt_0 (-53)). pose proof (bpow_gt_0 (-1075)).
  assert (Hvpos : 0 < IZR m * bpow e).
  { assert (0 < IZR m) by (apply IZR_lt; unfold m; lia). nra. }
  unfold round_err.
  destruct (Z_le_gt_dec (Z.max (Zdigits2 m + e - 53) (-1074)) e) as [Hle | Hgt].
  - rewrite (Hx eq_refl Hle). rewrite Rminus_diag, Rabs_R0. nra.
  - eapply Rle_trans; [exact He |].
    replace (Z.max e (Z.max (Zdigits2 m + e - 53) (-1074)))
      with (Z.max (Zdigits2 m + e - 53) (-1074)) by lia.
    destruct (Z_le_gt_dec (Zdigits2 m + e - 53) (-1074)).
    + replace (Z.max (Zdigits2 m + e - 53) (-1074) - 1)%Z with (-1075)%Z by lia.
      nra.
    + replace (Z.max (Zdigits2 m + e - 53) (-1074) - 1)%Z
        with (-53 + (Zdigits2 m - 1 + e))%Z by lia.
      rewrite bpow_add. nra.
Qed.

(** The location the division computes from the remainder [k] of the
    division by [d] is that of the exact quotient. *)
Lemma new_location_inbetween q d k :
  (0 <= k < d)%Z ->
  inbetween (IZR q + IZR k / IZR d) (shr_record_of_loc q (new_location d k)).
Proof.
  intros Hk.
  assert (Hd : 0 < IZR d) by (apply IZR_lt; lia).
  assert (Hk0 : 0 <= IZR k) by (apply IZR_le; lia).
  assert (Hfrac : forall c : R, (c * IZR d = IZR k) -> IZR k / IZR d = c).
  { intros c Hc. rewrite <- Hc. field. lra. }
  assert (Hlt : (2 * k < d)%Z -> IZR k / IZR d < / 2).
  { intros H. apply IZR_lt in H. rewrite mult_IZR in H.
    apply Rmult_lt_reg_r with (IZR d); [lra |].
    unfold Rdiv. rewrite Rmult_assoc, Rinv_l by lra. lra. }
  assert (Hgt : (2 * k > d)%Z -> / 2 < IZR k / IZR d < 1).
  { intros H. assert (H' : (d < 2 * k)%Z) by lia.
    apply IZR_lt in H'. rewrite mult_IZR in H'.
    assert (Hkd : IZR k < IZR d) by (apply IZR_lt; lia).
    split.
    - apply Rmult_lt_reg_r with (IZR d); [lra |].
      unfold Rdiv. rewrite Rmult_assoc, Rinv_l by lra. lra.
    - apply Rmult_lt_reg_r with (IZR d); [lra |].
      unfold Rdiv. rewrite Rmult_assoc, Rinv_l by lra. lra. }
  assert (Heq : (2 * k = d)%Z -> IZR k / IZR d = / 2).
  { intros H. apply (f_equal IZR) in H. rewrite mult_IZR in H.
    apply Hfrac. lra. }
  assert (Hpos : (k <> 0)%Z -> 0 < IZR k / IZR d).
  { intros H. assert (0 < IZR k) by (apply IZR_lt; lia).
    apply Rdiv_lt_0_compat; lra. }
  unfold new_location.
  destruct (Z.even d) eqn:Ev.
  - unfold new_location_even.
    destruct (k =? 0)%Z eqn:E0.
    + apply Z.eqb_eq in E0. subst k. unfold inbetween; simpl.
      unfold Rdiv. lra.
    + apply Z.eqb_neq in E0. specialize (Hpos E0).
      destruct (Z.compare_spec (2 * k) d) as [C | C | C];
        unfold inbetween; simpl.
      * rewrite (Heq C). lra.
      * specialize (Hlt C). lra.
      * specialize (Hgt ltac:(lia)). lra.
  - unfold new_location_odd.
    assert (Hodd : Z.odd d = true) by (rewrite <- Z.negb_even, Ev; reflexivity).
    apply Z.odd_spec in Hodd. destruct Hodd as [j Hj].
    destruct (k =? 0)%Z eqn:E0.
    + apply Z.eqb_eq in E0. subst k. unfold inbetween; simpl.
      unfold Rdiv. lra.
    + apply Z.eqb_neq in E0. specialize (Hpos E0).
      destruct (Z.compare_spec (2 * k + 1) d) as [C | C | C];
        unfold inbetween; simpl.
      * specialize (Hlt ltac:(lia)). lra.
      * specialize (Hlt ltac:(lia)). lra.
      * specialize (Hgt ltac:(lia)). lra.
Qed.

(** Division of two positive finite numbers without overflow. *)
Lemma SFdiv_correct mx ex my ey :
  let x := S754_finite false mx ex in
  let y := S754_finite false my ey in
  SF2R x / SF2R y < bpow 970 ->
  let r := SFdiv prec emax x y in
  SF_finite r = true /\ 0 <= SF2R r
  /\ Rabs (SF2R r - SF2R x / SF2R y) <= round_err (SF2R x / SF2R y).
Proof.
  intros x y Hb r. subst x y r. cbn [SFdiv xorb SF2R] in *.
  unfold SFdiv_core_binary.
  set (d1 := Zdigits2 (Zpos mx)). set (d2 := Zdigits2 (Zpos my)).
  set (E := (d1 + ex - (d2 + ey))%Z).
  set (e' := Z.min (fexp prec emax E) (ex - ey)).
  set (s := (ex - ey - e')%Z).
  assert (Hs : (0 <= s)%Z) by (unfold s, e'; lia).
  set (m' := match s with
             | 0%Z => Zpos mx
             | Zpos _ => Z.shiftl (Zpos mx) s
             | Zneg _ => 0%Z
             end).
  assert (Hm' : m' = (Zpos mx * 2 ^ s)%Z).
  { unfold m'. destruct s as [| p | p]; [lia | | lia].
    now rewrite Z.shiftl_mul_pow2 by lia. }
  pose proof (Z_div_mod m' (Zpos my) ltac:(lia)) as Hdiv.
  destruct (Z.div_eucl m' (Zpos my)) as [q k]. destruct Hdiv as [Hqk Hk].
  assert (Hmy : 0 < IZR (Zpos my)) by (apply IZR_lt; lia).
  assert (Hmx : 0 < IZR (Zpos mx)) by (apply IZR_lt; lia).
  assert (Hq0 : (0 <= q)%Z).
  { assert (0 <= m')%Z by (rewrite Hm'; apply Z.mul_nonneg_nonneg; lia). nia. }
  set (u := IZR q + IZR k / IZR (Zpos my)).
  assert (Hu : inbetween u (shr_record_of_loc q (new_location (Zpos my) k)))
    by (apply new_location_inbetween; lia).
  assert (Hum : u = IZR m' / IZR (Zpos my)).
  { unfold u. rewrite Hqk, plus_IZR, mult_IZR. field. lra. }
  pose proof (bpow_gt_0 ex) as Hpex. pose proof (bpow_gt_0 ey) as Hpey.
  pose proof (bpow_gt_0 e') as Hpe'.
  assert (Hv : 1 * IZR (Zpos mx) * bpow ex / (1 * IZR (Zpos my) * bpow ey)
               = u * bpow e').
  { rewrite Hum, Hm', mult_IZR, <- bpow_IZR by lia.
    replace ex with (s + e' + ey)%Z at 1 by (unfold s; lia).
    rewrite !bpow_add. field. lra. }
  rewrite Hv in *.
  (* magnitude of the quotient *)
  pose proof (pos_value_lower mx) as Hlx.
  pose proof (pos_value_upper my) as Huy.
  fold d1 in Hlx. fold d2 in Huy.
  change (Zpos (digits2_pos mx)) with d1 in Hlx.
  change (Zpos (digits2_pos my)) with d2 in Huy.
  assert (HE : bpow (E - 1) < u * bpow e').
  { rewrite <- Hv.
    replace (E - 1)%Z with ((d1 - 1) + ex + (- d2) + (- ey))%Z
      by (unfold E; lia).
    rewrite !bpow_add.
    assert (Hid2 : bpow (- d2) * bpow d2 = 1)
      by (rewrite <- bpow_add; replace (- d2 + d2)%Z with 0%Z by lia;
          apply bpow_0).
    assert (Hiey : bpow (- ey) * bpow ey = 1)
      by (rewrite <- bpow_add; replace (- ey + ey)%Z with 0%Z by lia;
          apply bpow_0).
    pose proof (bpow_gt_0 (- d2)). pose proof (bpow_gt_0 (- ey)).
    pose proof (bpow_gt_0 d2). pose proof (bpow_gt_0 (d1 - 1)).
    replace (1 * IZR (Zpos mx) * bpow ex / (1 * IZR (Zpos my) * bpow ey))
      with (IZR (Zpos mx) * bpow ex * (/ IZR (Zpos my)) * bpow (- ey))
      by (rewrite bpow_opp; field; split; lra).
    assert (Hinv : bpow (- d2) < / IZR (Zpos my)).
    { apply Rmult_lt_reg_r with (IZR (Zpos my)); [lra |].
      rewrite Rinv_l by lra. nra. }
    assert (bpow (d1 - 1) * bpow ex * bpow (- d2)
            < IZR (Zpos mx) * bpow ex * / IZR (Zpos my)).
    { assert (0 < bpow (d1 - 1) * bpow ex) by nra.
      assert (bpow (d1 - 1) * bpow ex <= IZR (Zpos mx) * bpow ex) by nra.
      assert (0 < / IZR (Zpos my)) by (apply Rinv_0_lt_compat; lra).
      nra. }
    nra. }
  assert (HEb : (E <= 970)%Z).
  { assert (bpow (E - 1) < bpow 970) by lra. apply bpow_lt_inv in H. lia. }
  pose proof (inbetween_bounds _ _ Hu) as Bq. rewrite shr_m_of_loc in Bq.
  assert (Hqd : (0 < q)%Z -> bpow (Zdigits2 q - 1 + e') <= u * bpow e').
  { intros Hq. destruct (Zdigits2_bounds q Hq) as [L _].
    apply IZR_le in L. rewrite <- bpow_IZR in L
      by (destruct q; unfold Zdigits2; lia).
    rewrite bpow_add. nra. }
  assert (Hdq0 : (0 <= Zdigits2 q)%Z) by (apply Zdigits2_nonneg; lia).
  assert (Hdq : (Zdigits2 q + e' <= 970)%Z \/ q = 0%Z).
  { destruct (Z.eq_dec q 0) as [| Hn]; [now right | left].
    specialize (Hqd ltac:(lia)).
    assert (bpow (Zdigits2 q - 1 + e') < bpow 970) by lra.
    apply bpow_lt_inv in H. lia. }
  assert (He'E : (e' <= Z.max (E - 53) (-1074))%Z)
    by (unfold e'; rewrite fexp_eq; lia).
  assert (Hef : (Z.max e' (Z.max (Zdigits2 q + e' - 53) (-1074)) <= 970)%Z).
  { destruct Hdq as [Hd | ->]; [lia | simpl Zdigits2; lia]. }
  pose proof (binary_round_aux_correct q e' (new_location (Zpos my) k) u Hq0 Hu)
    as H. cbv zeta in H. rewrite fexp_eq in H. specialize (H Hef).
  destruct H as (Hf & H0 & He & _).
  split; [exact Hf |]. split; [exact H0 |].
  eapply Rle_trans; [exact He |]. unfold round_err.
  pose proof (bpow_gt_0 (-53)). pose proof (bpow_gt_0 (-1075)).
  assert (Hupos : 0 < u * bpow e') by (pose proof (bpow_gt_0 (E - 1)); lra).
  set (ef := Z.max e' (Z.max (Zdigits2 q + e' - 53) (-1074))) in *.
  destruct (Z_le_gt_dec ef (-1074)) as [C1 | C1].
  { assert (bpow (ef - 1) <= bpow (-1075)) by (apply bpow_le; lia). nra. }
  destruct (Z.eq_dec ef e') as [C2 | C2].
  - assert (bpow (ef - 1) <= bpow (-53 + (E - 1))) by (apply bpow_le; lia).
    rewrite bpow_add in H2. nra.
  - assert (Hq : (0 < q)%Z).
    { destruct (Z.eq_dec q 0) as [-> |]; [| lia].
      simpl Zdigits2 in ef. unfold ef in *. lia. }
    specialize (Hqd Hq).
    assert (bpow (ef - 1) <= bpow (-53 + (Zdigits2 q - 1 + e')))
      by (apply bpow_le; unfold ef in *; lia).
    rewrite bpow_add in H2. nra.
Qed.

(** The same bounds for the primitive operations [*] and [/], through
    their IEEE 754 specification. *)
Lemma Rabs_le_inv a b : Rabs a <= b -> - b <= a <= b.
Proof. unfold Rabs. destruct (Rcase_abs a); lra. Qed.

Lemma err_nonneg v : 0 <= v -> 0 <= round_err v.
Proof.
  intros H. unfold round_err. pose proof (bpow_gt_0 (-53)).
  pose proof (bpow_gt_0 (-1075)). nra.
Qed.

Lemma finite_nonneg_cases x :
  is_finite x = true -> 0 <= F2R x ->
  (exists s, Prim2SF x = S754_zero s)
  \/ (exists m e, Prim2SF x = S754_finite false m e).
Proof.
  unfold is_finite, F2R. destruct (Prim2SF x) as [s | s | | s m e];
    try discriminate; intros _ H; [left; eauto | right].
  destruct s; [| eauto]. exfalso. simpl in H.
  assert (0 < IZR (Zpos m)) by (apply IZR_lt; lia).
  pose proof (bpow_gt_0 e). nra.
Qed.

Lemma mul_error x y :
  is_finite x = true -> is_finite y = true ->
  0 <= F2R x -> 0 <= F2R y -> F2R x * F2R y < bpow 970 ->
  is_finite (x * y) = true /\ 0 <= F2R (x * y)
  /\ Rabs (F2R (x * y) - F2R x * F2R y) <= round_err (F2R x * F2R y).
Proof.
  intros Fx Fy Px Py Hb.
  destruct (finite_nonneg_cases x Fx Px) as [[sx Ex] | (mx & ex & Ex)];
    destruct (finite_nonneg_cases y Fy Py) as [[sy Ey] | (my & ey & Ey)];
    unfold is_finite, F2R in *; rewrite mul_spec; unfold SF64mul;
    rewrite Ex, Ey in *.
  1-3: cbn [SFmul SF_finite SF2R];
    (split; [reflexivity |]); (split; [lra |]);
    rewrite ?Rmult_0_l, ?Rmult_0_r, Rminus_diag, Rabs_R0;
    apply err_nonneg; lra.
  apply SFmul_correct. exact Hb.
Qed.

Lemma div_error x y :
  is_finite x = true -> is_finite y = true ->
  0 <= F2R x -> 0 < F2R y -> F2R x / F2R y < bpow 970 ->
  is_finite (x / y) = true /\ 0 <= F2R (x / y)
  /\ Rabs (F2R (x / y) - F2R x / F2R y) <= round_err (F2R x / F2R y).
Proof.
  intros Fx Fy Px Py Hb.
  destruct (finite_nonneg_cases y Fy ltac:(lra)) as [[sy Ey] | (my & ey & Ey)].
  { exfalso. unfold F2R in Py. rewrite Ey in Py. simpl in Py. lra. }
  destruct (finite_nonneg_cases x Fx Px) as [[sx Ex] | (mx & ex & Ex)];
    unfold is_finite, F2R in *; rewrite div_spec; unfold SF64div;
    rewrite Ex, Ey in *.
  - cbn [SFdiv SF_finite SF2R].
    split; [reflexivity |]. split; [lra |].
    unfold Rdiv. rewrite Rmult_0_l, Rminus_diag, Rabs_R0.
    apply err_nonneg; lra.
  - apply SFdiv_correct. exact Hb.
Qed.

(** The constants of the converters. *)
Lemma bpow_m53 : bpow (-53) = / 9007199254740992.
Proof.
  change (-53)%Z with (- (53))%Z. rewrite bpow_opp, bpow_IZR by lia.
  reflexivity.
Qed.

Lemma bpow_m1075 : 0 < bpow (-1075) <= / 1152921504606846976.
Proof.
  split; [apply bpow_gt_0 |].
  apply Rle_trans with (bpow (-60)); [apply bpow_le; lia |].
  change (-60)%Z with (- (60))%Z. rewrite bpow_opp, bpow_IZR by lia.
  apply Rle_refl.
Qed.

Lemma bpow_970 : 1152921504606846976 <= bpow 970.
Proof.
  apply Rle_trans with (bpow 60); [| apply bpow_le; lia].
  rewrite bpow_IZR by lia. apply Rle_refl.
Qed.

Lemma F2R_dpi : is_finite dpi = true /\ F2R dpi = 72.
Proof.
  unfold is_finite, F2R.
  replace (Prim2SF dpi) with (S754_finite false 5066549580791808 (-46))
    by (vm_compute; reflexivity).
  split; [reflexivity |]. cbn [SF2R].
  change (-46)%Z with (- (46))%Z. rewrite bpow_opp, bpow_IZR by lia.
  change (IZR (2 ^ 46)) with 70368744177664. lra.
Qed.

Lemma F2R_25_4 :
  is_finite 25.4%float = true
  /\ F2R 25.4%float = 7149464408450662 / 281474976710656.
Proof.
  unfold is_finite, F2R.
  replace (Prim2SF 25.4%float) with (S754_finite false 7149464408450662 (-48))
    by (vm_compute; reflexivity).
  split; [reflexivity |]. cbn [SF2R].
  change (-48)%Z with (- (48))%Z. rewrite bpow_opp, bpow_IZR by lia.
  change (IZR (2 ^ 48)) with 281474976710656. lra.
Qed.

(** Four rounded operations take [x] to within [0.01] of itself as long as
    [x] is at most [10^13]. *)
Theorem roundtrip_within_tolerance x :
  is_finite x = true -> 0 <= F2R x <= 10 ^ 13 ->
  is_finite (points_to_mm (mm_to_points x)) = true
  /\ Rabs (F2R (points_to_mm (mm_to_points x)) - F2R x) < / 100.
Proof.
  intros Fx [Hx0 Hx1].
  destruct F2R_dpi as [Fd Vd]. destruct F2R_25_4 as [Fc Vc].
  pose proof bpow_m53 as U. pose proof bpow_m1075 as [N0 N1].
  pose proof bpow_970 as B.
  unfold points_to_mm, mm_to_points.
  set (vx := F2R x) in *.
  (* a = x * dpi *)
  destruct (mul_error x dpi Fx Fd Hx0 ltac:(lra)
              ltac:(rewrite Vd; fold vx; lra)) as (Fa & Pa & Ea).
  set (a := (x * dpi)%float) in *. set (va := F2R a) in *.
  rewrite Vd in Ea. fold vx in Ea. unfold round_err in Ea. rewrite U in Ea.
  apply Rabs_le_inv in Ea.
  (* b = a / 25.4 *)
  assert (Hb : va / F2R 25.4%float < bpow 970) by (rewrite Vc; lra).
  fold va in Hb.
  destruct (div_error a 25.4%float Fa Fc Pa ltac:(rewrite Vc; lra) Hb)
    as (Fb & Pb & Eb).
  set (b := (a / 25.4)%float) in *. set (vb := F2R b) in *.
  rewrite Vc in Eb. fold va in Eb. unfold round_err in Eb. rewrite U in Eb.
  apply Rabs_le_inv in Eb.
  (* d = b * 25.4 *)
  assert (Hd : vb * F2R 25.4%float < bpow 970) by (rewrite Vc; lra).
  destruct (mul_error b 25.4%float Fb Fc Pb ltac:(rewrite Vc; lra) Hd)
    as (Fdd & Pd & Ed).
  set (d := (b * 25.4)%float) in *. set (vd := F2R d) in *.
  rewrite Vc in Ed. fold vb in Ed. unfold round_err in Ed. rewrite U in Ed.
  apply Rabs_le_inv in Ed.
  (* r = d / dpi *)
  assert (Hr : vd / F2R dpi < bpow 970) by (rewrite Vd; lra).
  destruct (div_error d dpi Fdd Fd Pd ltac:(rewrite Vd; lra) Hr)
    as (Fr & Pr & Er).
  set (r := (d / dpi)%float) in *. set (vr := F2R r) in *.
  rewrite Vd in Er. fold vd in Er. unfold round_err in Er. rewrite U in Er.
  apply Rabs_le_inv in Er.
  split; [exact Fr |].
  apply Rabs_def1; lra.
Qed.

(** ** The unit converters (C7) *)

Lemma F2R_finite x m e :
  Prim2SF x = S754_finite false m (- e) -> (0 <= e)%Z ->
  is_finite x = true /\ F2R x = IZR (Zpos m) / IZR (2 ^ e).
Proof.
  intros H He. unfold is_finite, F2R. rewrite H. split; [reflexivity |].
  cbn [SF2R]. rewrite bpow_opp, bpow_IZR by exact He.
  unfold Rdiv. lra.
Qed.

(** C7, as the code has it. The converters are the binary64 evaluations of
    [mm * 72 / 25.4] and [points * 25.4 / 72], each operation rounded;
    [mm_to_points(25.4)] is [72.0] and [points_to_mm(72.0)] is [25.4]; and
    for every finite [x] with [0 <= x <= 10^13] the round trip
    [points_to_mm(mm_to_points(x))] is finite and differs from [x] by less
    than 0.01. *)
Theorem unit_converters x :
  is_finite x = true -> 0 <= F2R x <= 10 ^ 13 ->
  mm_to_points x = (x * 72 / 25.4)%float
  /\ points_to_mm x = (x * 25.4 / 72)%float
  /\ mm_to_points 25.4 = 72%float
  /\ points_to_mm 72 = 25.4%float
  /\ is_finite (points_to_mm (mm_to_points x)) = true
  /\ Rabs (F2R (points_to_mm (mm_to_points x)) - F2R x) < / 100.
Proof.
  intros Fx Hx.
  split; [reflexivity |]. split; [reflexivity |].
  split; [vm_compute; reflexivity |]. split; [vm_compute; reflexivity |].
  now apply roundtrip_within_tolerance.
Qed.

(** A band of 60 mm. *)
Lemma unit_converters_witness :
  is_finite 60 = true /\ 0 <= F2R 60 <= 10 ^ 13
  /\ Rabs (F2R (points_to_mm (mm_to_points 60)) - F2R 60) < / 100.
Proof.
  destruct (F2R_finite 60 8444249301319680 47 eq_refl ltac:(lia)) as [F V].
  assert (H : 0 <= F2R 60 <= 10 ^ 13).
  { rewrite V. change (IZR (2 ^ 47)) with 140737488355328. lra. }
  split; [exact F |]. split; [exact H |].
  apply (unit_converters 60 F H).
Defined.

(** C7, as stated, fails for large lengths: at [x = 10^15] the round trip
    returns [x - 0.125]. *)
Lemma roundtrip_off_at_1e15 :
  is_finite 1e15 = true /\ F2R 1e15 = 10 ^ 15
  /\ is_finite (points_to_mm (mm_to_points 1e15)) = true
  /\ F2R (points_to_mm (mm_to_points 1e15)) - F2R 1e15 = - / 8
  /\ ~ Rabs (F2R (points_to_mm (mm_to_points 1e15)) - F2R 1e15) < / 100
  /\ (abs (points_to_mm (mm_to_points 1e15) - 1e15) <? 0.01)%float = false.
Proof.
  destruct (F2R_finite 1e15 8000000000000000 3 eq_refl ltac:(lia)) as [F V].
  destruct (F2R_finite (points_to_mm (mm_to_points 1e15))
              7999999999999999 3 eq_refl ltac:(lia)) as [F' V'].
  change (IZR (2 ^ 3)) with 8 in V, V'.
  assert (D : F2R (points_to_mm (mm_to_points 1e15)) - F2R 1e15 = - / 8)
    by (rewrite V, V'; lra).
  split; [exact F |]. split; [rewrite V; lra |]. split; [exact F' |].
  split; [exact D |]. split; [| vm_compute; reflexivity].
  rewrite D. intros H. apply Rabs_def2 in H. lra.
Qed.

End Rounding.

(** * Further properties of the core *)

(** ** The validator and the compositor together *)

Lemma validate_pdf_fst_pdf pages w :
  fst (validate_pdf (PdfFile pages) w)
  = Ok (page_count_verdict (Z.of_nat (List.length pages))).
Proof. destruct w as [ds lg]. now rewrite validate_pdf_run. Qed.

(** X2. What the compositor returns passes the validator exactly when
    its input does: the output has as many pages as the input, so the two
    are judged alike, and a processed document can be uploaded again. *)
Theorem processed_pdf_validates pf img h y pdf_bytes w out w' :
  replace_band_with_image pf pdf_bytes img h y w = (Ok out, w') ->
  (forall w1 w2,
     fst (validate_pdf out w2) = fst (validate_pdf pdf_bytes w1))
  /\ (forall w1,
        fst (validate_pdf pdf_bytes w1) = Ok (true, EmptyString) ->
        forall w2, fst (validate_pdf out w2) = Ok (true, EmptyString)).
Proof.
  intros H.
  destruct (replace_band_with_image_ok _ _ _ _ _ _ _ _ H)
    as (pages & pages' & -> & -> & HF).
  assert (E : List.length pages' = List.length pages)
    by (symmetry; eapply Forall2_length; eauto).
  split.
  - intros w1 w2. now rewrite !validate_pdf_fst_pdf, E.
  - intros w1 H1 w2. rewrite validate_pdf_fst_pdf in *. now rewrite E.
Qed.

Lemma processed_pdf_validates_witness :
  fst (validate_pdf
         (PdfFile
            [banded 2 1 (mkPage 4 3 [])
               (mkImage RGB (4, 5) (repeat [0; 0; 255] 20))]) world0)
  = Ok (true, EmptyString).
Proof.
  refine (proj2 (processed_pdf_validates Host.no_arial
            (mkImage RGB (1, 1) [[0; 0; 255]]) 2 1
            (PdfFile [mkPage 4 3 []]) world0 _ _ _) world0 _ world0).
  - vm_compute. reflexivity.
  - reflexivity.
Defined.

(** X3. The compositor logs exactly its failures.  When [fitz.open]
    raises, the exception leaves the state untouched, because the
    document is opened before the [try] block.  Once [fitz.open] has
    returned a document, a successful call leaves the log as it was and a
    failing one appends the one line [PDF processing error: ...] with the
    message of the exception it re-raises. *)
Theorem compositor_logs_failures pf img h y pdf_bytes w :
  let r := replace_band_with_image pf pdf_bytes img h y w in
  match fitz.open pdf_bytes w with
  | (Raise e, _) => r = (Raise e, w)
  | (Ok _, _) =>
      match fst r with
      | Ok _ => log (snd r) = log w
      | Raise e =>
          log (snd r) = log w ++ [("PDF processing error: " ++ str e)%string]
      end
  end.
Proof.
  destruct w as [ds lg].
  destruct pdf_bytes as [b | pages | im]; cbv zeta.
  - reflexivity.
  - rewrite open_pdf, replace_band_with_image_pdf. cbn [fst snd log].
    unfold run_document.
    destruct (run_pages pf img h y [] pages) as [[[] | e] [| p ps]];
      cbn [fst snd]; try reflexivity.
    apply app_nil_r.
  - rewrite open_image, replace_band_with_image_image. reflexivity.
Qed.

(** X4. When [Image.open] raises on a replacement image that is not
    empty, [process_pdf] raises that exception before the PDF is opened:
    the state is untouched, whatever the PDF and the other arguments
    are. *)
Theorem undecodable_upload_fails_first
        pf pdf_bytes image_bytes h y bg txt fg w e :
  image_bytes <> Raw [] -> Image.open image_bytes = Raise e ->
  process_pdf pf pdf_bytes h y bg txt fg (Some image_bytes) w = (Raise e, w)
  /\ replace_band_with_uploaded_image pf pdf_bytes image_bytes h y w
     = (Raise e, w).
Proof.
  intros Hne Ho.
  assert (E : replace_band_with_uploaded_image pf pdf_bytes image_bytes h y w
              = (Raise e, w)).
  { unfold replace_band_with_uploaded_image, uploaded_band_image, bind, lift.
    now rewrite Ho. }
  split; [| exact E].
  unfold process_pdf.
  destruct image_bytes as [[| b l] | pages | img]; try exact E.
  now elim Hne.
Qed.

Lemma undecodable_upload_fails_first_witness :
  process_pdf Host.no_arial (PdfFile [Host.a4]) 60 0 "#0000ff" None "#ffffff"
    (Some (Raw [Byte.x78])) world0
  = (Raise (UnidentifiedImageError "cannot identify image file"), world0).
Proof.
  refine (proj1 (undecodable_upload_fails_first Host.no_arial
            (PdfFile [Host.a4]) (Raw [Byte.x78]) 60 0 "#0000ff" None "#ffffff"
            world0 (UnidentifiedImageError "cannot identify image file")
            _ _)).
  - discriminate.
  - reflexivity.
Defined.

(** X5. The compositor accumulates: it appends to the content of a page
    and removes nothing, so that two calls in a row leave, on every page,
    the rectangle and the image of the first band followed by those of the
    second, and the second output differs from the first. *)
Theorem band_applied_twice pf img img' h y h' y' pdf_bytes w out1 w1 out2 w2 :
  replace_band_with_image pf pdf_bytes img h y w = (Ok out1, w1) ->
  replace_band_with_image pf out1 img' h' y' w1 = (Ok out2, w2) ->
  exists pages pages2,
    pdf_bytes = PdfFile pages /\ out2 = PdfFile pages2
    /\ Forall2
         (fun p p2 =>
            exists s1 s2,
              contents p2
              = contents p
                  ++ [DrawRect (band_rect h y p) white white;
                      InsertImage (band_rect h y p) s1;
                      DrawRect (band_rect h' y' p) white white;
                      InsertImage (band_rect h' y' p) s2])
         pages pages2
    /\ out2 <> out1.
Proof.
  intros H1 H2.
  destruct (replace_band_with_image_ok _ _ _ _ _ _ _ _ H1)
    as (pages & pages1 & -> & -> & HF1).
  destruct (replace_band_with_image_ok _ _ _ _ _ _ _ _ H2)
    as (pages1' & pages2 & E & -> & HF2).
  injection E as <-.
  exists pages, pages2. split; [reflexivity |]. split; [reflexivity |].
  assert (HF : Forall2
         (fun p p2 =>
            exists s1 s2,
              contents p2
              = contents p
                  ++ [DrawRect (band_rect h y p) white white;
                      InsertImage (band_rect h y p) s1;
                      DrawRect (band_rect h' y' p) white white;
                      InsertImage (band_rect h' y' p) s2])
         pages pages2).
  { clear H1 H2. revert pages2 HF2.
    induction HF1 as [| p p1 pages pages1 (s1 & _ & ->) HF1 IH];
      intros pages2 HF2; inversion HF2 as [| ? p2 ? ps2 (s2 & _ & ->) HF2'];
      subst; constructor; [| now apply IH].
    exists s1, s2. unfold banded; cbn [contents width].
    rewrite <- app_assoc. reflexivity. }
  split; [exact HF |].
  intros [= E].
  destruct w as [ds lg]. rewrite replace_band_with_image_pdf in H1.
  injection H1 as Hr _. unfold run_document in Hr.
  destruct (run_pages pf img h y [] pages) as [[[] | e] [| q qs]];
    try discriminate.
  injection Hr as <-. rewrite E in HF2.
  inversion HF2 as [| q1 q2 ? ps2 (s2 & _ & Eq) HF2']; subst.
  apply (f_equal (fun p => List.length (contents p))) in Eq.
  unfold banded in Eq; cbn [contents] in Eq.
  rewrite length_app in Eq. cbn in Eq. lia.
Qed.

(** The same band applied twice to one small page. *)
Lemma band_applied_twice_witness :
  exists pages pages2,
    PdfFile [mkPage 4 3 []] = PdfFile pages
    /\ PdfFile
         [banded 2 1
            (banded 2 1 (mkPage 4 3 [])
               (mkImage RGB (4, 5) (repeat [0; 0; 255] 20)))
            (mkImage RGB (4, 5) (repeat [0; 0; 255] 20))]
       = PdfFile pages2
    /\ Forall2
         (fun p p2 =>
            exists s1 s2,
              contents p2
              = contents p
                  ++ [DrawRect (band_rect 2 1 p) white white;
                      InsertImage (band_rect 2 1 p) s1;
                      DrawRect (band_rect 2 1 p) white white;
                      InsertImage (band_rect 2 1 p) s2])
         pages pages2
    /\ PdfFile
         [banded 2 1
            (banded 2 1 (mkPage 4 3 [])
               (mkImage RGB (4, 5) (repeat [0; 0; 255] 20)))
            (mkImage RGB (4, 5) (repeat [0; 0; 255] 20))]
       <> PdfFile
            [banded 2 1 (mkPage 4 3 [])
               (mkImage RGB (4, 5) (repeat [0; 0; 255] 20))].
Proof.
  refine (band_applied_twice Host.no_arial
            (mkImage RGB (1, 1) [[0; 0; 255]])
            (mkImage RGB (1, 1) [[0; 0; 255]]) 2 1 2 1
            (PdfFile [mkPage 4 3 []]) world0 _ _ _ _ _ _).
  - vm_compute. reflexivity.
  - vm_compute. reflexivity.
Defined.

(** ** Conversions and bounds *)

Section Conversion.
Import Real64.
Local Open Scope R_scope.

(** [int(x)] is the floor of a non-negative finite [x]. *)
Lemma int_floor x :
  is_finite x = true -> 0 <= F2R x ->
  exists n, PyFloat.int x = Ok n /\ (0 <= n)%Z /\ IZR n <= F2R x < IZR n + 1.
Proof.
  intros Fx Px.
  destruct (finite_nonneg_cases x Fx Px) as [[s E] | (m & e & E)];
    unfold PyFloat.int, F2R; rewrite E.
  - exists 0%Z. cbn [SF2R]. split; [reflexivity |]. split; [lia | lra].
  - exists (PyFloat.trunc_mag m e). split; [reflexivity |].
    unfold PyFloat.trunc_mag. cbn [SF2R].
    destruct (0 <=? e)%Z eqn:He.
    + apply Z.leb_le in He. rewrite mult_IZR, <- bpow_IZR by exact He.
      split; [apply Z.mul_nonneg_nonneg; [lia | apply Z.pow_nonneg; lia] |].
      lra.
    + apply Z.leb_gt in He.
      assert (Hp : (0 < 2 ^ (- e))%Z) by (apply Z.pow_pos_nonneg; lia).
      pose proof (Z.div_mod (Zpos m) (2 ^ (- e)) ltac:(lia)) as Hd.
      pose proof (Z.mod_pos_bound (Zpos m) (2 ^ (- e)) Hp) as Hb.
      set (q := (Zpos m / 2 ^ (- e))%Z) in *.
      set (r := (Zpos m mod 2 ^ (- e))%Z) in *.
      assert (Hq : (0 <= q)%Z) by (apply Z.div_pos; lia).
      split; [exact Hq |].
      assert (Hbp : bpow e = / IZR (2 ^ (- e))).
      { replace e with (- (- e))%Z at 1 by lia.
        rewrite bpow_opp, bpow_IZR by lia. reflexivity. }
      rewrite Hbp.
      assert (Hm : IZR (Zpos m) = IZR (2 ^ (- e)) * IZR q + IZR r)
        by (rewrite Hd at 1; rewrite plus_IZR, mult_IZR; reflexivity).
      rewrite Hm.
      assert (HP : 0 < IZR (2 ^ (- e))) by (apply IZR_lt; exact Hp).
      assert (Hr0 : 0 <= IZR r) by (apply IZR_le; lia).
      assert (Hr1 : IZR r < IZR (2 ^ (- e))) by (apply IZR_lt; lia).
      assert (Hi : 0 < / IZR (2 ^ (- e))) by (apply Rinv_0_lt_compat; lra).
      replace (1 * (IZR (2 ^ (- e)) * IZR q + IZR r) * / IZR (2 ^ (- e)))
        with (IZR q + IZR r * / IZR (2 ^ (- e))) by (field; lra).
      assert (IZR r * / IZR (2 ^ (- e)) < 1).
      { apply Rmult_lt_reg_r with (IZR (2 ^ (- e))); [lra |].
        rewrite Rmult_assoc, Rinv_l by lra. lra. }
      assert (0 <= IZR r * / IZR (2 ^ (- e))) by nra.
      lra.
Qed.

Lemma bpow_m1074 : bpow (-1074) = 2 * bpow (-1075).
Proof. exact (bpow_succ (-1075)). Qed.

(** [mm_to_points] against the exact conversion [mm * 72 / 25.4]. *)
Lemma mm_to_points_error x :
  is_finite x = true -> 0 <= F2R x <= 10 ^ 13 ->
  is_finite (mm_to_points x) = true
  /\ 0 <= F2R (mm_to_points x)
  /\ Rabs (F2R (mm_to_points x) - F2R x * 72 / 25.4)
     <= F2R x * 72 / 25.4 / 2 ^ 51 + bpow (-1074).
Proof.
  intros Fx [Hx0 Hx1].
  destruct F2R_dpi as [Fd Vd]. destruct F2R_25_4 as [Fc Vc].
  pose proof bpow_m53 as U. pose proof bpow_m1075 as [N0 N1].
  pose proof bpow_970 as B. pose proof bpow_m1074 as N2.
  unfold mm_to_points.
  set (vx := F2R x) in *.
  destruct (mul_error x dpi Fx Fd Hx0 ltac:(lra)
              ltac:(rewrite Vd; fold vx; lra)) as (Fa & Pa & Ea).
  set (a := (x * dpi)%float) in *. set (va := F2R a) in *.
  rewrite Vd in Ea. fold vx in Ea. unfold round_err in Ea. rewrite U in Ea.
  apply Rabs_le_inv in Ea.
  assert (Hb : va / F2R 25.4%float < bpow 970) by (rewrite Vc; lra).
  fold va in Hb.
  destruct (div_error a 25.4%float Fa Fc Pa ltac:(rewrite Vc; lra) Hb)
    as (Fb & Pb & Eb).
  set (b := (a / 25.4)%float) in *. set (vb := F2R b) in *.
  rewrite Vc in Eb. fold va in Eb. unfold round_err in Eb. rewrite U in Eb.
  apply Rabs_le_inv in Eb.
  split; [exact Fb |]. split; [exact Pb |].
  rewrite N2. apply Rabs_le. lra.
Qed.

(** [points_to_mm] against the exact conversion [points * 25.4 / 72]. *)
Lemma points_to_mm_error x :
  is_finite x = true -> 0 <= F2R x <= 10 ^ 13 ->
  is_finite (points_to_mm x) = true
  /\ 0 <= F2R (points_to_mm x)
  /\ Rabs (F2R (points_to_mm x) - F2R x * 25.4 / 72)
     <= F2R x * 25.4 / 72 / 2 ^ 51 + bpow (-1074).
Proof.
  intros Fx [Hx0 Hx1].
  destruct F2R_dpi as [Fd Vd]. destruct F2R_25_4 as [Fc Vc].
  pose proof bpow_m53 as U. pose proof bpow_m1075 as [N0 N1].
  pose proof bpow_970 as B. pose proof bpow_m1074 as N2.
  unfold points_to_mm.
  set (vx := F2R x) in *.
  destruct (mul_error x 25.4%float Fx Fc Hx0 ltac:(rewrite Vc; lra)
              ltac:(rewrite Vc; fold vx; lra)) as (Fa & Pa & Ea).
  set (a := (x * 25.4)%float) in *. set (va := F2R a) in *.
  rewrite Vc in Ea. fold vx in Ea. unfold round_err in Ea. rewrite U in Ea.
  apply Rabs_le_inv in Ea.
  assert (Hb : va / F2R dpi < bpow 970) by (rewrite Vd; lra).
  fold va in Hb.
  destruct (div_error a dpi Fa Fd Pa ltac:(rewrite Vd; lra) Hb)
    as (Fb & Pb & Eb).
  set (b := (a / dpi)%float) in *. set (vb := F2R b) in *.
  rewrite Vd in Eb. fold va in Eb. unfold round_err in Eb. rewrite U in Eb.
  apply Rabs_le_inv in Eb.
  split; [exact Fb |]. split; [exact Pb |].
  rewrite N2. apply Rabs_le. lra.
Qed.

(** A band between 5 mm and 300 mm is between 14 and 850 points high. *)
Lemma band_height_px h :
  is_finite h = true -> 5 <= F2R h <= 300 ->
  exists n, PyFloat.int (mm_to_points h) = Ok n /\ (14 <= n <= 850)%Z.
Proof.
  intros Fh [H5 H300].
  destruct (mm_to_points_error h Fh ltac:(lra)) as (Fp & Pp & E).
  destruct (int_floor _ Fp Pp) as (n & En & _ & Hn0 & Hn1).
  exists n. split; [exact En |].
  pose proof bpow_m1075 as [N0 N1]. pose proof bpow_m1074 as N2.
  apply Rabs_le_inv in E. rewrite N2 in E.
  set (e := bpow (-1075)) in *. set (v := F2R (mm_to_points h)) in *.
  set (vh := F2R h) in *. clearbody e v vh.
  split.
  - assert (H : (13 < n)%Z) by (apply lt_IZR; lra). lia.
  - assert (H : (n < 851)%Z) by (apply lt_IZR; lra). lia.
Qed.

(** Comparison of two positive binary64 numbers is comparison of their
    values. *)
Lemma canonical_digits m e :
  SpecFloat.bounded prec emax m e = true ->
  (Zpos (digits2_pos m) <= 53)%Z
  /\ ((-1074 < e)%Z -> Zpos (digits2_pos m) = 53%Z) /\ (-1074 <= e)%Z.
Proof.
  unfold SpecFloat.bounded, canonical_mantissa. intros H.
  apply andb_prop in H as [H _]. apply Z.eqb_eq in H.
  rewrite fexp_eq in H. lia.
Qed.

Lemma SFleb_pos m1 e1 m2 e2 :
  SpecFloat.bounded prec emax m1 e1 = true ->
  SpecFloat.bounded prec emax m2 e2 = true ->
  SFleb (S754_finite false m1 e1) (S754_finite false m2 e2) = true ->
  IZR (Zpos m1) * bpow e1 <= IZR (Zpos m2) * bpow e2.
Proof.
  intros B1 B2. unfold SFleb, SFcompare.
  destruct (canonical_digits _ _ B1) as (D1 & _ & L1).
  destruct (canonical_digits _ _ B2) as (_ & D2 & _).
  destruct (Z.compare_spec e1 e2) as [-> | Hlt | Hgt]; try discriminate.
  - fold (Pos.compare m1 m2).
    destruct (Pos.compare_spec m1 m2) as [-> | Hm | Hm]; try discriminate;
      intros _; [lra |].
    pose proof (bpow_gt_0 e2).
    assert (IZR (Zpos m1) <= IZR (Zpos m2)) by (apply IZR_le; lia). nra.
  - intros _.
    pose proof (pos_value_upper m1) as U1.
    pose proof (pos_value_lower m2) as L2.
    rewrite (D2 ltac:(lia)) in L2.
    assert (bpow (Zpos (digits2_pos m1)) <= bpow 53) by (apply bpow_le; lia).
    assert (Hs : bpow (e1 + 1) <= bpow e2) by (apply bpow_le; lia).
    rewrite bpow_succ in Hs.
    change (53 - 1)%Z with 52%Z in L2.
    assert (E53 : bpow 53 = 2 * bpow 52) by (exact (bpow_succ 52)).
    pose proof (bpow_gt_0 e1). pose proof (bpow_gt_0 52).
    apply Rle_trans with (bpow 53 * bpow e1); [nra |].
    apply Rle_trans with (bpow 52 * bpow e2); [nra |].
    pose proof (bpow_gt_0 e2). nra.
Qed.

Lemma leb_between a h b ma ea mb eb :
  Prim2SF a = S754_finite false ma ea ->
  Prim2SF b = S754_finite false mb eb ->
  (a <=? h)%float = true -> (h <=? b)%float = true ->
  is_finite h = true /\ F2R a <= F2R h <= F2R b.
Proof.
  intros Ea Eb. rewrite !leb_spec.
  pose proof (Prim2SF_valid a) as Va. pose proof (Prim2SF_valid b) as Vb.
  pose proof (Prim2SF_valid h) as Vh.
  unfold is_finite, F2R. rewrite Ea, Eb in *.
  destruct (Prim2SF h) as [s | s | | s m e].
  - destruct s; discriminate.
  - destruct s; discriminate.
  - discriminate.
  - destruct s; [discriminate |]. intros H1 H2.
    split; [reflexivity |]. cbn [SF2R valid_binary] in *.
    split.
    + pose proof (SFleb_pos _ _ _ _ Va Vh H1). lra.
    + pose proof (SFleb_pos _ _ _ _ Vh Vb H2). lra.
Qed.

(** X6. Each converter is within a relative error of [2^-51], plus the
    smallest subnormal, of the exact conversion. *)
Theorem converters_accuracy x :
  is_finite x = true -> 0 <= F2R x <= 10 ^ 13 ->
  (is_finite (mm_to_points x) = true
   /\ Rabs (F2R (mm_to_points x) - F2R x * 72 / 25.4)
      <= F2R x * 72 / 25.4 / 2 ^ 51 + bpow (-1074))
  /\ (is_finite (points_to_mm x) = true
      /\ Rabs (F2R (points_to_mm x) - F2R x * 25.4 / 72)
         <= F2R x * 25.4 / 72 / 2 ^ 51 + bpow (-1074)).
Proof.
  intros Fx Hx.
  destruct (mm_to_points_error x Fx Hx) as (F1 & _ & E1).
  destruct (points_to_mm_error x Fx Hx) as (F2 & _ & E2).
  auto.
Qed.

Lemma converters_accuracy_witness :
  Rabs (F2R (mm_to_points 60) - F2R 60 * 72 / 25.4)
  <= F2R 60 * 72 / 25.4 / 2 ^ 51 + bpow (-1074).
Proof.
  destruct (F2R_finite 60 8444249301319680 47 eq_refl ltac:(lia)) as [F V].
  refine (proj2 (proj1 (converters_accuracy 60 F _))).
  rewrite V. change (IZR (2 ^ 47)) with 140737488355328. lra.
Defined.

(** ** Rounding of binary64 addition *)









(** ** The settings model *)

Lemma validate_inr np kw bs :
  models.validate np kw = inr bs ->
  exists h,
    models.kw_height kw = Some h
    /\ models.ge np h 5 = true /\ models.le np h 300 = true
    /\ match models.kw_yOffset kw with
       | Some y => models.ge np y 0 = true
       | None => True
       end
    /\ bs = models.mkBandSettings h
              (match models.kw_yOffset kw with
               | Some y => y
               | None => 0%float
               end)
              (models.kw_backgroundColor kw) (models.kw_textContent kw)
              (match models.kw_textColor kw with
               | Some c => c
               | None => Some "#000000"%string
               end).
Proof.
  unfold models.validate, models.height_errors, models.yOffset_errors.
  destruct (models.kw_height kw) as [h |]; [| discriminate].
  destruct (models.ge np h 5) eqn:E1; [| discriminate].
  destruct (models.le np h 300) eqn:E2; [| discriminate].
  destruct (models.kw_yOffset kw) as [y |].
  - destruct (models.ge np y 0) eqn:E3; [| discriminate].
    intros [= <-]. exists h. auto.
  - intros [= <-]. exists h. auto.
Qed.

Lemma bounds_height_ok np h :
  is_nan h = false ->
  models.ge np h 5 = true -> models.le np h 300 = true -> height_ok h.
Proof.
  unfold models.ge, models.le. intros -> H1 H2.
  destruct (leb_between 5 h 300 5629499534213120 (-50)
              5277655813324800 (-44) eq_refl eq_refl H1 H2) as (F & Hl & Hu).
  destruct (F2R_finite 5 5629499534213120 50 eq_refl ltac:(lia)) as [_ V5].
  destruct (F2R_finite 300 5277655813324800 44 eq_refl ltac:(lia))
    as [_ V300].
  rewrite V5 in Hl. rewrite V300 in Hu.
  change (IZR (2 ^ 50)) with 1125899906842624 in Hl.
  change (IZR (2 ^ 44)) with 17592186044416 in Hu.
  split; [exact F |]. lra.
Qed.


Lemma leb_zero_offset_ok y : (0 <=? y)%float = true -> offset_ok y.
Proof.
  rewrite leb_spec. unfold offset_ok.
  change (Prim2SF 0) with (S754_zero false).
  destruct (Prim2SF y) as [s | [] | | [] m e]; cbn; auto; discriminate.
Qed.

(** X7. What the constraints of [BandSettings] let through.  The height
    is required; unless it is NaN, which passes only if the bounds let
    NaN through, it is finite and between 5 and 300 mm, so that the band is between 14 and
    850 pixels high.  An offset, when given, is not negative, NaN apart;
    the offset defaults to 0 and the text colour to black. *)
Theorem accepted_settings np kw bs :
  models.validate np kw = inr bs ->
  models.kw_height kw = Some (models.height bs)
  /\ (is_nan (models.height bs) = true -> np = true)
  /\ (is_nan (models.height bs) = false ->
      height_ok (models.height bs)
      /\ exists n, PyFloat.int (mm_to_points (models.height bs)) = Ok n
                   /\ (14 <= n <= 850)%Z)
  /\ (is_nan (models.yOffset bs) = false -> offset_ok (models.yOffset bs))
  /\ (models.kw_yOffset kw = None -> models.yOffset bs = 0%float)
  /\ (models.kw_textColor kw = None
      -> models.textColor bs = Some "#000000"%string).
Proof.
  intros H. destruct (validate_inr np kw bs H) as (h & Eh & H1 & H2 & Hy & ->).
  cbn [models.height models.yOffset models.textColor].
  split; [exact Eh |]. split; [| split; [| split]].
  - intros Hn. unfold models.ge in H1. now rewrite Hn in H1.
  - intros Hn. pose proof (bounds_height_ok np h Hn H1 H2) as Hh.
    split; [exact Hh |]. exact (band_height_px h (proj1 Hh) (proj2 Hh)).
  - destruct (models.kw_yOffset kw) as [y |].
    + intros Hn. unfold models.ge in Hy. rewrite Hn in Hy.
      now apply leb_zero_offset_ok.
    + intros _. unfold offset_ok. now change (Prim2SF 0) with (S754_zero false).
  - split; intros ->; reflexivity.
Qed.

Lemma accepted_settings_witness :
  height_ok 60
  /\ exists n, PyFloat.int (mm_to_points 60) = Ok n /\ (14 <= n <= 850)%Z.
Proof.
  refine (proj1 (proj2 (proj2
    (accepted_settings false
       (models.mkKwargs (Some 60%float) None None None None)
       (models.mkBandSettings 60 0 None None (Some "#000000"%string)) _)))
    _).
  - reflexivity.
  - reflexivity.
Defined.

(** X8. Settings without a height, or whose height is infinite or
    outside 5 to 300 mm, are refused; so is NaN when the bounds refuse
    NaN. *)
Theorem refused_settings np kw :
  match models.kw_height kw with
  | Some h => if is_nan h then np = false else ~ height_ok h
  | None => True
  end ->
  exists errors, models.validate np kw = inl errors /\ errors <> [].
Proof.
  intros H. destruct (models.validate np kw) as [errors | bs] eqn:E.
  - exists errors. split; [reflexivity |].
    unfold models.validate in E.
    destruct (models.height_errors _ _ ++ models.yOffset_errors _ _);
      [discriminate |].
    injection E as <-. discriminate.
  - exfalso. destruct (validate_inr np kw bs E) as (h & Eh & H1 & H2 & _).
    rewrite Eh in H. destruct (is_nan h) eqn:En.
    + unfold models.ge in H1. rewrite En, H in H1. discriminate.
    + apply H. now apply (bounds_height_ok np).
Qed.

Lemma refused_settings_witness :
  exists errors,
    models.validate true
      (models.mkKwargs (Some infinity) None None None None)
    = inl errors /\ errors <> [].
Proof.
  apply (refused_settings true
           (models.mkKwargs (Some infinity) None None None None)).
  cbn. intros [F _]. vm_compute in F. discriminate.
Defined.

End Conversion.

(** ** Requests the core serves *)








Lemma int_a4_width : PyFloat.int (mm_to_points 210) = Ok 595.
Proof. vm_compute. reflexivity. Qed.











(** X11. A band height that does not convert to a finite number of points
    stops the generated-band branch before anything is opened or logged. *)
Theorem process_pdf_unconvertible_height pf pdf_bytes h y bg txt fg upload w :
  Real64.is_finite (mm_to_points h) = false ->
  bytes_truthy upload = false ->
  process_pdf pf pdf_bytes h y bg txt fg upload w
  = (Raise (OverflowError "cannot convert float infinity to integer"), w)
  \/ process_pdf pf pdf_bytes h y bg txt fg upload w
     = (Raise (ValueError "cannot convert float NaN to integer"), w).
Proof.
  intros Hf Hup.
  assert (E : process_pdf pf pdf_bytes h y bg txt fg upload w
              = generated_band pf pdf_bytes h y bg txt fg w).
  { unfold process_pdf.
    fold (generated_band pf pdf_bytes h y bg txt fg).
    destruct upload as [b |]; [rewrite Hup |]; reflexivity. }
  rewrite E. unfold generated_band, bind, lift. rewrite int_a4_width.
  unfold Real64.is_finite in Hf. unfold PyFloat.int.
  destruct (Prim2SF (mm_to_points h)) as [s | s | | s m e];
    try discriminate; [left | right]; reflexivity.
Qed.

Lemma process_pdf_unconvertible_height_witness :
  process_pdf Host.no_arial (PdfFile [Host.a4]) infinity 0
    "#0000ff" None "#ffffff" None world0
  = (Raise (OverflowError "cannot convert float infinity to integer"), world0)
  \/ process_pdf Host.no_arial (PdfFile [Host.a4]) infinity 0
       "#0000ff" None "#ffffff" None world0
     = (Raise (ValueError "cannot convert float NaN to integer"), world0).
Proof.
  apply (process_pdf_unconvertible_height Host.no_arial (PdfFile [Host.a4])
           infinity 0 "#0000ff" None "#ffffff" None world0).
  - vm_compute. reflexivity.
  - reflexivity.
Defined.

(** ** More on the band image generator *)

Lemma hex_digit_range a r :
  ImageColor.hex_digit a = Some r -> 0 <= r <= 15.
Proof.
  unfold ImageColor.hex_digit. cbv zeta.
  set (n := Z.of_nat (nat_of_ascii a)).
  destruct ((48 <=? n) && (n <=? 57)) eqn:E1;
    [apply andb_true_iff in E1 as [H1 H2]; intros [= <-]; lia |].
  destruct ((97 <=? n) && (n <=? 102)) eqn:E2;
    [apply andb_true_iff in E2 as [H1 H2]; intros [= <-]; lia |].
  destruct ((65 <=? n) && (n <=? 70)) eqn:E3;
    [apply andb_true_iff in E3 as [H1 H2]; intros [= <-]; lia |].
  discriminate.
Qed.

(** A colour that parses has three bands between 0 and 255. *)
Lemma getrgb_range s p :
  ImageColor.getrgb s = Ok p ->
  exists r g b, p = [r; g; b]
    /\ 0 <= r <= 255 /\ 0 <= g <= 255 /\ 0 <= b <= 255.
Proof.
  unfold ImageColor.getrgb, ImageColor.unknown.
  repeat match goal with
         | |- context [match ImageColor.hex_digit ?x with _ => _ end] =>
             let E := fresh "E" in
             destruct (ImageColor.hex_digit x) eqn:E;
             [apply hex_digit_range in E |]
         | |- context [match ?x with _ => _ end] => destruct x
         end; try discriminate;
    match goal with
    | |- Ok [?x; ?y; ?z] = Ok _ -> _ =>
        intros H; exists x, y, z;
        split; [injection H as <-; reflexivity | lia]
    end.
Qed.

(** A blend lies between the two values it blends. *)
Lemma blend8_between a o i :
  0 <= a <= 255 -> 0 <= o <= 255 -> 0 <= i <= 255 ->
  Z.min o i <= Image.blend8 a o i <= Z.max o i.
Proof.
  intros Ha Ho Hi. unfold Image.blend8.
  assert (Hx : 255 * Z.min o i <= o * (255 - a) + i * a <= 255 * Z.max o i)
    by nia.
  pose proof (div255_spec (o * (255 - a) + i * a) ltac:(nia)) as Hd.
  lia.
Qed.

(** X12. The colours of a generated band, on a platform whose glyph masks
    are 8-bit.  Without text every pixel is the background colour; with a
    text, which is drawn anti-aliased, every pixel is a shade between the
    background colour and the text colour. *)
Theorem create_band_image_palette pf w h bg txt fg c img :
  fonts_8bit pf -> ImageColor.getrgb bg = Ok c ->
  create_band_image pf w h bg txt fg = Ok img ->
  Forall (fun p =>
            if str_truthy txt
            then exists cf, ImageColor.getrgb fg = Ok cf /\ shade c cf p
            else p = c)
         (pixels img).
Proof.
  intros [Hd Ht] Hc. unfold create_band_image, Image.new.
  destruct ((w <? 0) || (h <? 0)); [discriminate |].
  rewrite Hc. cbn [rbind].
  assert (Hbg : forall n, Forall (fun p => p = c) (repeat c n)).
  { intros n. apply Forall_forall. intros p Hp. now apply repeat_spec in Hp. }
  destruct txt as [[| a s] |]; try (intros [= <-]; apply Hbg).
  destruct (load_font pf (Z.min (h / 3) 48)) as [f | e] eqn:Ef;
    [| discriminate].
  assert (Hf : font_ok f).
  { unfold load_font, ImageFont.truetype in Ef.
    destruct (Z.min (h / 3) 48 <=? 0); [discriminate |].
    destruct (truetype_file pf font_path _) as [f' |] eqn:Et;
      injection Ef as <-; [exact (Ht _ _ _ Et) | exact Hd]. }
  cbn [rbind].
  destruct (ImageDraw.textbbox (0, 0) (String a s) f) as [[[b0 b1] b2] b3].
  unfold ImageDraw.text.
  destruct (ImageColor.getrgb fg) as [cf | e] eqn:Efg; [| discriminate].
  cbn [rbind]. intros [= <-]. cbn [pixels str_truthy].
  destruct (getrgb_range bg c Hc) as (r & g & b & -> & Hr & Hg & Hb).
  destruct (getrgb_range fg cf Efg) as (r' & g' & b' & -> & Hr' & Hg' & Hb').
  apply Forall_forall. intros p Hp.
  apply in_map_iff in Hp as ([i q] & <- & Hin). cbn [fst snd].
  apply in_combine_r in Hin. apply repeat_spec in Hin. subst q.
  exists [r'; g'; b']. split; [reflexivity |].
  cbn [combine map fst snd]. unfold shade. cbn [combine].
  repeat constructor; cbn [fst snd]; apply blend8_between; auto.
Qed.

(** The text [ab] in black on a red band, drawn with the built-in font:
    the edge of each glyph is a darker red. *)
Lemma create_band_image_palette_witness :
  exists img,
    create_band_image Host.no_arial 20 12 "#ff0000" (Some "ab") "#000000"
    = Ok img
    /\ nth 105 (pixels img) [] = [255; 0; 0]
    /\ nth 106 (pixels img) [] = [0; 0; 0]
    /\ nth 107 (pixels img) [] = [127; 0; 0]
    /\ Forall (fun p =>
                 exists cf, ImageColor.getrgb "#000000" = Ok cf
                   /\ shade [255; 0; 0] cf p)
              (pixels img).
Proof.
  eexists. split; [vm_compute; reflexivity |].
  split; [vm_compute; reflexivity |].
  split; [vm_compute; reflexivity |].
  split; [vm_compute; reflexivity |].
  apply (create_band_image_palette Host.no_arial 20 12 "#ff0000" (Some "ab")
           "#000000" [255; 0; 0]).
  - split; [| discriminate].
    intros txt dx dy. unfold Host.no_arial, Host.bitmap_font.
    cbn [default_font font_coverage].
    repeat match goal with
           | |- context [if ?b then _ else _] => destruct b
           end; lia.
  - reflexivity.
  - vm_compute. reflexivity.
Defined.

(** X13. The generator checks the size before the colours: a negative
    dimension is a [ValueError] whatever the colours are, and with a valid
    size a background colour that does not parse is the error of the
    call, with or without text. *)
Theorem create_band_image_rejects pf w h bg txt fg :
  (w < 0 \/ h < 0 ->
   create_band_image pf w h bg txt fg
   = Raise (ValueError "Width and height must be >= 0"))
  /\ (0 <= w -> 0 <= h ->
      forall e, ImageColor.getrgb bg = Raise e ->
      create_band_image pf w h bg txt fg = Raise e).
Proof.
  unfold create_band_image, Image.new. split.
  - intros H.
    assert (E : (w <? 0) || (h <? 0) = true).
    { apply orb_true_iff. destruct H; [left | right]; now apply Z.ltb_lt. }
    now rewrite E.
  - intros Hw Hh e He.
    destruct (w <? 0) eqn:Ew; [apply Z.ltb_lt in Ew; lia |].
    destruct (h <? 0) eqn:Eh; [apply Z.ltb_lt in Eh; lia |].
    cbn [orb]. now rewrite He.
Qed.

(** X14. Where the text ends up.  The text is drawn at the position that
    would centre a box of the measured size; the box the drawn text
    occupies is offset by the origin of the measured bounding box, so its
    left margin exceeds the right one by twice that origin, less the pixel
    lost to the integer division -- and the same vertically. *)
Theorem create_band_image_text_box pf w h bg a s fg c fnt :
  0 <= w -> 0 <= h -> ImageColor.getrgb bg = Ok c ->
  load_font pf (Z.min (h / 3) 48) = Ok fnt ->
  let txt := String a s in
  exists x y,
    create_band_image pf w h bg (Some txt) fg
    = ImageDraw.text (mkImage RGB (w, h) (repeat c (Z.to_nat (w * h))))
        (x, y) txt fg fnt
    /\ let '(b0, b1, b2, b3) := ImageDraw.textbbox (0, 0) txt fnt in
       let '(l, t, r, b) := ImageDraw.textbbox (x, y) txt fnt in
       r - l = b2 - b0 /\ b - t = b3 - b1
       /\ l - (w - r) = 2 * b0 - (w - (b2 - b0)) mod 2
       /\ t - (h - b) = 2 * b1 - (h - (b3 - b1)) mod 2.
Proof.
  intros Hw Hh Hc Hf txt.
  unfold create_band_image. rewrite (new_rgb_ok _ _ _ _ Hw Hh Hc).
  subst txt. cbn [rbind]. rewrite Hf. cbn [rbind].
  unfold ImageDraw.textbbox. cbn [fst snd].
  destruct (font_bbox fnt (String a s)) as [[[b0 b1] b2] b3].
  exists ((w - (0 + b2 - (0 + b0))) / 2), ((h - (0 + b3 - (0 + b1))) / 2).
  split; [reflexivity |].
  rewrite !Z.add_0_l.
  pose proof (Z.div_mod (w - (b2 - b0)) 2 ltac:(lia)).
  pose proof (Z.div_mod (h - (b3 - b1)) 2 ltac:(lia)).
  lia.
Qed.

Lemma create_band_image_text_box_witness :
  let txt := "ab" in
  exists x y,
    create_band_image Host.no_arial 20 12 "#ff0000" (Some txt) "#000000"
    = ImageDraw.text (mkImage RGB (20, 12)
                        (repeat [255; 0; 0] (Z.to_nat (20 * 12))))
        (x, y) txt "#000000" Host.bitmap_font
    /\ let '(b0, b1, b2, b3) :=
         ImageDraw.textbbox (0, 0) txt Host.bitmap_font in
       let '(l, t, r, b) := ImageDraw.textbbox (x, y) txt Host.bitmap_font in
       r - l = b2 - b0 /\ b - t = b3 - b1
       /\ l - (20 - r) = 2 * b0 - (20 - (b2 - b0)) mod 2
       /\ t - (12 - b) = 2 * b1 - (12 - (b3 - b1)) mod 2.
Proof.
  apply (create_band_image_text_box Host.no_arial 20 12 "#ff0000" "a" "b"
           "#000000" [255; 0; 0] Host.bitmap_font).
  - lia.
  - lia.
  - reflexivity.
  - reflexivity.
Defined.

(** * The HTTP layer *)

Lemma pages_ok_verdict pages :
  pages_ok pages ->
  page_count_verdict (Z.of_nat (List.length pages)) = (true, EmptyString).
Proof.
  intros [H1 H50]. unfold page_count_verdict.
  destruct (Z.of_nat (List.length pages) =? 0) eqn:E0;
    [apply Z.eqb_eq in E0; lia |].
  destruct (50 <? Z.of_nat (List.length pages)) eqn:E50;
    [apply Z.ltb_lt in E50; lia | reflexivity].
Qed.

(** The validator returns a pair, whatever the bytes are. *)
Lemma validate_pdf_returns pdf_bytes w :
  exists v, fst (validate_pdf pdf_bytes w) = Ok v.
Proof.
  destruct w as [ds lg]. destruct (pages_of pdf_bytes) as [ps |] eqn:Hp.
  - rewrite (validate_pdf_opened _ _ _ _ Hp). cbn [fst]. eauto.
  - destruct (validate_pdf_unopened pdf_bytes (mkWorld ds lg) Hp)
      as (e & _ & ->). cbn [fst]. eauto.
Qed.

(** The validator as the endpoint calls it. *)
Lemma call_validate_pdf pdf_bytes w v w' :
  validate_pdf pdf_bytes w = (Ok v, w') ->
  call_core (validate_pdf pdf_bytes) w = (Return v, w').
Proof. intros H. unfold call_core. now rewrite H. Qed.

(** The header of the response can be encoded when the file name can. *)
Lemma latin1_app s1 s2 :
  main.latin1 (s1 ++ s2) = main.latin1 s1 && main.latin1 s2.
Proof.
  induction s1 as [| c s1 IH]; [reflexivity |].
  cbn [append main.latin1]. now rewrite IH, andb_assoc.
Qed.



(** Building the response: it is returned, or the encoding of its header
    fails. *)
Lemma StreamingResponse_init_run pdf body w :
  main.StreamingResponse_init body "application/pdf"
    [("Content-Disposition",
      ("attachment; filename=" ++ main.output_filename pdf)%string)] w
  = if main.latin1 (main.output_filename pdf)
    then (Return (pdf_response pdf body), w)
    else (Throw (Exception
                   "'latin-1' codec can't encode characters: ordinal not in range(256)"),
          w).
Proof.
  unfold main.StreamingResponse_init. cbn [forallb fst snd].
  rewrite latin1_app.
  change (main.latin1 "Content-Disposition") with true.
  change (main.latin1 "attachment; filename=") with true.
  cbn [andb]. rewrite andb_true_r.
  now destruct (main.latin1 (main.output_filename pdf)).
Qed.

(** The endpoint past the validator. *)
Lemma body_after_validation pf decode np pdf settings replaceImage pages ds lg :
  main.larger_than (main.size pdf) (10 * main.MB) = false ->
  main.file pdf = PdfFile pages -> pages_ok pages ->
  main.process_pdf_body pf decode np pdf settings replaceImage (mkWorld ds lg)
  = (band_settings <-- main.parse_settings decode np settings ;;
     replace_image_bytes <-- main.read_replace_image replaceImage ;;
     processed_pdf_bytes <--
       main.run_processor pf (PdfFile pages) band_settings
         replace_image_bytes ;;
     main.StreamingResponse_init processed_pdf_bytes "application/pdf"
       [("Content-Disposition",
         ("attachment; filename=" ++ main.output_filename pdf)%string)])%monad
      (validated ds lg pages).
Proof.
  intros Hs Hf Hp. unfold main.process_pdf_body.
  rewrite Hs, Hf. unfold main.raise_if, ebind at 1, eret at 1.
  unfold ebind at 1, call_core.
  rewrite validate_pdf_run, (pages_ok_verdict pages Hp).
  cbn [fst negb]. unfold ebind at 1, eret at 1. reflexivity.
Qed.

(** The core returns PDF documents only. *)
Lemma process_pdf_returns_pdf pf pdf_bytes h y bg txt fg upload w out w' :
  process_pdf pf pdf_bytes h y bg txt fg upload w = (Ok out, w') ->
  exists pages', out = PdfFile pages'.
Proof.
  assert (G : forall w0, generated_band pf pdf_bytes h y bg txt fg w0
                         = (Ok out, w') -> exists pages', out = PdfFile pages').
  { intros w0. unfold generated_band, bind, lift.
    destruct (PyFloat.int (mm_to_points 210)); [| discriminate].
    destruct (PyFloat.int (mm_to_points h)); [| discriminate].
    destruct (create_band_image pf _ _ bg txt fg); [| discriminate].
    intros H. apply replace_band_with_image_ok in H
      as (pages & pages' & _ & -> & _). eauto. }
  unfold process_pdf. fold (generated_band pf pdf_bytes h y bg txt fg).
  destruct upload as [b |]; [| apply G].
  destruct (bytes_truthy (Some b)); [| apply G].
  unfold replace_band_with_uploaded_image, bind, lift.
  destruct (uploaded_band_image b); [| discriminate].
  intros H. apply replace_band_with_image_ok in H
    as (pages & pages' & _ & -> & _). eauto.
Qed.

(** What the processing step makes of the outcome of the core. *)
Lemma run_processor_run pf pdf_bytes bs upload w :
  main.run_processor pf pdf_bytes bs upload w
  = match core_call pf pdf_bytes bs upload w with
    | (Ok out, w') => (Return out, w')
    | (Raise e, w') =>
        (Throw (HTTPException 500 (main.msg_processing ++ str e)),
         mkWorld (docs w')
           (log w' ++ [("PDF processing failed: " ++ str e)%string]))
    end.
Proof.
  unfold main.run_processor, core_call.
  destruct (process_pdf _ _ _ _ _ _ _ _ w) as [[out | e] w']; reflexivity.
Qed.

(** Reasoning on the outcome of a sequence. *)
Lemma ebind_outcome {A B} (m : Handler A) (k : A -> Handler B)
      (Q : outcome B -> Prop) w :
  (forall e w', m w = (Throw e, w') -> Q (Throw e)) ->
  (forall a w', m w = (Return a, w') -> Q (fst (k a w'))) ->
  Q (fst (ebind m k w)).
Proof.
  intros He Ha. unfold ebind.
  destruct (m w) as [[a | e] w']; [now apply (Ha a w') | now apply (He e w')].
Qed.

Lemma raise_if_outcome c status_code detail w :
  status_code = 400 \/ status_code = 413 \/ status_code = 500 ->
  forall e w', main.raise_if c (HTTPException status_code detail) w
               = (Throw e, w') ->
  e = HTTPException status_code detail.
Proof. intros _ e w'. unfold main.raise_if. destruct c; now intros [= <-]. Qed.

Lemma body_outcomes pf decode np pdf settings replaceImage w :
  expected _ (fun r => exists pages', r = pdf_response pdf (PdfFile pages'))
    (fst (main.process_pdf_body pf decode np pdf settings replaceImage w)).
Proof.
  unfold main.process_pdf_body.
  apply ebind_outcome.
  { intros e w' H. apply raise_if_outcome in H as ->; cbn; auto. }
  intros _ w1 _. apply ebind_outcome.
  { intros e w' H. unfold call_core in H.
    destruct (validate_pdf_returns (main.file pdf) w1) as [v Hv].
    destruct (validate_pdf (main.file pdf) w1) as [[v' | e'] w2];
      cbn [fst] in Hv; discriminate. }
  intros [is_valid error_msg] w2 _. apply ebind_outcome.
  { intros e w' H. apply raise_if_outcome in H as ->; cbn; auto. }
  intros _ w3 _. apply ebind_outcome.
  { intros e w'. unfold main.parse_settings.
    destruct (decode settings) as [m | m | m | kw];
      try (intros [= <-]; cbn; auto; fail).
    destruct (models.validate np kw); intros [= <-]; cbn; auto. }
  intros bs w4 _. apply ebind_outcome.
  { intros e w'. unfold main.read_replace_image.
    destruct replaceImage as [image |]; [| discriminate].
    unfold ebind, main.raise_if.
    destruct (main.larger_than _ _); [intros [= <-]; cbn; auto |].
    destruct (main.not_an_image _); [intros [= <-]; cbn; auto |].
    discriminate. }
  intros upload w5 _. apply ebind_outcome.
  { intros e w'. rewrite run_processor_run.
    destruct (core_call _ _ _ _ _) as [[out | e0] w6];
      intros [= <-]; cbn; auto. }
  intros out w6. rewrite run_processor_run.
  destruct (core_call _ _ _ _ _) as [[out' | e0] w7] eqn:E; [| discriminate].
  intros [= <- <-]. apply process_pdf_returns_pdf in E as [pages' ->].
  rewrite StreamingResponse_init_run.
  destruct (main.latin1 (main.output_filename pdf)); cbn [fst expected];
    [now exists pages' | exact I].
Qed.

(** The outer handler. *)
Lemma outer_handler pf decode np pdf settings replaceImage w :
  main.process_pdf pf decode np pdf settings replaceImage w
  = match main.process_pdf_body pf decode np pdf settings replaceImage w with
    | (Throw (Exception msg), w') =>
        (Throw (HTTPException 500 main.msg_internal),
         mkWorld (docs w')
           (log w' ++ [("Unexpected error in process_pdf: " ++ msg)%string]))
    | r => r
    end.
Proof.
  unfold main.process_pdf.
  destruct (main.process_pdf_body _ _ _ _ _ _ w) as [[r | [s d | msg]] w'];
    reflexivity.
Qed.

(** X15. Whatever the request, the endpoint returns a PDF response or
    raises an [HTTPException] whose status is 400, 413 or 500. *)
Theorem endpoint_outcomes pf decode np pdf settings replaceImage w :
  match fst (main.process_pdf pf decode np pdf settings replaceImage w) with
  | Return r =>
      exists pages', r = pdf_response pdf (PdfFile pages')
  | Throw (HTTPException status_code _) =>
      status_code = 400 \/ status_code = 413 \/ status_code = 500
  | Throw (Exception _) => False
  end.
Proof.
  rewrite outer_handler.
  pose proof (body_outcomes pf decode np pdf settings replaceImage w) as H.
  destruct (main.process_pdf_body _ _ _ _ _ _ w) as [[r | [s d | msg]] w'];
    cbn in *; auto.
Qed.

(** The endpoint once the request has passed every check: the outcome of
    the core decides. *)
Lemma endpoint_run pf decode np pdf settings replaceImage pages kw bs ds lg :
  main.larger_than (main.size pdf) (10 * main.MB) = false ->
  main.file pdf = PdfFile pages -> pages_ok pages ->
  decode settings = main.Kwargs kw -> models.validate np kw = inr bs ->
  match replaceImage with
  | Some image => image_upload_ok image
  | None => True
  end ->
  main.process_pdf pf decode np pdf settings replaceImage (mkWorld ds lg)
  = match core_call pf (PdfFile pages) bs (upload_of replaceImage)
            (validated ds lg pages) with
    | (Ok out, w') =>
        if main.latin1 (main.output_filename pdf)
        then (Return (pdf_response pdf out), w')
        else
          (Throw (HTTPException 500 main.msg_internal),
           mkWorld (docs w')
             (log w'
              ++ ["Unexpected error in process_pdf: 'latin-1' codec can't encode characters: ordinal not in range(256)"%string]))
    | (Raise e, w') =>
        (Throw (HTTPException 500 (main.msg_processing ++ str e)),
         mkWorld (docs w')
           (log w' ++ [("PDF processing failed: " ++ str e)%string]))
    end.
Proof.
  intros Hs Hf Hp Hd Hv Hi.
  rewrite outer_handler, (body_after_validation _ _ _ _ _ _ _ _ _ Hs Hf Hp).
  unfold ebind at 1, main.parse_settings. rewrite Hd, Hv.
  unfold eret at 1.
  assert (E : main.read_replace_image replaceImage (validated ds lg pages)
              = (Return (upload_of replaceImage), validated ds lg pages)).
  { destruct replaceImage as [image |]; [| reflexivity].
    destruct Hi as [H1 H2]. unfold main.read_replace_image.
    now rewrite H1, H2. }
  unfold ebind at 1. rewrite E. unfold ebind.
  rewrite run_processor_run.
  destruct (core_call _ _ _ _ _) as [[out | e] w']; [| reflexivity].
  rewrite StreamingResponse_init_run.
  now destruct (main.latin1 (main.output_filename pdf)).
Qed.

(** ** The checks of the endpoint, in order *)

(** X16. An upload of more than 10 MB is refused with 413 before it is
    read: nothing is opened and nothing is logged, whatever
    the file, the settings and the replacement image are. *)
Theorem oversized_pdf_refused pf decode np pdf settings replaceImage n w :
  main.size pdf = Some n -> 10 * main.MB < n ->
  main.process_pdf pf decode np pdf settings replaceImage w
  = (Throw (HTTPException 413 main.msg_pdf_too_large), w).
Proof.
  intros Hs Hn. unfold main.process_pdf, main.process_pdf_body.
  unfold main.larger_than. rewrite Hs.
  assert (E0 : (n =? 0) = false).
  { apply Z.eqb_neq. unfold main.MB in Hn. lia. }
  assert (E1 : (n >? 10 * main.MB) = true).
  { rewrite Z.gtb_ltb. now apply Z.ltb_lt. }
  rewrite E0, E1. reflexivity.
Qed.

Lemma oversized_pdf_refused_witness :
  main.process_pdf Host.no_arial Client.decode false
    (main.mkUploadFile (Some "big.pdf") (Some 10485761)
       (Some "application/pdf") (PdfFile [Host.a4]))
    Client.settings_60 None world0
  = (Throw (HTTPException 413 main.msg_pdf_too_large), world0).
Proof.
  apply (oversized_pdf_refused Host.no_arial Client.decode false
           (main.mkUploadFile (Some "big.pdf") (Some 10485761)
              (Some "application/pdf") (PdfFile [Host.a4]))
           Client.settings_60 None 10485761 world0).
  - reflexivity.
  - reflexivity.
Defined.

(** X17. A file the validator refuses is answered with 400 and the
    message of the validator, before the settings are looked at, and the
    state is the one the validator left; for a PDF refused for its page
    count, this state has the document still open in the handle table. *)
Theorem invalid_pdf_refused pf decode np pdf settings replaceImage msg w w' :
  main.larger_than (main.size pdf) (10 * main.MB) = false ->
  validate_pdf (main.file pdf) w = (Ok (false, msg), w') ->
  main.process_pdf pf decode np pdf settings replaceImage w
  = (Throw (HTTPException 400 msg), w')
  /\ (forall pages, main.file pdf = PdfFile pages ->
        w' = mkWorld (docs w ++ [mkDoc pages false]) (log w)).
Proof.
  intros Hs Hv. split.
  - rewrite outer_handler. unfold main.process_pdf_body.
    rewrite Hs. unfold main.raise_if at 1. unfold ebind at 1, eret at 1.
    unfold ebind at 1. rewrite (call_validate_pdf _ _ _ _ Hv).
    cbn [negb main.raise_if]. reflexivity.
  - intros pages Hf. destruct w as [ds lg]. rewrite Hf in Hv.
    rewrite validate_pdf_run in Hv. injection Hv as Hv <-.
    cbn [docs log]. now rewrite Hv.
Qed.

Lemma invalid_pdf_refused_witness :
  main.process_pdf Host.no_arial Client.decode false
    (main.mkUploadFile (Some "empty.pdf") (Some 300)
       (Some "application/pdf") (PdfFile []))
    Client.settings_60 None (mkWorld [] [])
  = (Throw (HTTPException 400 msg_no_pages), mkWorld [mkDoc [] false] []).
Proof.
  apply (invalid_pdf_refused Host.no_arial Client.decode false
           (main.mkUploadFile (Some "empty.pdf") (Some 300)
              (Some "application/pdf") (PdfFile []))
           Client.settings_60 None msg_no_pages (mkWorld [] [])
           (mkWorld [mkDoc [] false] [])).
  - reflexivity.
  - reflexivity.
Defined.

(** X18. Settings that cannot be used.  Malformed JSON, a value of the
    wrong type and a violated constraint are answered with 400 and the
    message of the exception; a JSON value that is not an object raises a
    [TypeError], which the handler of the settings does not catch: it is
    logged and answered with 500.  The replacement image is not looked at
    in any of these cases. *)
Theorem unusable_settings_refused
        pf decode np pdf settings replaceImage pages ds lg :
  main.larger_than (main.size pdf) (10 * main.MB) = false ->
  main.file pdf = PdfFile pages -> pages_ok pages ->
  match decode settings with
  | main.Malformed msg | main.IllTyped msg =>
      main.process_pdf pf decode np pdf settings replaceImage (mkWorld ds lg)
      = (Throw (HTTPException 400 (main.msg_bad_settings ++ msg)),
         validated ds lg pages)
  | main.NotAMapping msg =>
      main.process_pdf pf decode np pdf settings replaceImage (mkWorld ds lg)
      = (Throw (HTTPException 500 main.msg_internal),
         mkWorld (ds ++ [mkDoc pages true])
           (lg ++ [("Unexpected error in process_pdf: " ++ msg)%string]))
  | main.Kwargs kw =>
      forall errors, models.validate np kw = inl errors ->
      main.process_pdf pf decode np pdf settings replaceImage (mkWorld ds lg)
      = (Throw (HTTPException 400
                  (main.msg_bad_settings ++ main.lines errors)),
         validated ds lg pages)
  end.
Proof.
  intros Hs Hf Hp.
  rewrite outer_handler, (body_after_validation _ _ _ _ _ _ _ _ _ Hs Hf Hp).
  unfold ebind at 1, main.parse_settings.
  destruct (decode settings) as [m | m | m | kw]; try reflexivity.
  intros errors ->. reflexivity.
Qed.

Lemma unusable_settings_refused_witness :
  main.process_pdf Host.no_arial Client.decode false Client.scan
    Client.settings_array None (mkWorld [] [])
  = (Throw (HTTPException 500 main.msg_internal),
     mkWorld ([] ++ [mkDoc [Host.a4] true])
       ([] ++ [("Unexpected error in process_pdf: "
                ++ "argument after ** must be a mapping, not list")%string])).
Proof.
  apply (unusable_settings_refused Host.no_arial Client.decode false Client.scan
           Client.settings_array None [Host.a4] [] []).
  - reflexivity.
  - reflexivity.
  - split; simpl; lia.
Defined.

(** X19. The checks on the replacement image come after the settings:
    an image of more than 5 MB is refused with 413, and
    otherwise one whose content type is missing, empty or not [image/...]
    with 400; in both cases the core is not called. *)
Theorem replacement_image_refused
        pf decode np pdf settings image pages kw bs ds lg :
  main.larger_than (main.size pdf) (10 * main.MB) = false ->
  main.file pdf = PdfFile pages -> pages_ok pages ->
  decode settings = main.Kwargs kw -> models.validate np kw = inr bs ->
  ~ image_upload_ok image ->
  main.process_pdf pf decode np pdf settings (Some image) (mkWorld ds lg)
  = (Throw (if main.larger_than (main.size image) (5 * main.MB)
            then HTTPException 413 main.msg_image_too_large
            else HTTPException 400 main.msg_not_an_image),
     validated ds lg pages).
Proof.
  intros Hs Hf Hp Hd Hv Hi.
  rewrite outer_handler, (body_after_validation _ _ _ _ _ _ _ _ _ Hs Hf Hp).
  unfold ebind at 1, main.parse_settings. rewrite Hd, Hv.
  unfold eret at 1, ebind at 1, main.read_replace_image.
  unfold image_upload_ok in Hi.
  destruct (main.larger_than (main.size image) (5 * main.MB));
    [reflexivity |].
  destruct (main.not_an_image (main.content_type image));
    [reflexivity |].
  elim Hi. split; reflexivity.
Qed.

Lemma replacement_image_refused_witness :
  main.process_pdf Host.no_arial Client.decode false Client.scan
    Client.settings_60
    (Some (main.mkUploadFile (Some "band.txt") (Some 12) (Some "text/plain")
             (Raw [Byte.x78])))
    (mkWorld [] [])
  = (Throw (HTTPException 400 main.msg_not_an_image),
     validated [] [] [Host.a4]).
Proof.
  apply (replacement_image_refused Host.no_arial Client.decode false Client.scan
           Client.settings_60
           (main.mkUploadFile (Some "band.txt") (Some 12) (Some "text/plain")
              (Raw [Byte.x78]))
           [Host.a4]
           (models.mkKwargs (Some 60%float) None None None None)
           (models.mkBandSettings 60 0 None None (Some "#000000"))
           [] []).
  - reflexivity.
  - reflexivity.
  - split; simpl; lia.
  - reflexivity.
  - reflexivity.
  - intros [_ H]. discriminate H.
Defined.

(** ** Processing *)

(** X20. An exception of the core is logged and answered with 500; the
    answer carries the message of the exception. *)
Theorem processing_failure_reported
        pf decode np pdf settings replaceImage pages kw bs ds lg e w' :
  main.larger_than (main.size pdf) (10 * main.MB) = false ->
  main.file pdf = PdfFile pages -> pages_ok pages ->
  decode settings = main.Kwargs kw -> models.validate np kw = inr bs ->
  match replaceImage with
  | Some image => image_upload_ok image
  | None => True
  end ->
  core_call pf (PdfFile pages) bs (upload_of replaceImage)
    (validated ds lg pages) = (Raise e, w') ->
  main.process_pdf pf decode np pdf settings replaceImage (mkWorld ds lg)
  = (Throw (HTTPException 500 (main.msg_processing ++ str e)),
     mkWorld (docs w')
       (log w' ++ [("PDF processing failed: " ++ str e)%string])).
Proof.
  intros Hs Hf Hp Hd Hv Hi Hc.
  rewrite (endpoint_run pf decode np pdf settings replaceImage pages kw bs ds lg
             Hs Hf Hp Hd Hv Hi), Hc.
  reflexivity.
Qed.

(** A replacement image that is announced as PNG and is not an image. *)
Lemma processing_failure_reported_witness :
  main.process_pdf Host.no_arial Client.decode false Client.scan
    Client.settings_60
    (Some (main.mkUploadFile (Some "band.png") (Some 1) (Some "image/png")
             (Raw [Byte.x78])))
    (mkWorld [] [])
  = (Throw (HTTPException 500
              (main.msg_processing ++ "cannot identify image file")),
     mkWorld [mkDoc [Host.a4] true]
       ["PDF processing failed: cannot identify image file"]).
Proof.
  apply (processing_failure_reported Host.no_arial Client.decode false
           Client.scan
           Client.settings_60
           (Some (main.mkUploadFile (Some "band.png") (Some 1)
                    (Some "image/png") (Raw [Byte.x78])))
           [Host.a4]
           (models.mkKwargs (Some 60%float) None None None None)
           (models.mkBandSettings 60 0 None None (Some "#000000"))
           [] [] (UnidentifiedImageError "cannot identify image file")
           (mkWorld [mkDoc [Host.a4] true] [])).
  - reflexivity.
  - reflexivity.
  - split; simpl; lia.
  - reflexivity.
  - reflexivity.
  - split; reflexivity.
  - reflexivity.
Defined.






(** X23. A replacement image that passes the checks and is empty changes
    nothing: the request is answered as if no image had been sent. *)
Theorem empty_image_upload_ignored pf decode np pdf settings image w :
  image_upload_ok image -> main.file image = Raw [] ->
  main.process_pdf pf decode np pdf settings (Some image) w
  = main.process_pdf pf decode np pdf settings None w.
Proof.
  intros [H1 H2] Hf.
  unfold main.process_pdf, main.process_pdf_body.
  unfold ebind at 1 8.
  destruct (main.raise_if _ _ w) as [[[] | e] w1]; [| reflexivity].
  unfold ebind at 1 7.
  destruct (call_core (validate_pdf (main.file pdf)) w1) as [[[v m] | e] w2];
    [| reflexivity].
  unfold ebind at 1 6.
  destruct (main.raise_if _ _ w2) as [[[] | e] w3]; [| reflexivity].
  unfold ebind at 1 5.
  destruct (main.parse_settings decode np settings w3) as [[bs | e] w4];
    [| reflexivity].
  unfold ebind at 1 4. unfold main.read_replace_image.
  rewrite H1, H2, Hf. cbn [main.raise_if]. unfold ebind at 1 2, eret at 1 2.
  unfold eret at 2. unfold ebind, main.run_processor, process_pdf.
  cbn [bytes_truthy]. reflexivity.
Qed.

Lemma empty_image_upload_ignored_witness :
  main.process_pdf Host.no_arial Client.decode false Client.scan
    Client.settings_60
    (Some (main.mkUploadFile (Some "band.png") None (Some "image/png")
             (Raw [])))
    world0
  = main.process_pdf Host.no_arial Client.decode false Client.scan
      Client.settings_60 None world0.
Proof.
  apply (empty_image_upload_ignored Host.no_arial Client.decode false
           Client.scan
           Client.settings_60
           (main.mkUploadFile (Some "band.png") None (Some "image/png")
              (Raw []))
           world0).
  - split; reflexivity.
  - reflexivity.
Defined.

(** ** The name of the download *)

Lemma prefix_app s1 : forall s2,
  String.prefix s1 s2 = true -> exists post, s2 = (s1 ++ post)%string.
Proof.
  induction s1 as [| a s1 IH]; intros s2 H.
  - now exists s2.
  - destruct s2 as [| b s2]; simpl in H; [discriminate |].
    destruct (ascii_dec a b) as [-> |]; [| discriminate].
    destruct (IH s2 H) as [post ->]. now exists post.
Qed.

Lemma prefix_append s1 post : String.prefix s1 (s1 ++ post) = true.
Proof.
  induction s1 as [| a s1 IH]; simpl; [now destruct post |].
  destruct (ascii_dec a a); [exact IH | congruence].
Qed.

Lemma occurs_tail old c s : occurs old s -> occurs old (String c s).
Proof. intros (pre & post & ->). now exists (String c pre), post. Qed.

(** A name in which [.pdf] does not occur is left as it is. *)
Lemma replace_absent new s :
  ~ occurs ".pdf" s -> main.replace s ".pdf" new = s.
Proof.
  unfold main.replace. induction s as [| c s IH]; intros H; [reflexivity |].
  cbn [main.replace_from].
  destruct (String.prefix ".pdf" (String c s)) eqn:E.
  - apply prefix_app in E as [post E]. elim H. now exists EmptyString, post.
  - f_equal. apply IH. intros Ho. apply H. now apply occurs_tail.
Qed.

(** The first occurrence is replaced and the rest of the name is treated
    in the same way. *)
Lemma replace_first new base rest :
  ~ occurs ".pdf" base ->
  main.replace (base ++ ".pdf" ++ rest) ".pdf" new
  = (base ++ new ++ main.replace rest ".pdf" new)%string.
Proof.
  unfold main.replace. induction base as [| c base IH]; intros H.
  - pose proof (prefix_append ".pdf" rest) as Ep.
    cbn [append] in *. cbn [main.replace_from]. rewrite Ep. reflexivity.
  - remember (".pdf" ++ rest)%string as tail eqn:Et.
    cbn [append main.replace_from].
    destruct (String.prefix ".pdf" (String c (base ++ tail))) eqn:E.
    + exfalso. apply H. subst tail. cbn [String.prefix append] in E.
      destruct (ascii_dec "." c) as [<- |]; [| discriminate].
      destruct base as [| c1 base]; cbn [String.prefix append] in E;
        [destruct (ascii_dec "p" "."); discriminate |].
      destruct (ascii_dec "p" c1) as [<- |]; [| discriminate].
      destruct base as [| c2 base]; cbn [String.prefix append] in E;
        [destruct (ascii_dec "d" "."); discriminate |].
      destruct (ascii_dec "d" c2) as [<- |]; [| discriminate].
      destruct base as [| c3 base]; cbn [String.prefix append] in E;
        [destruct (ascii_dec "f" "."); discriminate |].
      destruct (ascii_dec "f" c3) as [<- |]; [| discriminate].
      now exists EmptyString, base.
    + f_equal. apply IH. intros Ho. apply H. now apply occurs_tail.
Qed.

(** X24. The name of the download.  Without a file name it is
    [modified.pdf]; in a name, the first [.pdf] becomes [_modified.pdf]
    and so does every later one; a name in which [.pdf] does not occur,
    as written, is returned unchanged. *)
Theorem output_filename_cases pdf :
  (str_truthy (main.filename pdf) = false ->
   main.output_filename pdf = "modified.pdf")
  /\ (forall base rest,
        main.filename pdf = Some (base ++ ".pdf" ++ rest)%string ->
        ~ occurs ".pdf" base ->
        main.output_filename pdf
        = (base ++ "_modified.pdf"
             ++ main.replace rest ".pdf" "_modified.pdf")%string)
  /\ (forall name,
        main.filename pdf = Some name -> name <> EmptyString ->
        ~ occurs ".pdf" name ->
        main.output_filename pdf = name).
Proof.
  unfold main.output_filename. split; [| split].
  - destruct (main.filename pdf) as [[| a s] |]; try reflexivity.
    discriminate.
  - intros base rest -> H.
    destruct (base ++ ".pdf" ++ rest)%string as [| a s] eqn:E.
    + destruct base; discriminate.
    + rewrite <- E. now apply replace_first.
  - intros name -> Hne H.
    destruct name as [| a s]; [now elim Hne |]. now apply replace_absent.
Qed.
